(** * The IDEX synchronisation job ([index.ts]): a shallow embedding

    The program polls a store for pending sync orders, logs into a remote
    payout platform, walks its paginated transaction feed and persists the
    records it has not seen.  This file embeds the functions of [index.ts]
    (and the parts of [prisma/schema.prisma] they rely on) and proves
    properties of them.

    Conventions of the embedding:
    - an [async] function is a state transformer over a [World] (the store
      and the chronological trace of observable events: HTTP calls, timers,
      store operations) that ends normally, throws, or runs out of fuel
      ([while (true)] loops take a fuel argument);
    - the remote platform is a function from the history so far and the
      request to the outcome of the HTTP call; the clock is a function of
      the history too;
    - a JavaScript number that the program uses as an integer (an id, a
      status, a count, a page) is a [Z]; what [parseInt] returns is a
      [Num], rounded as a double is; a delay in milliseconds is a
      rational;
    - the store keeps its rows in lists; an operation fails for a reason
      its own arguments and the rows give, or because the store rejects
      the call, which it may do at any time (see [failure]);
      [Promise.all] takes its promises in the order of the list;
    - [console.*] logging is not modelled; of [watchForSyncOrders], the
      poll loop around [processPendingIdexSyncOrders], one turn of the
      loop is modelled, not the signal handlers that end it. *)

From Stdlib Require Import ZArith List String Ascii Bool Lia QArith.
From Stdlib Require Import DecimalString DecimalZ.
Import ListNotations.
Local Open Scope string_scope.
Local Open Scope Z_scope.

(** ** JavaScript values and built-ins used by the program *)

(** [String(n)] for an integer-valued number (below 10^21, where the
    decimal form is used) and [n.toString()] for a BigInt. *)
Definition decimal (n : Z) : string := NilEmpty.string_of_int (Z.to_int n).

(** [s.includes(pat)] *)
Fixpoint includes (s pat : string) : bool :=
  String.prefix pat s ||
  match s with
  | EmptyString => false
  | String _ rest => includes rest pat
  end.

(** [s.split(sep)] for a one-character separator: never the empty list. *)
Fixpoint split (sep : ascii) (s : string) : list string :=
  match s with
  | EmptyString => [EmptyString]
  | String c rest =>
      if Ascii.eqb c sep then EmptyString :: split sep rest
      else match split sep rest with
           | first :: others => String c first :: others
           | [] => [String c EmptyString]
           end
  end.

(** [parts.join(sep)] *)
Definition join (sep : string) (parts : list string) : string :=
  String.concat sep parts.

(** [arr[k]]: [None] stands for [undefined]. *)
Definition array_get {A} (arr : list A) (k : Z) : option A :=
  if k <? 0 then None else nth_error arr (Z.to_nat k).

(** A number as [parseInt] returns it: an integer-valued double, an
    infinity, or [NaN]. *)
Inductive Num :=
| Finite (n : Z)
| Infinity (negative : bool)
| NaN.

(** The double nearest to an integer that is not negative, ties going to
    the even significand: below 2^53 the integer itself, above it the
    integer rounded to 53 significant bits. *)
Definition nearest_double (n : Z) : Z :=
  if n <? 2 ^ 53 then n
  else
    let e := Z.log2 n - 52 in
    let q := Z.shiftr n e in
    let r := n - Z.shiftl q e in
    let half := Z.shiftl 1 (e - 1) in
    Z.shiftl (if (half <? r) || ((r =? half) && Z.odd q) then q + 1 else q) e.

(** The Number value of a sign and a magnitude: an infinity from 2^1024
    on. *)
Definition to_number (negative : bool) (n : Z) : Num :=
  let m := nearest_double n in
  if 2 ^ 1024 <=? m then Infinity negative
  else Finite (if negative then - m else m).

(** *** [parseInt(s)] without a radix

    Leading (ASCII) white space is skipped, a sign is accepted, a [0x] prefix
    selects radix 16, and the longest prefix of digits is read; the result
    is the Number value of the integer read (the nearest double, as V8
    computes it), and [NaN] when no digit is read. *)
Definition is_space (c : ascii) : bool :=
  let n := nat_of_ascii c in
  (Nat.eqb n 32 || (Nat.leb 9 n && Nat.leb n 13))%bool.

Fixpoint skip_spaces (s : string) : string :=
  match s with
  | String c rest => if is_space c then skip_spaces rest else s
  | EmptyString => s
  end.

Definition digit_value (c : ascii) : option Z :=
  let n := Z.of_nat (nat_of_ascii c) in
  if (48 <=? n) && (n <=? 57) then Some (n - 48)
  else if (97 <=? n) && (n <=? 102) then Some (n - 87)
  else if (65 <=? n) && (n <=? 70) then Some (n - 55)
  else None.

Fixpoint read_digits (radix : Z) (acc : option Z) (s : string) : option Z :=
  match s with
  | EmptyString => acc
  | String c rest =>
      match digit_value c with
      | Some d =>
          if d <? radix
          then read_digits radix (Some (match acc with Some a => a * radix + d | None => d end)) rest
          else acc
      | None => acc
      end
  end.

Definition read_unsigned (s : string) : option Z :=
  match s with
  | String "0" (String "x" rest) => read_digits 16 None rest
  | String "0" (String "X" rest) => read_digits 16 None rest
  | _ => read_digits 10 None s
  end.

Definition number_of (negative : bool) (digits : option Z) : Num :=
  match digits with
  | Some n => to_number negative n
  | None => NaN
  end.

Definition parseInt (s : string) : Num :=
  match skip_spaces s with
  | String "-" rest => number_of true (read_unsigned rest)
  | String "+" rest => number_of false (read_unsigned rest)
  | rest => number_of false (read_unsigned rest)
  end.

(** A value of type [string | number], the type of [Transaction.id]. *)
Inductive StringOrNumber :=
| ofNumber (n : Z)
| ofString (s : string).

(** The values a store hands back in the columns the program reads. *)
Inductive JsValue :=
| JNumber (n : Z)
| JString (s : string)
| JBigInt (n : Z).

Definition js_of (v : StringOrNumber) : JsValue :=
  match v with
  | ofNumber n => JNumber n
  | ofString s => JString s
  end.

(** [`${v}`] and [v.toString()] *)
Definition toString (v : JsValue) : string :=
  match v with
  | JNumber n => decimal n
  | JString s => s
  | JBigInt n => decimal n
  end.

(** SameValueZero, the comparison of [Set.prototype.has]: two values of
    different types are never the same value, so a BigInt in a set is not
    found by looking for a Number or a String, whatever their digits. *)
Definition sameValueZero (a b : JsValue) : bool :=
  match a, b with
  | JNumber x, JNumber y => x =? y
  | JString x, JString y => String.eqb x y
  | JBigInt x, JBigInt y => x =? y
  | _, _ => false
  end.

(** [new Set(elements).has(v)] *)
Definition Set_has (elements : list JsValue) (v : JsValue) : bool :=
  existsb (fun e => sameValueZero e v) elements.

(** ** Constants of [index.ts] *)

Definition BASE_URL : string := "https://panel.gate.cx".
Definition BASE_DELAY : Z := 1000.
Definition MAX_RETRIES : Z := 5.
Definition DEFAULT_PAGES_TO_FETCH : Z := 10.

(** ** Data model *)

(** [interface Cookie]; [expirationDate] is in seconds. *)
Record Cookie := {
  domain : string;
  expirationDate : Q;
  hostOnly : bool;
  httpOnly : bool;
  name : string;
  path : string;
  secure : bool;
  session : bool;
  value : string
}.

(** A JSON document that the program only copies. *)
Definition Json := string.

(** [interface Transaction]: a record of the remote feed.  An absent
    [approved_at] or [expired_at] is [None]; the remaining properties
    ([...extraData]) are kept as a list of fields. *)
Record Transaction := {
  tx_id : StringOrNumber;
  tx_payment_method_id : StringOrNumber;
  tx_wallet : string;
  tx_amount : Json;
  tx_total : Json;
  tx_status : Z;
  tx_approved_at : option string;
  tx_expired_at : option string;
  tx_created_at : string;
  tx_updated_at : string;
  tx_extra : list (string * Json)
}.

(** [enum IdexSyncOrderStatus] of the schema. *)
Inductive IdexSyncOrderStatus := PENDING | IN_PROGRESS | COMPLETED | FAILED.

Definition status_eqb (a b : IdexSyncOrderStatus) : bool :=
  match a, b with
  | PENDING, PENDING | IN_PROGRESS, IN_PROGRESS
  | COMPLETED, COMPLETED | FAILED, FAILED => true
  | _, _ => false
  end.

(** The [processed] document of an order: one entry per cabinet, or the
    message of the error that failed the order. *)
Inductive ProcessedEntry :=
| CabinetSynced (cabinetId : Z) (transactions newTransactions : nat)
| CabinetFailed (cabinetId : Z) (error : string).

Inductive Processed :=
| ProcessedResults (entries : list ProcessedEntry)
| ProcessedError (error : string).

(** [model IdexSyncOrder] *)
Record IdexSyncOrder := {
  ord_id : Z;
  ord_createdAt : Z;
  ord_updatedAt : Z;
  ord_cabinetId : option Z;
  ord_processed : option Processed;
  ord_status : IdexSyncOrderStatus;
  ord_startSyncAt : option Z;
  ord_endSyncAt : option Z;
  ord_pages : list Z
}.

(** [model IdexCabinet] *)
Record IdexCabinet := {
  cab_id : Z;
  cab_createdAt : Z;
  cab_updatedAt : Z;
  cab_idexId : Z;
  cab_login : string;
  cab_password : string
}.

(** [model IdexTransaction]; [externalId] and [paymentMethodId] are BigInt
    columns, the other numeric columns are Int. *)
Record IdexTransaction := {
  row_id : Z;
  row_externalId : Z;
  row_paymentMethodId : Z;
  row_wallet : string;
  row_amount : Json;
  row_total : Json;
  row_status : Z;
  row_approvedAt : option string;
  row_expiredAt : option string;
  row_createdAtExternal : string;
  row_updatedAtExternal : string;
  row_extraData : list (string * Json);
  row_cabinetId : Z;
  row_createdAt : Z;
  row_updatedAt : Z
}.

(** ** HTTP *)

Record Headers := {
  set_cookie : option (list string);
  retry_after : option string
}.

(** A JSON value other than [null] as the program inspects it:
    [json.data] when it is an array, and [json.response.payouts.data] when
    it is an array (a string, a number or an array has neither). *)
Record Body := {
  body_data : option (list Transaction);
  body_payouts_data : option (list Transaction)
}.

(** [response.data]: [null] and [undefined] have no properties to read. *)
Inductive Payload :=
| Null
| Undefined
| Document (json : Body).

Record Response := {
  status : Z;
  headers : Headers;
  body : Payload
}.

(** A thrown value: [message], [code], and the [response] an axios error
    carries. *)
Record JsError := {
  message : string;
  code : option string;
  response : option Response
}.

(** [new Error(msg)] *)
Definition Error (msg : string) : JsError :=
  {| message := msg; code := None; response := None |}.

(** The TypeError of reading a property of [null] or [undefined]. *)
Definition TypeError (msg : string) : JsError :=
  {| message := msg; code := None; response := None |}.

Inductive HttpOutcome :=
| Resolved (r : Response)
| Rejected (e : JsError).

Inductive Request :=
| PostLogin (login password : string)
| GetPayouts (cookie : string) (page : Z).

(** ** Events and worlds *)

(** The [data] of an order update. *)
Record OrderUpdate := {
  upd_status : IdexSyncOrderStatus;
  upd_startSyncAt : option Z;
  upd_endSyncAt : option Z;
  upd_processed : option Processed
}.

(** The [data] of [idexTransaction.create]. *)
Record TransactionCreate := {
  new_externalId : Z;
  new_paymentMethodId : Z;
  new_wallet : string;
  new_amount : Json;
  new_total : Json;
  new_status : Z;
  new_approvedAt : option string;
  new_expiredAt : option string;
  new_createdAtExternal : string;
  new_updatedAtExternal : string;
  new_extraData : list (string * Json);
  new_cabinetId : Z
}.

Inductive StoreOp :=
| OrderFindMany (where_status : IdexSyncOrderStatus)
| OrderUpdateOp (where_id : Z) (data : OrderUpdate)
| CabinetFindUnique (where_id : Z)
| CabinetFindMany
| TransactionFindManyIn (externalIds : list StringOrNumber)
| TransactionFindManyOfCabinet (cabinetId : Z)
| TransactionCreateOp (data : TransactionCreate).

(** A timer is [setTimeout(resolve, ms)]; [None] is a delay that is not a
    finite number ([NaN] or an infinity). *)
Inductive Event :=
| EvRequest (rq : Request)
| EvTimer (ms : option Q)
| EvStore (op : StoreOp).

(** The store: the rows of the three models the program uses, and when
    the store rejects a call: [failure tr op] is the error with which the
    operation [op], called after the history [tr], is rejected (the server
    cannot be reached, the connection is lost, a timeout, ...), if it is.
    A rejected operation changes no row. *)
Record Store := {
  orders : list IdexSyncOrder;
  cabinets : list IdexCabinet;
  transactions : list IdexTransaction;
  failure : list Event -> StoreOp -> option JsError
}.

Record World := {
  store : Store;
  trace : list Event
}.

Definition log (e : Event) (w : World) : World :=
  {| store := store w; trace := (trace w ++ [e])%list |}.

Definition with_store (s : Store) (w : World) : World :=
  {| store := s; trace := trace w |}.

(** ** The monad of [async] code *)

Inductive Outcome (A : Type) :=
| Ok (a : A)
| Thrown (e : JsError)
| OutOfFuel.
Arguments Ok {A} a.
Arguments Thrown {A} e.
Arguments OutOfFuel {A}.

Definition M (A : Type) := World -> Outcome A * World.

Definition ret {A} (a : A) : M A := fun w => (Ok a, w).

Definition throw {A} (e : JsError) : M A := fun w => (Thrown e, w).

Definition bind {A B} (m : M A) (k : A -> M B) : M B :=
  fun w =>
    match m w with
    | (Ok a, w1) => k a w1
    | (Thrown e, w1) => (Thrown e, w1)
    | (OutOfFuel, w1) => (OutOfFuel, w1)
    end.

(** [try { m } catch (error) { handler error }] *)
Definition try_catch {A} (m : M A) (handler : JsError -> M A) : M A :=
  fun w =>
    match m w with
    | (Thrown e, w1) => handler e w1
    | other => other
    end.

Notation "x <- m ;; k" := (bind m (fun x => k))
  (at level 61, m at next level, right associativity).
Notation "m ;; k" := (bind m (fun _ => k))
  (at level 61, right associativity).

(** [await new Promise(resolve => setTimeout(resolve, ms))] *)
Definition setTimeout (ms : option Q) : M unit :=
  fun w => (Ok tt, log (EvTimer ms) w).

Definition millis (n : Z) : option Q := Some (inject_Z n).

(** The delay of a timer set with a Number. *)
Definition delay_of (n : Num) : option Q :=
  match n with
  | Finite n => millis n
  | _ => None
  end.

(** ** [withRetry] (index.ts:458-473)

    The delay is kept as an exact rational: with the default arguments
    every delay of a run (2000, 3000, 4500) is a double and the products
    are exact. *)

(** The recognised "server unreachable" condition. *)
Definition unreachable (error : JsError) : bool :=
  match code error with
  | Some c => String.eqb c "P1001"
  | None => false
  end && includes (message error) "Can't reach database server".

Fixpoint withRetry {A} (fn : M A) (retries : nat) (delay : Q) : M A :=
  try_catch fn (fun error =>
    match retries with
    | S retries' =>
        if unreachable error
        then setTimeout (Some delay) ;;
             withRetry fn retries' (Qred (delay * (3 # 2)))
        else throw error
    | O => throw error
    end).

(** A call that leaves [retries = 3] and [delay = 2000] to their defaults. *)
Definition withRetry_default {A} (fn : M A) : M A := withRetry fn 3 2000.

(** ** [determinePages] (index.ts:165-177) *)

Definition determinePages (pages : option (list Z)) (cabinetIndex : Z) : option Z :=
  match pages with
  | None => Some DEFAULT_PAGES_TO_FETCH
  | Some pages =>
      if Nat.eqb (List.length pages) 0 then Some DEFAULT_PAGES_TO_FETCH
      else if Nat.eqb (List.length pages) 1 then array_get pages 0
      else array_get pages (Z.min cabinetIndex (Z.of_nat (List.length pages) - 1))
  end.

(** ** The store behind [prisma] (prisma/schema.prisma)

    What each operation does with the rows when the store serves it: it
    fails for a reason its own arguments and the rows give (a missing row,
    a violated constraint, a value outside the range of its column).
    Whether the store serves the call at all is decided in [store_call]. *)

(** An error of the store with a Prisma error code. *)
Definition PrismaError (c msg : string) : JsError :=
  {| message := msg; code := Some c; response := None |}.

Definition order_findMany (st : IdexSyncOrderStatus) (s : Store)
  : (JsError + list IdexSyncOrder) * Store :=
  (inr (filter (fun o => status_eqb (ord_status o) st) (orders s)), s).

Definition apply_update (data : OrderUpdate) (t : Z) (o : IdexSyncOrder) : IdexSyncOrder :=
  {| ord_id := ord_id o;
     ord_createdAt := ord_createdAt o;
     ord_updatedAt := t;
     ord_cabinetId := ord_cabinetId o;
     ord_processed := match upd_processed data with Some p => Some p | None => ord_processed o end;
     ord_status := upd_status data;
     ord_startSyncAt := match upd_startSyncAt data with Some d => Some d | None => ord_startSyncAt o end;
     ord_endSyncAt := match upd_endSyncAt data with Some d => Some d | None => ord_endSyncAt o end;
     ord_pages := ord_pages o |}.

Definition find_order (id : Z) (l : list IdexSyncOrder) : option IdexSyncOrder :=
  find (fun o => ord_id o =? id) l.

(** [idexSyncOrder.update({ where: { id }, data })]; [t] is the time of the
    write ([@updatedAt]). *)
Definition order_update (id : Z) (data : OrderUpdate) (t : Z) (s : Store)
  : (JsError + IdexSyncOrder) * Store :=
  match find_order id (orders s) with
  | None => (inl (PrismaError "P2025" "Record to update not found."), s)
  | Some o =>
      (inr (apply_update data t o),
       {| orders := map (fun o' => if ord_id o' =? id then apply_update data t o' else o') (orders s);
          cabinets := cabinets s;
          transactions := transactions s;
          failure := failure s |})
  end.

Definition cabinet_findUnique (id : Z) (s : Store)
  : (JsError + option IdexCabinet) * Store :=
  (inr (find (fun c => cab_id c =? id) (cabinets s)), s).

Definition cabinet_findMany (s : Store) : (JsError + list IdexCabinet) * Store :=
  (inr (cabinets s), s).

(** The operations of a store client that [fetchTransactions] and
    [saveTransactions] use through their [db] parameter (typed [any] in the
    source): the two shapes of [idexTransaction.findMany] with their
    [select]ed columns, and [idexTransaction.create] (given the time of the
    write). *)
Record DbClient := {
  findMany_externalId_in : list StringOrNumber -> Store -> JsError + list JsValue;
  findMany_cabinetId : Z -> Store -> JsError + list (JsValue * JsValue);
  create : TransactionCreate -> Z -> Store -> (JsError + IdexTransaction) * Store
}.

(** The ranges of the columns: [BigInt] is a signed 64-bit integer and
    [Int] a signed 32-bit one. *)
Definition in_int64 (n : Z) : bool := (- 2 ^ 63 <=? n) && (n <? 2 ^ 63).
Definition in_int32 (n : Z) : bool := (- 2 ^ 31 <=? n) && (n <? 2 ^ 31).

Definition out_of_int64 : JsError :=
  PrismaError "P2033" "A number used in the query does not fit into a 64 bit signed integer.".

Definition out_of_int32 : JsError :=
  PrismaError "P2020" "Value out of range for the type.".

Definition invalid_id : JsError :=
  Error "Invalid value provided for the field externalId.".

Definition is_decimal_digit (c : ascii) : bool :=
  let n := nat_of_ascii c in (Nat.leb 48 n && Nat.leb n 57)%bool.

Fixpoint all_digits (s : string) : bool :=
  match s with
  | EmptyString => true
  | String c rest => is_decimal_digit c && all_digits rest
  end.

(** The value of a String given for a BigInt column: the string must be
    the decimal notation of a signed 64-bit integer, a sign followed by
    digits or digits alone. *)
Definition int64_of_digits (negative : bool) (digits : string) : option Z :=
  match digits with
  | EmptyString => None
  | _ =>
      if all_digits digits then
        match read_digits 10 None digits with
        | Some n => let v := if negative then - n else n in
                    if in_int64 v then Some v else None
        | None => None
        end
      else None
  end.

Definition int64_of_string (s : string) : option Z :=
  match s with
  | String "-" digits => int64_of_digits true digits
  | String "+" digits => int64_of_digits false digits
  | _ => int64_of_digits false s
  end.

(** The value of an id given for the BigInt column [externalId]: that of
    a Number within the range of the column, and that of a String that
    denotes one. *)
Definition id_value (v : StringOrNumber) : option Z :=
  match v with
  | ofNumber n => if in_int64 n then Some n else None
  | ofString s => int64_of_string s
  end.

Definition accepted_id (v : StringOrNumber) : bool :=
  match id_value v with Some _ => true | None => false end.

Definition matches_any (ids : list StringOrNumber) (externalId : Z) : bool :=
  existsb (fun v => match id_value v with
                    | Some n => n =? externalId
                    | None => false
                    end) ids.

(** [findMany({ where: { externalId: { in: ids } }, select: { externalId: true } })].
    [externalId] is a BigInt column ([externalId BigInt] in the schema;
    index.ts:430 writes it as [BigInt(id)] and index.ts:412 reads it with
    [.toString()]): the client takes a Number or a String that denotes a
    64-bit integer for it and compares by value, refuses any other value,
    and hands the column back as a BigInt. *)
Definition prisma_findMany_externalId_in (ids : list StringOrNumber) (s : Store)
  : JsError + list JsValue :=
  if forallb accepted_id ids
  then inr (map (fun r => JBigInt (row_externalId r))
                (filter (fun r => matches_any ids (row_externalId r)) (transactions s)))
  else inl invalid_id.

(** [findMany({ where: { cabinetId }, select: { externalId: true, cabinetId: true } })];
    [cabinetId] is an Int column. *)
Definition prisma_findMany_cabinetId (cabinetId : Z) (s : Store)
  : JsError + list (JsValue * JsValue) :=
  if in_int32 cabinetId
  then inr (map (fun r => (JBigInt (row_externalId r), JNumber (row_cabinetId r)))
                (filter (fun r => row_cabinetId r =? cabinetId) (transactions s)))
  else inl out_of_int32.

(** [@@unique([externalId, cabinetId])] *)
Definition pair_present (externalId cabinetId : Z) (rows : list IdexTransaction) : bool :=
  existsb (fun r => (row_externalId r =? externalId) && (row_cabinetId r =? cabinetId)) rows.

(** [@id @default(autoincrement())] *)
Definition next_id (rows : list IdexTransaction) : Z :=
  1 + fold_right (fun r acc => Z.max (row_id r) acc) 0 rows.

Definition new_row (data : TransactionCreate) (id t : Z) : IdexTransaction :=
  {| row_id := id;
     row_externalId := new_externalId data;
     row_paymentMethodId := new_paymentMethodId data;
     row_wallet := new_wallet data;
     row_amount := new_amount data;
     row_total := new_total data;
     row_status := new_status data;
     row_approvedAt := new_approvedAt data;
     row_expiredAt := new_expiredAt data;
     row_createdAtExternal := new_createdAtExternal data;
     row_updatedAtExternal := new_updatedAtExternal data;
     row_extraData := new_extraData data;
     row_cabinetId := new_cabinetId data;
     row_createdAt := t;
     row_updatedAt := t |}.


(** [idexTransaction.create({ data })]: the values must fit their columns,
    the cabinet must exist (the relation of the schema) and the pair
    [(externalId, cabinetId)] must be new (its unique index). *)
Definition prisma_create (data : TransactionCreate) (t : Z) (s : Store)
  : (JsError + IdexTransaction) * Store :=
  if negb (in_int64 (new_externalId data) && in_int64 (new_paymentMethodId data))
  then (inl out_of_int64, s)
  else if negb (in_int32 (new_status data) && in_int32 (new_cabinetId data))
  then (inl out_of_int32, s)
  else if negb (existsb (fun c => cab_id c =? new_cabinetId data) (cabinets s))
  then (inl (PrismaError "P2003" "Foreign key constraint failed on the field: cabinetId"), s)
  else if pair_present (new_externalId data) (new_cabinetId data) (transactions s)
  then (inl (PrismaError "P2002" "Unique constraint failed on the fields: (externalId,cabinetId)"), s)
  else
    let row := new_row data (next_id (transactions s)) t in
    (inr row,
     {| orders := orders s; cabinets := cabinets s;
        transactions := (transactions s ++ [row])%list;
        failure := failure s |}).

(** The client generated from the schema, the [prisma] of [index.ts]. *)
Definition prisma : DbClient :=
  {| findMany_externalId_in := prisma_findMany_externalId_in;
     findMany_cabinetId := prisma_findMany_cabinetId;
     create := prisma_create |}.

(** A store operation as an [async] call: the operation is recorded;
    the store rejects it, and the call throws the error of the rejection,
    or serves it, and it runs on the rows. *)
Definition store_call {A} (op : StoreOp) (run : Store -> (JsError + A) * Store) : M A :=
  fun w =>
    let w1 := log (EvStore op) w in
    match failure (store w) (trace w) op with
    | Some e => (Thrown e, w1)
    | None =>
        match run (store w1) with
        | (inr a, s) => (Ok a, with_store s w1)
        | (inl e, s) => (Thrown e, with_store s w1)
        end
    end.

(** The outcome of one turn of a [while (true)] loop. *)
Inductive Step (A : Type) :=
| Return (a : A)
| Continue (retryCount delay : Z).
Arguments Return {A} a.
Arguments Continue {A} retryCount delay.

(** [header || String(delay)] then [parseInt]. *)
Definition retryAfter_of (header : option string) (delay : Z) : Num :=
  parseInt match header with
           | Some EmptyString | None => decimal delay
           | Some s => s
           end.

Definition too_many_requests : JsError :=
  Error "Превышено максимальное количество попыток. Последний статус: 429 Too Many Requests".

(** The handling of a 429, the same in the four places it is written:
    give up once [retryCount >= MAX_RETRIES], else wait and go round again
    with [retryCount + 1] and [delay * 2]. *)
Definition on_429 {A} (header : option string) (retryCount delay : Z) : M (Step A) :=
  if MAX_RETRIES <=? retryCount then throw too_many_requests
  else
    setTimeout (delay_of (retryAfter_of header delay)) ;;
    ret (Continue (retryCount + 1) (delay * 2)).

(** [error.response?.status === 429] *)
Definition response_is_429 (error : JsError) : bool :=
  match response error with
  | Some r => status r =? 429
  | None => false
  end.

Definition error_retry_after (error : JsError) : option string :=
  match response error with
  | Some r => retry_after (headers r)
  | None => None
  end.

(** [cookieStr.split(';')[0].split('=')], then [cookieParts[0]] and
    [cookieParts.slice(1).join('=')]. *)
Definition cookie_name_value (cookieStr : string) : string * string :=
  let cookieParts := split "=" (hd EmptyString (split ";" cookieStr)) in
  (hd EmptyString cookieParts, join "=" (tl cookieParts)).

Definition session_cookie (nm val : string) (t : Z) : Cookie :=
  {| domain := ".panel.gate.cx";
     expirationDate := Qred (inject_Z t / 1000 + 86400);
     hostOnly := false;
     httpOnly := true;
     name := nm;
     path := "/";
     secure := true;
     session := false;
     value := val |}.

(** The [for (const cookieStr of cookies)] loop of [login]. *)
Fixpoint collect_cookies (cookies : list string) (t : Z) (result : list Cookie) : list Cookie :=
  match cookies with
  | [] => result
  | cookieStr :: rest =>
      let (nm, val) := cookie_name_value cookieStr in
      if String.eqb nm "sid" || String.eqb nm "rsid"
      then collect_cookies rest t (result ++ [session_cookie nm val t])%list
      else collect_cookies rest t result
  end.

Definition cookie_header (cookies : list Cookie) : string :=
  join "; " (map (fun c => name c ++ "=" ++ value c) cookies).

(** The [data] of the writes to an order, [t] being the [new Date()] of
    the write: [{status: IN_PROGRESS, startSyncAt}] (index.ts:60-63),
    [{status: COMPLETED, endSyncAt, processed: processedResults}]
    (index.ts:105-109) and [{status: FAILED, endSyncAt, processed: {error:
    orderError.message}}] (index.ts:119-123). *)
Definition started (t : Z) : OrderUpdate :=
  {| upd_status := IN_PROGRESS; upd_startSyncAt := Some t;
     upd_endSyncAt := None; upd_processed := None |}.

Definition completed (processedResults : list ProcessedEntry) (t : Z) : OrderUpdate :=
  {| upd_status := COMPLETED; upd_startSyncAt := None;
     upd_endSyncAt := Some t;
     upd_processed := Some (ProcessedResults processedResults) |}.

Definition failed_with (orderError : JsError) (t : Z) : OrderUpdate :=
  {| upd_status := FAILED; upd_startSyncAt := None;
     upd_endSyncAt := Some t;
     upd_processed := Some (ProcessedError (message orderError)) |}.

Section Program.

(** The remote platform: the outcome of an HTTP call, given the history
    of the run and the request. *)
Variable remote : list Event -> Request -> HttpOutcome.

(** The clock, in milliseconds, given the history of the run. *)
Variable now : list Event -> Z.

(** [BigInt(s)] for a string ([None]: it throws a SyntaxError),
    [new Date(s).getTime()] ([None]: [NaN]) and
    [new Date(t).toISOString()]. *)
Variable BigInt_of_string : string -> option Z.
Variable Date_parse : string -> option Z.
Variable toISOString : Z -> string.

(** [axios.post] and [axios.get]: a rejected call throws its error. *)
Definition axios (rq : Request) : M Response :=
  fun w =>
    match remote (trace w) rq with
    | Resolved r => (Ok r, log (EvRequest rq) w)
    | Rejected e => (Thrown e, log (EvRequest rq) w)
    end.

Definition Date_now : M Z := fun w => (Ok (now (trace w)), w).

(** *** [login] (index.ts:184-265) *)

Definition login_try (credentials : string * string) (retryCount delay : Z)
  : M (Step (list Cookie)) :=
  response <- axios (PostLogin (fst credentials) (snd credentials)) ;;
  if status response =? 200 then
    let cookies := match set_cookie (headers response) with
                   | Some l => l
                   | None => []
                   end in
    if Nat.eqb (List.length cookies) 0
    then throw (Error "Не получены куки после авторизации")
    else
      t <- Date_now ;;
      let result := collect_cookies cookies t [] in
      if Nat.ltb (List.length result) 2
      then throw (Error "Отсутствуют необходимые куки (sid и/или rsid)")
      else ret (Return result)
  else if status response =? 429 then
    on_429 (retry_after (headers response)) retryCount delay
  else
    throw (Error ("Авторизация не удалась со статусом: " ++ decimal (status response))).

Definition rate_limit_catch {A} (retryCount delay : Z) (error : JsError) : M (Step A) :=
  if response_is_429 error
  then on_429 (error_retry_after error) retryCount delay
  else throw error.

Fixpoint login_loop (fuel : nat) (credentials : string * string)
         (retryCount delay : Z) : M (list Cookie) :=
  match fuel with
  | O => fun w => (OutOfFuel, w)
  | S fuel' =>
      step <- try_catch (login_try credentials retryCount delay)
                        (rate_limit_catch retryCount delay) ;;
      match step with
      | Return result => ret result
      | Continue retryCount' delay' => login_loop fuel' credentials retryCount' delay'
      end
  end.

(** The loop gives up at the latest on its [MAX_RETRIES + 1]-th turn. *)
Definition loop_fuel : nat := S (Z.to_nat MAX_RETRIES).

Definition login (credentials : string * string) : M (list Cookie) :=
  login_loop loop_fuel credentials 0 BASE_DELAY.

(** *** [fetchTransactionsPage] (index.ts:273-339) *)

Definition page_try (cookieStr : string) (page retryCount delay : Z)
  : M (Step (list Transaction)) :=
  response <- axios (GetPayouts cookieStr page) ;;
  if status response =? 200 then
    match body response with
    | Null => throw (TypeError "Cannot read properties of null (reading 'data')")
    | Undefined => throw (TypeError "Cannot read properties of undefined (reading 'data')")
    | Document json =>
        match body_data json, body_payouts_data json with
        | Some data, _ => ret (Return data)
        | None, Some data => ret (Return data)
        | None, None => throw (Error "Неожиданная структура ответа")
        end
    end
  else if status response =? 429 then
    on_429 (retry_after (headers response)) retryCount delay
  else
    throw (Error ("Не удалось получить транзакции: " ++ decimal (status response))).

Fixpoint page_loop (fuel : nat) (cookieStr : string) (page retryCount delay : Z)
  : M (list Transaction) :=
  match fuel with
  | O => fun w => (OutOfFuel, w)
  | S fuel' =>
      step <- try_catch (page_try cookieStr page retryCount delay)
                        (rate_limit_catch retryCount delay) ;;
      match step with
      | Return data => ret data
      | Continue retryCount' delay' => page_loop fuel' cookieStr page retryCount' delay'
      end
  end.

Definition fetchTransactionsPage (cookies : list Cookie) (page : Z) : M (list Transaction) :=
  page_loop loop_fuel (cookie_header cookies) page 0 BASE_DELAY.

(** *** [fetchTransactions] (index.ts:348-393) *)

(** The body of the [try] block of one page: the records to append and
    whether the loop [break]s. *)
Definition page_try_block (db : DbClient) (cookies : list Cookie) (page : Z)
  : M (list Transaction * bool) :=
  transactions <- fetchTransactionsPage cookies page ;;
  if Nat.ltb 0 (List.length transactions) then
    let externalIds := map tx_id transactions in
    existingIds <- withRetry_default
      (store_call (TransactionFindManyIn externalIds)
                  (fun s => (findMany_externalId_in db externalIds s, s))) ;;
    let newTransactions :=
      filter (fun t => negb (Set_has existingIds (js_of (tx_id t)))) transactions in
    ret (newTransactions, Nat.eqb (List.length newTransactions) 0)
  else ret ([], false).

(** The [for (let page = 1; page <= pages; page++)] loop, with the
    number of turns it has left. *)
Fixpoint fetch_loop (db : DbClient) (cookies : list Cookie) (turns : nat) (page : Z)
         (allTransactions : list Transaction) : M (list Transaction) :=
  match turns with
  | O => ret allTransactions
  | S turns' =>
      (if 1 <? page then setTimeout (millis BASE_DELAY) else ret tt) ;;
      found <- try_catch (page_try_block db cookies page)
                         (fun _ => ret ([], false)) ;;
      let allTransactions' := (allTransactions ++ fst found)%list in
      if snd found then ret allTransactions'
      else fetch_loop db cookies turns' (page + 1) allTransactions'
  end.

(** [pages = DEFAULT_PAGES_TO_FETCH] when the argument is [undefined]. *)
Definition fetchTransactions (cookies : list Cookie) (pages : option Z) (db : DbClient)
  : M (list Transaction) :=
  let pages := match pages with Some n => n | None => DEFAULT_PAGES_TO_FETCH end in
  fetch_loop db cookies (Z.to_nat pages) 1 [].

(** *** [saveTransactions] (index.ts:401-449) *)

(** [BigInt(v)] *)
Definition BigInt (v : StringOrNumber) : M Z :=
  match v with
  | ofNumber n => ret n
  | ofString s =>
      match BigInt_of_string s with
      | Some n => ret n
      | None => throw (Error ("Cannot convert " ++ s ++ " to a BigInt"))
      end
  end.

(** [stamp ? new Date(new Date(stamp).getTime() + 3 * 60 * 60 * 1000).toISOString() : null] *)
Definition shifted (stamp : option string) : M (option string) :=
  match stamp with
  | None | Some EmptyString => ret None
  | Some s =>
      match Date_parse s with
      | Some t => ret (Some (toISOString (t + 3 * 60 * 60 * 1000)))
      | None => throw (Error "Invalid time value")
      end
  end.

(** [() => db.idexTransaction.create({ data: { ... } })] *)
Definition create_call (db : DbClient) (transaction : Transaction) (cabinetId : Z)
  : M IdexTransaction :=
  externalId <- BigInt (tx_id transaction) ;;
  paymentMethodId <- BigInt (tx_payment_method_id transaction) ;;
  approvedAt <- shifted (tx_approved_at transaction) ;;
  expiredAt <- shifted (tx_expired_at transaction) ;;
  t <- Date_now ;;
  let data :=
    {| new_externalId := externalId;
       new_paymentMethodId := paymentMethodId;
       new_wallet := tx_wallet transaction;
       new_amount := tx_amount transaction;
       new_total := tx_total transaction;
       new_status := tx_status transaction;
       new_approvedAt := approvedAt;
       new_expiredAt := expiredAt;
       new_createdAtExternal := tx_created_at transaction;
       new_updatedAtExternal := tx_updated_at transaction;
       new_extraData := tx_extra transaction;
       new_cabinetId := cabinetId |} in
  store_call (TransactionCreateOp data) (create db data t).

(** [await Promise.all(promises)]: every promise runs to its end; the
    result is the list of the values, or the first rejection.  The
    promises are taken in the order of the list, one of the orders in
    which the store may serve them. *)
Fixpoint Promise_all {A} (promises : list (M A)) : M (list A) :=
  match promises with
  | [] => ret []
  | p :: rest =>
      fun w =>
        let (r, w1) := p w in
        let (rs, w2) := Promise_all rest w1 in
        (match r, rs with
         | Ok a, Ok l => Ok (a :: l)
         | Ok _, Thrown e => Thrown e
         | Ok _, OutOfFuel => OutOfFuel
         | Thrown e, _ => Thrown e
         | OutOfFuel, _ => OutOfFuel
         end, w2)
  end.

(** [`${externalId}_${cabinetId}`] *)
Definition pair_key (externalId cabinetId : JsValue) : string :=
  toString externalId ++ "_" ++ toString cabinetId.

Definition saveTransactions (transactions : list Transaction) (cabinetId : Z) (db : DbClient)
  : M (list IdexTransaction) :=
  existingTransactions <- withRetry_default
    (store_call (TransactionFindManyOfCabinet cabinetId)
                (fun s => (findMany_cabinetId db cabinetId s, s))) ;;
  let existingPairs :=
    map (fun t => JString (pair_key (fst t) (snd t))) existingTransactions in
  let newTransactions :=
    filter (fun t => negb (Set_has existingPairs
                             (JString (pair_key (js_of (tx_id t)) (JNumber cabinetId)))))
           transactions in
  if Nat.eqb (List.length newTransactions) 0 then ret []
  else
    Promise_all
      (map (fun transaction => withRetry_default (create_call db transaction cabinetId))
           newTransactions).

(** *** [determineCabinetsToSync] (index.ts:138-160) *)

Definition determineCabinetsToSync (order : IdexSyncOrder) : M (list IdexCabinet) :=
  match ord_cabinetId order with
  | Some cabinetId =>
      if cabinetId =? 0 then
        cabinets <- withRetry_default (store_call CabinetFindMany cabinet_findMany) ;;
        if Nat.eqb (List.length cabinets) 0
        then throw (Error "В базе данных не найдено кабинетов")
        else ret cabinets
      else
        cabinet <- withRetry_default
          (store_call (CabinetFindUnique cabinetId) (cabinet_findUnique cabinetId)) ;;
        match cabinet with
        | None => throw (Error ("Кабинет с ID " ++ decimal cabinetId ++ " не найден"))
        | Some cabinet => ret [cabinet]
        end
  | None =>
      cabinets <- withRetry_default (store_call CabinetFindMany cabinet_findMany) ;;
      if Nat.eqb (List.length cabinets) 0
      then throw (Error "В базе данных не найдено кабинетов")
      else ret cabinets
  end.

(** *** [processPendingIdexSyncOrders] (index.ts:44-133) *)

Definition update_order (id : Z) (data : Z -> OrderUpdate) : M IdexSyncOrder :=
  withRetry_default
    (t <- Date_now ;;
     store_call (OrderUpdateOp id (data t)) (order_update id (data t) t)).

(** The [try] block of one cabinet: log in, fetch, save, and report the
    two counts. *)
Definition sync_cabinet (order : IdexSyncOrder) (cabinetIndex : Z) (cabinet : IdexCabinet)
  : M ProcessedEntry :=
  let pagesToFetch := determinePages (Some (ord_pages order)) cabinetIndex in
  cookies <- login (cab_login cabinet, cab_password cabinet) ;;
  transactions <- fetchTransactions cookies pagesToFetch prisma ;;
  savedTransactions <- saveTransactions transactions (cab_id cabinet) prisma ;;
  ret (CabinetSynced (cab_id cabinet) (List.length transactions)
                     (List.length savedTransactions)).

(** The [for (const cabinet of cabinetsToSync)] loop;
    [cabinetsToSync.indexOf(cabinet)] is the position of the cabinet,
    the cabinets being distinct objects. *)
Fixpoint sync_cabinets (order : IdexSyncOrder) (cabinetIndex : Z)
         (cabinetsToSync : list IdexCabinet) (processedResults : list ProcessedEntry)
  : M (list ProcessedEntry) :=
  match cabinetsToSync with
  | [] => ret processedResults
  | cabinet :: rest =>
      entry <- try_catch (sync_cabinet order cabinetIndex cabinet)
                         (fun cabinetError =>
                            ret (CabinetFailed (cab_id cabinet) (message cabinetError))) ;;
      sync_cabinets order (cabinetIndex + 1) rest (processedResults ++ [entry])%list
  end.

(** The body of the [for (const order of pendingOrders)] loop; the
    [data] of its three writes are [started], [completed] and
    [failed_with], given the [new Date()] of the write. *)
Definition process_order (order : IdexSyncOrder) : M unit :=
  try_catch
    (update_order (ord_id order) started ;;
     cabinetsToSync <- determineCabinetsToSync order ;;
     processedResults <- sync_cabinets order 0 cabinetsToSync [] ;;
     update_order (ord_id order) (completed processedResults) ;;
     ret tt)
    (fun orderError =>
       update_order (ord_id order) (failed_with orderError) ;;
       ret tt).

Fixpoint process_orders (pendingOrders : list IdexSyncOrder) : M unit :=
  match pendingOrders with
  | [] => ret tt
  | order :: rest => process_order order ;; process_orders rest
  end.

(** [pendingOrders] is declared by [const] inside the [try] block, so it
    is out of scope in the final [return pendingOrders.length]: when the
    block ends normally the function throws a ReferenceError; when the
    block throws, the handler returns 0. *)
Definition processPendingIdexSyncOrders : M Z :=
  caught <- try_catch
    (pendingOrders <- withRetry_default (store_call (OrderFindMany PENDING)
                                                    (order_findMany PENDING)) ;;
     process_orders pendingOrders ;;
     ret false)
    (fun _ => ret true) ;;
  if (caught : bool) then ret 0
  else throw (Error "pendingOrders is not defined").

End Program.

(** ** One turn of the poll loop of [watchForSyncOrders] (index.ts:505-530)

    The body of [while (isRunning)]: the query for the pending orders, the
    call of [processPendingIdexSyncOrders] when there are some, the handler
    that logs whatever was thrown, and the pause of [checkInterval]
    milliseconds.  The loop around it, whose flag the signal handlers
    clear before they end the process, is not modelled. *)

Section Watch.

Variable remote : list Event -> Request -> HttpOutcome.
Variable now : list Event -> Z.
Variable BigInt_of_string : string -> option Z.
Variable Date_parse : string -> option Z.
Variable toISOString : Z -> string.

Definition watch_cycle (checkInterval : Z) : M unit :=
  try_catch
    (pendingOrders <- withRetry_default (store_call (OrderFindMany PENDING)
                                                    (order_findMany PENDING)) ;;
     if Nat.ltb 0 (List.length pendingOrders)
     then processPendingIdexSyncOrders remote now BigInt_of_string Date_parse toISOString ;;
          ret tt
     else Date_now now ;; ret tt)
    (fun _ => ret tt) ;;
  setTimeout (millis checkInterval).

End Watch.

(** ** Vocabulary of the statements *)

(** [extend w evs]: the world [w] once the events [evs] have happened and
    the store is unchanged. *)
Definition extend (w : World) (evs : list Event) : World :=
  {| store := store w; trace := (trace w ++ evs)%list |}.

(** The operations on each of the three models. *)
Definition on_orders (op : StoreOp) : bool :=
  match op with
  | OrderFindMany _ | OrderUpdateOp _ _ => true
  | _ => false
  end.

Definition on_cabinets (op : StoreOp) : bool :=
  match op with
  | CabinetFindUnique _ | CabinetFindMany => true
  | _ => false
  end.

Definition on_transactions (op : StoreOp) : bool :=
  match op with
  | TransactionFindManyIn _ | TransactionFindManyOfCabinet _ | TransactionCreateOp _ => true
  | _ => false
  end.

(** [serves ops s]: the store [s] rejects no call of an operation of
    [ops], whatever the history. *)
Definition serves (ops : StoreOp -> bool) (s : Store) : Prop :=
  forall tr op, ops op = true -> failure s tr op = None.

(** [within P R Q m]: from every world [m] ends, normally or by throwing;
    the events it adds satisfy [P], the store moves along [R], and a value
    it returns satisfies [Q]. *)
Definition within {A} (P : Event -> Prop) (R : Store -> Store -> Prop)
           (Q : A -> Prop) (m : M A) : Prop :=
  forall w, exists r w' evs,
    m w = (r, w') /\ r <> OutOfFuel /\ (forall a, r = Ok a -> Q a) /\
    R (store w) (store w') /\ trace w' = (trace w ++ evs)%list /\ Forall P evs.

Definition any {A} (a : A) : Prop := True.

(** Events of code that talks to the remote only: the requests in
    [allowed], and timers. *)
Definition calls_or_waits (allowed : Request -> Prop) (e : Event) : Prop :=
  match e with
  | EvRequest rq => allowed rq
  | EvTimer _ => True
  | EvStore _ => False
  end.

(** Events of [fetchTransactions]: requests in [allowed], timers, and the
    duplicate query. *)
Definition fetch_event (allowed : Request -> Prop) (e : Event) : Prop :=
  match e with
  | EvRequest rq => allowed rq
  | EvTimer _ => True
  | EvStore (TransactionFindManyIn _) => True
  | EvStore _ => False
  end.

(** A turn of a rate-limited loop goes round again only with a retry
    left, and counts it. *)
Definition continues {A} (retryCount : Z) (step : Step A) : Prop :=
  match step with
  | Continue retryCount' _ => retryCount' = retryCount + 1 /\ retryCount < MAX_RETRIES
  | Return _ => True
  end.

(** The world in which a page is fetched: [BASE_DELAY] has been waited
    before every page but the first. *)
Definition after_delay (page : Z) (w : World) : World :=
  if 1 <? page then log (EvTimer (millis BASE_DELAY)) w else w.

(** The duplicate query of [fetchTransactions] for the records of a page,
    behind [withRetry]. *)
Definition duplicate_query (db : DbClient) (transactions : list Transaction)
  : M (list JsValue) :=
  withRetry_default
    (store_call (TransactionFindManyIn (map tx_id transactions))
                (fun s => (findMany_externalId_in db (map tx_id transactions) s, s))).

(** The records of a page that the duplicate check does not find. *)
Definition unseen (existingIds : list JsValue) (transactions : list Transaction)
  : list Transaction :=
  filter (fun t => negb (Set_has existingIds (js_of (tx_id t)))) transactions.

(** A request for one of the pages [lo], ..., [hi - 1] of the feed, with
    the cookies of the session. *)
Definition page_between (cookies : list Cookie) (lo hi : Z) (rq : Request) : Prop :=
  exists page, rq = GetPayouts (cookie_header cookies) page /\ lo <= page < hi.


(** Events other than a write to an order. *)
Definition no_order_write (e : Event) : Prop :=
  match e with
  | EvStore (OrderUpdateOp _ _) => False
  | _ => True
  end.

(** Stores with the same orders and the same cabinets, that reject the
    same calls. *)
Definition same_orders (s s' : Store) : Prop :=
  orders s' = orders s /\ cabinets s' = cabinets s /\ failure s' = failure s.

(** The store after a write to an order that the store served. *)
Definition write_order (id : Z) (data : OrderUpdate) (t : Z) (s : Store) : Store :=
  snd (order_update id data t s).

(** Events that write to no order but those of [ids]. *)
Definition writes_within (ids : list Z) (e : Event) : Prop :=
  match e with
  | EvStore (OrderUpdateOp id _) => In id ids
  | _ => True
  end.

(** The orders other than those of [ids] are kept as they are. *)
Definition keeps_others (ids : list Z) (s s' : Store) : Prop :=
  forall o, ~ In (ord_id o) ids -> In o (orders s) -> In o (orders s').

(** The statuses written to the order [id] by the events, in order. *)
Fixpoint status_writes (id : Z) (evs : list Event) : list IdexSyncOrderStatus :=
  match evs with
  | [] => []
  | EvStore (OrderUpdateOp id' data) :: rest =>
      if id' =? id then upd_status data :: status_writes id rest
      else status_writes id rest
  | _ :: rest => status_writes id rest
  end.

(** The query [determineCabinetsToSync] makes for an order, and what it
    resolves the order to in a store. *)
Definition cabinet_query (order : IdexSyncOrder) : StoreOp :=
  match ord_cabinetId order with
  | Some cabinetId => if cabinetId =? 0 then CabinetFindMany else CabinetFindUnique cabinetId
  | None => CabinetFindMany
  end.

Definition all_cabinets (s : Store) : Outcome (list IdexCabinet) :=
  match cabinets s with
  | [] => Thrown (Error "В базе данных не найдено кабинетов")
  | l => Ok l
  end.

Definition cabinets_to_sync (order : IdexSyncOrder) (s : Store) : Outcome (list IdexCabinet) :=
  match ord_cabinetId order with
  | Some cabinetId =>
      if cabinetId =? 0 then all_cabinets s
      else match find (fun c => cab_id c =? cabinetId) (cabinets s) with
           | Some c => Ok [c]
           | None => Thrown (Error ("Кабинет с ID " ++ decimal cabinetId ++ " не найден"))
           end
  | None => all_cabinets s
  end.


(** The remote answers every login of the cabinet with status 401, as a
    response or as the response of a thrown axios error. *)
Definition refuses (remote : list Event -> Request -> HttpOutcome) (c : IdexCabinet) : Prop :=
  forall tr,
    match remote tr (PostLogin (cab_login c) (cab_password c)) with
    | Resolved r => status r = 401
    | Rejected e => exists r, response e = Some r /\ status r = 401
    end.

Section Aggregation.

Variable remote : list Event -> Request -> HttpOutcome.
Variable now : list Event -> Z.
Variable BigInt_of_string : string -> option Z.
Variable Date_parse : string -> option Z.
Variable toISOString : Z -> string.
Variable order : IdexSyncOrder.

(** [synced i cabinets w entries w']: starting in [w] with the cabinet at
    position [i], every cabinet is processed in turn, from the world the
    one before left; a cabinet whose processing returns contributes what
    it returned, a cabinet whose processing throws contributes an error
    entry with the message, and the next cabinet is processed either
    way. *)
Inductive synced : Z -> list IdexCabinet -> World -> list ProcessedEntry -> World -> Prop :=
| synced_none i w : synced i [] w [] w
| synced_done i c rest w n m w1 entries w2 :
    sync_cabinet remote now BigInt_of_string Date_parse toISOString order i c w =
    (Ok (CabinetSynced (cab_id c) n m), w1) ->
    synced (i + 1) rest w1 entries w2 ->
    synced i (c :: rest) w (CabinetSynced (cab_id c) n m :: entries) w2
| synced_failed i c rest w e w1 entries w2 :
    sync_cabinet remote now BigInt_of_string Date_parse toISOString order i c w =
    (Thrown e, w1) ->
    synced (i + 1) rest w1 entries w2 ->
    synced i (c :: rest) w (CabinetFailed (cab_id c) (message e) :: entries) w2.

End Aggregation.

(** The events of a run of the loop of [fetchTransactions] over empty
    pages: one request per page, after a wait of [BASE_DELAY] for every
    page but the first. *)
Fixpoint empty_pages (cookies : list Cookie) (turns : nat) (page : Z) : list Event :=
  match turns with
  | O => []
  | S turns' =>
      ((if 1 <? page then [EvTimer (millis BASE_DELAY)] else []) ++
       EvRequest (GetPayouts (cookie_header cookies) page) ::
       empty_pages cookies turns' (page + 1))%list
  end.

(** The names of the cookies [login] keeps from its [Set-Cookie] headers. *)
Definition session_names (cookies : list string) : list string :=
  filter (fun nm => String.eqb nm "sid" || String.eqb nm "rsid")
         (map (fun c => fst (cookie_name_value c)) cookies).

Definition is_request (e : Event) : bool :=
  match e with EvRequest _ => true | _ => false end.

(** The number of HTTP calls of a history. *)
Definition count_requests (tr : list Event) : nat :=
  List.length (filter is_request tr).

(** The requests of a history, in order. *)
Fixpoint requests_of (tr : list Event) : list Request :=
  match tr with
  | [] => []
  | EvRequest rq :: rest => rq :: requests_of rest
  | _ :: rest => requests_of rest
  end.

(** An HTTP call answered with status 429, as a response or as the
    response of a thrown axios error. *)
Definition answers_429 (o : HttpOutcome) : bool :=
  match o with
  | Resolved r => status r =? 429
  | Rejected e => response_is_429 e
  end.

(** ** Scenarios *)

(** A store that rejects no call. *)
Definition healthy (tr : list Event) (op : StoreOp) : option JsError := None.

Definition empty_store : Store :=
  {| orders := []; cabinets := []; transactions := []; failure := healthy |}.

Definition empty_world : World := {| store := empty_store; trace := [] |}.

(** The error of a store whose server cannot be reached. *)
Definition database_down : JsError :=
  PrismaError "P1001" "Can't reach database server at `db`:`5432`".

(** A store operation that always fails with it. *)
Definition unreachable_store : M (list IdexCabinet) :=
  store_call CabinetFindMany (fun s => (inl database_down, s)).

Definition no_body : Body := {| body_data := None; body_payouts_data := None |}.

Definition status_only (st : Z) : Response :=
  {| status := st;
     headers := {| set_cookie := None; retry_after := None |};
     body := Document no_body |}.

(** The error axios throws for a response outside 2xx. *)
Definition axios_error (st : Z) : JsError :=
  {| message := "Request failed with status code " ++ decimal st;
     code := Some "ERR_BAD_REQUEST";
     response := Some (status_only st) |}.

Definition set_cookies (l : list string) : Response :=
  {| status := 200;
     headers := {| set_cookie := Some l; retry_after := None |};
     body := Document no_body |}.

(** A remote that answers 429 to the first five calls and then accepts
    the login. *)
Definition limited_five_times (tr : list Event) (rq : Request) : HttpOutcome :=
  if Nat.ltb (count_requests tr) 5 then Rejected (axios_error 429)
  else Resolved (set_cookies ["sid=abc; Path=/; HttpOnly"; "rsid=def; Path=/"]).

(** A remote that always answers 429. *)
Definition always_limited (tr : list Event) (rq : Request) : HttpOutcome :=
  Rejected (axios_error 429).

(** A remote whose login response sets the cookie [sid] twice and no
    [rsid]. *)
Definition sid_twice (tr : list Event) (rq : Request) : HttpOutcome :=
  Resolved (set_cookies ["sid=old; Max-Age=0"; "sid=abc; Path=/"]).

Definition epoch (tr : list Event) : Z := 0.

Definition user : string * string := ("user", "secret").

Definition record (n : Z) : Transaction :=
  {| tx_id := ofNumber n;
     tx_payment_method_id := ofNumber 7;
     tx_wallet := "4100 0000 0000 0000";
     tx_amount := "1000.00";
     tx_total := "1010.00";
     tx_status := 7;
     tx_approved_at := None;
     tx_expired_at := None;
     tx_created_at := "2025-01-01T10:00:00.000000Z";
     tx_updated_at := "2025-01-01T10:05:00.000000Z";
     tx_extra := [] |}.

Definition page_of (l : list Transaction) : HttpOutcome :=
  Resolved {| status := 200;
              headers := {| set_cookie := None; retry_after := None |};
              body := Document {| body_data := Some l; body_payouts_data := None |} |}.

Definition session_of (tr : list Event) : HttpOutcome :=
  Resolved (set_cookies ["sid=abc; Path=/; HttpOnly"; "rsid=def; Path=/"]).

(** A feed whose page 2 is empty between two pages with a record. *)
Definition feed_with_gap (tr : list Event) (rq : Request) : HttpOutcome :=
  match rq with
  | PostLogin _ _ => session_of tr
  | GetPayouts _ 1 => page_of [record 1]
  | GetPayouts _ 3 => page_of [record 3]
  | GetPayouts _ _ => page_of []
  end.

(** A feed with record 5 on page 1 and record 6 on page 2. *)
Definition feed_5_6 (tr : list Event) (rq : Request) : HttpOutcome :=
  match rq with
  | PostLogin _ _ => session_of tr
  | GetPayouts _ 1 => page_of [record 5]
  | GetPayouts _ 2 => page_of [record 6]
  | GetPayouts _ _ => page_of []
  end.

(** A feed with record 6 on page 1, record 5 on page 2 and record 7 on
    page 3. *)
Definition feed_6_5_7 (tr : list Event) (rq : Request) : HttpOutcome :=
  match rq with
  | PostLogin _ _ => session_of tr
  | GetPayouts _ 1 => page_of [record 6]
  | GetPayouts _ 2 => page_of [record 5]
  | GetPayouts _ 3 => page_of [record 7]
  | GetPayouts _ _ => page_of []
  end.

Definition the_session : list Cookie :=
  [session_cookie "sid" "abc" 0; session_cookie "rsid" "def" 0].

Definition cabinet (id : Z) (lg : string) : IdexCabinet :=
  {| cab_id := id; cab_createdAt := 0; cab_updatedAt := 0; cab_idexId := id;
     cab_login := lg; cab_password := "secret" |}.

(** The row of [record n] persisted for a cabinet. *)
Definition row_of (id n cabinetId : Z) : IdexTransaction :=
  {| row_id := id; row_externalId := n; row_paymentMethodId := 7;
     row_wallet := tx_wallet (record n);
     row_amount := tx_amount (record n);
     row_total := tx_total (record n);
     row_status := 7;
     row_approvedAt := None; row_expiredAt := None;
     row_createdAtExternal := tx_created_at (record n);
     row_updatedAtExternal := tx_updated_at (record n);
     row_extraData := [];
     row_cabinetId := cabinetId; row_createdAt := 0; row_updatedAt := 0 |}.

(** Two cabinets; record 5 is persisted for the first one. *)
Definition store_with_5 : Store :=
  {| orders := [];
     cabinets := [cabinet 1 "first"; cabinet 2 "second"];
     transactions := [row_of 1 5 1];
     failure := healthy |}.

Definition world_with_5 : World := {| store := store_with_5; trace := [] |}.

(** The error of a call that the store rejects for another reason than
    an unreachable server. *)
Definition connection_lost : JsError :=
  PrismaError "P1017" "Server has closed the connection.".

(** The same store, with a connection that rejects every call. *)
Definition lossy_store : Store :=
  {| orders := orders store_with_5;
     cabinets := cabinets store_with_5;
     transactions := transactions store_with_5;
     failure := fun _ _ => Some connection_lost |}.

(** A runtime in which no string converts to a BigInt or to a date; the
    scenarios use Number ids and no timestamps. *)
Definition no_bigint (s : string) : option Z := None.
Definition no_date (s : string) : option Z := None.
Definition iso (t : Z) : string := EmptyString.

Definition order_row (id : Z) (cabinetId : option Z) (st : IdexSyncOrderStatus)
           (pages : list Z) : IdexSyncOrder :=
  {| ord_id := id; ord_createdAt := 0; ord_updatedAt := 0;
     ord_cabinetId := cabinetId; ord_processed := None; ord_status := st;
     ord_startSyncAt := None; ord_endSyncAt := None; ord_pages := pages |}.

(** Two cabinets, and three orders: one pending for all cabinets, one
    completed, one pending for the second cabinet. *)
Definition store_with_orders : Store :=
  {| orders := [order_row 1 None PENDING [2];
                order_row 2 None COMPLETED [2];
                order_row 3 (Some 2) PENDING [1]];
     cabinets := [cabinet 1 "first"; cabinet 2 "second"];
     transactions := [row_of 1 5 1];
     failure := healthy |}.

Definition world_with_orders : World := {| store := store_with_orders; trace := [] |}.

(** A store with one pending order for all cabinets, and no cabinet. *)
Definition store_without_cabinets : Store :=
  {| orders := [order_row 1 None PENDING [2]];
     cabinets := []; transactions := []; failure := healthy |}.

Definition world_without_cabinets : World :=
  {| store := store_without_cabinets; trace := [] |}.

(** The same store, with a connection that is lost whenever an order is
    claimed: it rejects the writes of the status IN_PROGRESS. *)
Definition claims_rejected : Store :=
  {| orders := orders store_with_orders;
     cabinets := cabinets store_with_orders;
     transactions := transactions store_with_orders;
     failure := fun _ op =>
       match op with
       | OrderUpdateOp _ data =>
           if status_eqb (upd_status data) IN_PROGRESS then Some connection_lost else None
       | _ => None
       end |}.


(** The same store, rejecting every write to an order. *)
Definition writes_rejected : Store :=
  {| orders := orders store_with_orders;
     cabinets := cabinets store_with_orders;
     transactions := transactions store_with_orders;
     failure := fun _ op =>
       match op with
       | OrderUpdateOp _ _ => Some connection_lost
       | _ => None
       end |}.

(** [record n] with another id. *)
Definition with_id (v : StringOrNumber) (t : Transaction) : Transaction :=
  {| tx_id := v;
     tx_payment_method_id := tx_payment_method_id t;
     tx_wallet := tx_wallet t;
     tx_amount := tx_amount t;
     tx_total := tx_total t;
     tx_status := tx_status t;
     tx_approved_at := tx_approved_at t;
     tx_expired_at := tx_expired_at t;
     tx_created_at := tx_created_at t;
     tx_updated_at := tx_updated_at t;
     tx_extra := tx_extra t |}.

(** A feed whose page 1 holds record 5, with its id as the String [5],
    and record 6. *)
Definition feed_with_string_id (tr : list Event) (rq : Request) : HttpOutcome :=
  match rq with
  | PostLogin _ _ => session_of tr
  | GetPayouts _ 1 => page_of [with_id (ofString "5") (record 5); record 6]
  | GetPayouts _ _ => page_of []
  end.

(** A remote that refuses the login of the first cabinet with status
    401 and serves the second cabinet the feed of records 5 and 6. *)
Definition first_refused (tr : list Event) (rq : Request) : HttpOutcome :=
  match rq with
  | PostLogin lg _ => if String.eqb lg "first" then Rejected (axios_error 401)
                      else session_of tr
  | _ => feed_5_6 tr rq
  end.

(** A runtime in which the string [05] converts to the BigInt 5. *)
Definition leading_zero (s : string) : option Z :=
  if String.eqb s "05" then Some 5 else None.

(** ** Statements read off the specification *)

(** [fails_unreachable fn delays w wk]: started in [w], [fn] fails with the
    unreachable condition once for each delay of [delays], each failure
    being followed by a timer of that delay; [wk] is the world after the
    last timer. *)
Fixpoint fails_unreachable {A} (fn : M A) (delays : list Q) (w wk : World) : Prop :=
  match delays with
  | [] => wk = w
  | d :: rest =>
      exists e w1, fn w = (Thrown e, w1) /\ unreachable e = true /\
                   fails_unreachable fn rest (log (EvTimer (Some d)) w1) wk
  end.

(** An outcome that [withRetry] hands on whatever retries it has left. *)
Definition not_retried {A} (r : Outcome A) : Prop :=
  match r with
  | Thrown e => unreachable e = false
  | _ => True
  end.

Section Persisting.

Variable BigInt_of_string : string -> option Z.
Variable Date_parse : string -> option Z.
Variable toISOString : Z -> string.

(** The value of [BigInt(v)], when it does not throw. *)
Definition bigint_of (v : StringOrNumber) : option Z :=
  match v with
  | ofNumber n => Some n
  | ofString s => BigInt_of_string s
  end.

(** The external id under which a record is persisted. *)
Definition external_id (t : Transaction) : option Z := bigint_of (tx_id t).

(** A timestamp shifted by three hours, when it can be. *)
Definition stamp_of (stamp : option string) : option (option string) :=
  match stamp with
  | None | Some EmptyString => Some None
  | Some s => option_map (fun t => Some (toISOString (t + 3 * 60 * 60 * 1000))) (Date_parse s)
  end.

(** The columns of a record for a cabinet, when all conversions succeed. *)
Definition create_data (t : Transaction) (cabinetId : Z) : option TransactionCreate :=
  match bigint_of (tx_id t), bigint_of (tx_payment_method_id t),
        stamp_of (tx_approved_at t), stamp_of (tx_expired_at t) with
  | Some externalId, Some paymentMethodId, Some approvedAt, Some expiredAt =>
      Some {| new_externalId := externalId;
              new_paymentMethodId := paymentMethodId;
              new_wallet := tx_wallet t;
              new_amount := tx_amount t;
              new_total := tx_total t;
              new_status := tx_status t;
              new_approvedAt := approvedAt;
              new_expiredAt := expiredAt;
              new_createdAtExternal := tx_created_at t;
              new_updatedAtExternal := tx_updated_at t;
              new_extraData := tx_extra t;
              new_cabinetId := cabinetId |}
  | _, _, _, _ => None
  end.


(** The pair (externalId, cabinetId) of a record is in the store. *)
Definition already_persisted (cabinetId : Z) (rows : list IdexTransaction)
           (t : Transaction) : bool :=
  match external_id t with
  | Some n => pair_present n cabinetId rows
  | None => false
  end.


End Persisting.

(** The key of the unique index of [IdexTransaction]. *)
Definition row_pair (r : IdexTransaction) : Z * Z := (row_externalId r, row_cabinetId r).

(** ** Vocabulary of the further properties *)

(** The number that decimal digits read as, after the digits read so far. *)
Fixpoint uint_value (d : Decimal.uint) (acc : Z) : Z :=
  match d with
  | Decimal.Nil => acc
  | Decimal.D0 d => uint_value d (acc * 10 + 0)
  | Decimal.D1 d => uint_value d (acc * 10 + 1)
  | Decimal.D2 d => uint_value d (acc * 10 + 2)
  | Decimal.D3 d => uint_value d (acc * 10 + 3)
  | Decimal.D4 d => uint_value d (acc * 10 + 4)
  | Decimal.D5 d => uint_value d (acc * 10 + 5)
  | Decimal.D6 d => uint_value d (acc * 10 + 6)
  | Decimal.D7 d => uint_value d (acc * 10 + 7)
  | Decimal.D8 d => uint_value d (acc * 10 + 8)
  | Decimal.D9 d => uint_value d (acc * 10 + 9)
  end.

(** The character occurs in the string. *)
Fixpoint has_char (c : ascii) (s : string) : bool :=
  match s with
  | EmptyString => false
  | String c' rest => Ascii.eqb c' c || has_char c rest
  end.

(** The events of the rounds of a retried call: the call, each time
    followed by a wait. *)
Definition rounds (e : Event) (waits : list (option Q)) : list Event :=
  List.concat (map (fun ms => [e; EvTimer ms]) waits).

(** The [Retry-After] header of the answer to an HTTP call, where the
    handling of a 429 looks for it. *)
Definition retry_header (o : HttpOutcome) : option string :=
  match o with
  | Resolved r => retry_after (headers r)
  | Rejected e => error_retry_after e
  end.

(** The values of [delay] over [k] turns of a rate-limited loop. *)
Fixpoint doubling (delay : Z) (k : nat) : list Z :=
  match k with
  | O => []
  | S k' => delay :: doubling (delay * 2) k'
  end.

(** The wait after a 429, [parseInt(header || String(delay))]: what
    [parseInt] reads in the [Retry-After] header when there is one that is
    not empty, and the current delay otherwise. *)
Definition wait_after (header : option string) (delay : Z) : option Q :=
  match header with
  | Some (String c s) => delay_of (parseInt (String c s))
  | _ => millis delay
  end.

(** The values of [delay] over [k] retries of [withRetry]. *)
Fixpoint growing (delay : Q) (k : nat) : list Q :=
  match k with
  | O => []
  | S k' => delay :: growing (Qred (delay * (3 # 2))) k'
  end.

(** Two answers that are the same, or are both a 429 with the same
    [Retry-After] header, one as a response and one as the response of a
    thrown error. *)
Definition same_signal (a b : HttpOutcome) : Prop :=
  a = b \/
  (answers_429 a = true /\ answers_429 b = true /\ retry_header a = retry_header b).

Definition is_store_op (e : Event) : bool :=
  match e with EvStore _ => true | _ => false end.

(** The number of store operations of a history. *)
Definition count_store_ops (tr : list Event) : nat :=
  List.length (filter is_store_op tr).

(** What [fetchTransactionsPage] makes of the body of a response of
    status 200. *)
Definition records_in (p : Payload) : Outcome (list Transaction) :=
  match p with
  | Null => Thrown (TypeError "Cannot read properties of null (reading 'data')")
  | Undefined => Thrown (TypeError "Cannot read properties of undefined (reading 'data')")
  | Document json =>
      match body_data json, body_payouts_data json with
      | Some data, _ => Ok data
      | None, Some data => Ok data
      | None, None => Thrown (Error "Неожиданная структура ответа")
      end
  end.

(** The records a page request is answered with: those of a response of
    status 200 whose body has one of the two shapes; any other answer
    serves none. *)
Definition served (o : HttpOutcome) : list Transaction :=
  match o with
  | Resolved r =>
      if status r =? 200 then
        match body r with
        | Document json =>
            match body_data json, body_payouts_data json with
            | Some data, _ => data
            | None, Some data => data
            | None, None => []
            end
        | _ => []
        end
      else []
  | Rejected _ => []
  end.

(** An id the store takes for the column [externalId] whatever the
    notation the client allows for Strings: a Number within the range of
    the column, or the decimal form of one as a String. *)
Definition plain_id (v : StringOrNumber) : Prop :=
  exists n, in_int64 n = true /\ (v = ofNumber n \/ v = ofString (decimal n)).

(** The page numbers of [turns] turns of the loop of [fetchTransactions]
    from [page] on. *)
Fixpoint pages_from (page : Z) (turns : nat) : list Z :=
  match turns with
  | O => []
  | S turns' => page :: pages_from (page + 1) turns'
  end.

(** What an order asks for: its id, its cabinet and its page counts. *)
Definition order_request (o : IdexSyncOrder) : Z * option Z * list Z :=
  (ord_id o, ord_cabinetId o, ord_pages o).

(** The relation of the schema between a transaction and its cabinet:
    every row belongs to a cabinet of the store. *)
Definition foreign_keys_hold (s : Store) : Prop :=
  forall r, In r (transactions s) ->
            existsb (fun c => cab_id c =? row_cabinetId r) (cabinets s) = true.

(** [store_grows s s']: from [s] to [s'] no order was created or deleted
    and none asks for something else, the cabinets are the same, the
    transactions of [s] are all there, unchanged and followed by new
    ones, and the unique index and the relation to the cabinets hold in
    [s'] if they held in [s]. *)
Definition store_grows (s s' : Store) : Prop :=
  map order_request (orders s') = map order_request (orders s) /\
  cabinets s' = cabinets s /\
  (exists added, transactions s' = (transactions s ++ added)%list) /\
  (NoDup (map row_pair (transactions s)) -> NoDup (map row_pair (transactions s'))) /\
  (foreign_keys_hold s -> foreign_keys_hold s').

(** The requests of the synchronisation of a cabinet with [N] pages: the
    login with the credentials of the cabinet, and pages 1 to [N]. *)
Definition cabinet_request (c : IdexCabinet) (N : Z) (rq : Request) : Prop :=
  match rq with
  | PostLogin lg pw => lg = cab_login c /\ pw = cab_password c
  | GetPayouts _ page => 1 <= page <= N
  end.

(** Events of the synchronisation of a cabinet: requests in [allowed],
    timers, and operations on the transactions. *)
Definition sync_event (allowed : Request -> Prop) (e : Event) : Prop :=
  match e with
  | EvRequest rq => allowed rq
  | EvTimer _ => True
  | EvStore (TransactionFindManyIn _) => True
  | EvStore (TransactionFindManyOfCabinet _) => True
  | EvStore (TransactionCreateOp _) => True
  | EvStore _ => False
  end.

(** A cookie as [login] makes them: named [sid] or [rsid], with the fixed
    attributes of the session cookies. *)
Definition session_cookie_shape (c : Cookie) : Prop :=
  (name c = "sid" \/ name c = "rsid") /\
  domain c = ".panel.gate.cx" /\ path c = "/" /\
  hostOnly c = false /\ httpOnly c = true /\ secure c = true /\ session c = false.


(** ** Scenarios of the further properties *)

(** A remote whose login response sets session values that contain [=]. *)
Definition session_with_padding (tr : list Event) (rq : Request) : HttpOutcome :=
  Resolved (set_cookies ["sid=dG9rZW4=; Path=/; HttpOnly"; "rsid=cmVmcmVzaA==; Path=/"]).

(** A feed that answers in the nested shape
    [{response: {payouts: {data: [...]}}}]. *)
Definition nested_feed (tr : list Event) (rq : Request) : HttpOutcome :=
  Resolved {| status := 200;
              headers := {| set_cookie := None; retry_after := None |};
              body := Document {| body_data := None; body_payouts_data := Some [record 1] |} |}.

(** A feed whose responses have the body [null]. *)
Definition null_feed (tr : list Event) (rq : Request) : HttpOutcome :=
  Resolved {| status := 200;
              headers := {| set_cookie := None; retry_after := None |};
              body := Null |}.

(** A remote that always answers with a response of status 429. *)
Definition limited_by_response (tr : list Event) (rq : Request) : HttpOutcome :=
  Resolved (status_only 429).

(** A remote that answers its first two calls with status 429 and the
    header [Retry-After: 30], and then serves an empty page. *)
Definition retry_after_30 (tr : list Event) (rq : Request) : HttpOutcome :=
  if Nat.ltb (count_requests tr) 2
  then Resolved {| status := 429;
                   headers := {| set_cookie := None; retry_after := Some "30" |};
                   body := Document no_body |}
  else page_of [].

(** A store whose orders are all settled. *)
Definition settled_world : World :=
  {| store := {| orders := [order_row 1 None COMPLETED [2]; order_row 2 (Some 1) FAILED []];
                 cabinets := [cabinet 1 "first"];
                 transactions := [];
                 failure := healthy |};
     trace := [] |}.

(** * Properties *)

(** ** [determinePages] *)

(** C5: for a page-count list of length L >= 1 and a cabinet index i >= 0
    the assigned page count is the element at index min(i, L-1); for an
    empty or absent list it is the default 10. *)
Theorem determinePages_clamps (pages : list Z) (i : Z) :
  0 <= i ->
  (pages = [] -> determinePages (Some pages) i = Some 10) /\
  determinePages None i = Some 10 /\
  ((1 <= List.length pages)%nat ->
   exists n,
     nth_error pages (Z.to_nat (Z.min i (Z.of_nat (List.length pages) - 1))) = Some n /\
     determinePages (Some pages) i = Some n).
Proof.
  intros Hi. split; [| split].
  - intros ->. reflexivity.
  - reflexivity.
  - intros HL.
    assert (Hin : (Z.to_nat (Z.min i (Z.of_nat (List.length pages) - 1))
                   < List.length pages)%nat) by lia.
    destruct (nth_error pages (Z.to_nat (Z.min i (Z.of_nat (List.length pages) - 1))))
      as [n|] eqn:E.
    + exists n. split; [reflexivity|].
      unfold determinePages.
      destruct pages as [|p [|q rest]]; simpl List.length in *; [lia | |].
      * simpl in E. replace (Z.to_nat (Z.min i 0)) with 0%nat in E by lia.
        exact E.
      * cbn [Nat.eqb]. unfold array_get.
        destruct (Z.ltb_spec (Z.min i (Z.of_nat (S (S (List.length rest))) - 1)) 0); [lia|].
        exact E.
    + apply nth_error_None in E. lia.
Qed.

Lemma determinePages_clamps_witness :
  0 <= 7 /\ determinePages (Some [3; 5; 8]) 7 = Some 8.
Proof.
  split; [lia|].
  destruct (determinePages_clamps [3; 5; 8] 7) as (_ & _ & H); [lia|].
  destruct H as (n & Hn & ->); [simpl; lia|].
  simpl in Hn. congruence.
Defined.

(** ** [withRetry] *)

Section Retry.

Context {A : Type}.
Variable fn : M A.

Lemma withRetry_ok retries delay w a w1 :
  fn w = (Ok a, w1) -> withRetry fn retries delay w = (Ok a, w1).
Proof.
  intros H. destruct retries; simpl; unfold try_catch; rewrite H; reflexivity.
Qed.

Lemma withRetry_other retries delay w e w1 :
  fn w = (Thrown e, w1) -> unreachable e = false ->
  withRetry fn retries delay w = (Thrown e, w1).
Proof.
  intros H He. destruct retries; simpl; unfold try_catch; rewrite H; [reflexivity|].
  rewrite He. reflexivity.
Qed.

Lemma withRetry_spent delay w : withRetry fn 0 delay w = fn w.
Proof.
  simpl. unfold try_catch. destruct (fn w) as [[a|e|] w1]; reflexivity.
Qed.

Lemma withRetry_again retries delay w e w1 :
  fn w = (Thrown e, w1) -> unreachable e = true ->
  withRetry fn (S retries) delay w =
  withRetry fn retries (Qred (delay * (3 # 2))) (log (EvTimer (Some delay)) w1).
Proof.
  intros H He. simpl. unfold try_catch at 1. rewrite H, He. reflexivity.
Qed.

Lemma withRetry_not_retried retries delay w r w1 :
  fn w = (r, w1) -> not_retried r -> withRetry fn retries delay w = (r, w1).
Proof.
  intros H Hr. destruct r as [a|e|].
  - now apply withRetry_ok.
  - now apply withRetry_other.
  - destruct retries; simpl; unfold try_catch; rewrite H; reflexivity.
Qed.

End Retry.

(** A store operation that the store serves. *)
Lemma store_call_served {A} op (run : Store -> (JsError + A) * Store) w :
  failure (store w) (trace w) op = None ->
  store_call op run w =
  (match fst (run (store w)) with inr a => Ok a | inl e => Thrown e end,
   with_store (snd (run (store w))) (log (EvStore op) w)).
Proof.
  intros H. unfold store_call. rewrite H. cbn [log store].
  destruct (run (store w)) as [[e|a] s]; reflexivity.
Qed.

(** A store operation that the store rejects. *)
Lemma store_call_rejected {A} op (run : Store -> (JsError + A) * Store) w e :
  failure (store w) (trace w) op = Some e ->
  store_call op run w = (Thrown e, log (EvStore op) w).
Proof. intros H. unfold store_call. now rewrite H. Qed.

(** A store operation that succeeds goes through [withRetry] untouched. *)
Lemma withRetry_store_call_ok {A} op (run : Store -> (JsError + A) * Store) w a s :
  failure (store w) (trace w) op = None ->
  run (store w) = (inr a, s) ->
  withRetry_default (store_call op run) w = (Ok a, with_store s (log (EvStore op) w)).
Proof.
  intros Hs H. apply withRetry_ok. rewrite store_call_served by assumption.
  now rewrite H.
Qed.

(** C8: an operation run through [withRetry] with the default arguments
    is tried again after each failure with the unreachable condition,
    after delays of 2000, 3000 and 4500 ms, at most 3 times; the outcome
    of the fourth attempt is handed on whatever it is, and an outcome that
    is not the unreachable condition is handed on at once, with no timer
    and no further attempt. *)
Theorem withRetry_backoff {A} (fn : M A) (k : nat) (w0 wk : World) r w' :
  (k <= 3)%nat ->
  fails_unreachable fn (firstn k [2000; 3000; 4500]%Q) w0 wk ->
  fn wk = (r, w') ->
  k = 3%nat \/ not_retried r ->
  withRetry_default fn w0 = (r, w').
Proof.
  intros Hk Hfail Hlast Hend. unfold withRetry_default.
  destruct k as [|[|[|[|k]]]]; try lia; simpl in Hfail.
  - subst wk. destruct Hend as [|Hend]; [discriminate|].
    now apply withRetry_not_retried.
  - destruct Hfail as (e1 & w1 & H1 & U1 & ->).
    rewrite (withRetry_again _ _ _ _ _ _ H1 U1).
    destruct Hend as [|Hend]; [discriminate|].
    now apply withRetry_not_retried.
  - destruct Hfail as (e1 & w1 & H1 & U1 & e2 & w2 & H2 & U2 & ->).
    rewrite (withRetry_again _ _ _ _ _ _ H1 U1).
    rewrite (withRetry_again _ _ _ _ _ _ H2 U2).
    destruct Hend as [|Hend]; [discriminate|].
    now apply withRetry_not_retried.
  - destruct Hfail as (e1 & w1 & H1 & U1 & e2 & w2 & H2 & U2 & e3 & w3 & H3 & U3 & ->).
    rewrite (withRetry_again _ _ _ _ _ _ H1 U1).
    rewrite (withRetry_again _ _ _ _ _ _ H2 U2).
    rewrite (withRetry_again _ _ _ _ _ _ H3 U3).
    rewrite withRetry_spent. exact Hlast.
Qed.

Lemma withRetry_backoff_witness :
  withRetry_default unreachable_store empty_world =
  (Thrown database_down,
   {| store := empty_store;
      trace := [EvStore CabinetFindMany; EvTimer (Some 2000%Q);
                EvStore CabinetFindMany; EvTimer (Some 3000%Q);
                EvStore CabinetFindMany; EvTimer (Some 4500%Q);
                EvStore CabinetFindMany] |}).
Proof.
  eapply (withRetry_backoff unreachable_store 3).
  - lia.
  - simpl. repeat (do 2 eexists; split; [reflexivity | split; [reflexivity|]]).
    reflexivity.
  - reflexivity.
  - left. reflexivity.
Defined.

(** ** The rate-limited loops *)

Lemma log_extend e w : log e w = extend w [e].
Proof. reflexivity. Qed.

Lemma extend_extend w a b : extend (extend w a) b = extend w (a ++ b).
Proof. unfold extend. simpl. now rewrite app_assoc. Qed.

Lemma extend_nil w : extend w [] = w.
Proof. destruct w. unfold extend. simpl. now rewrite app_nil_r. Qed.

Lemma count_requests_app a b :
  count_requests (a ++ b) = (count_requests a + count_requests b)%nat.
Proof. unfold count_requests. now rewrite filter_app, length_app. Qed.

Lemma requests_of_app a b : requests_of (a ++ b) = (requests_of a ++ requests_of b)%list.
Proof.
  induction a as [|[rq|ms|op] a IH]; simpl; [reflexivity| |assumption|assumption].
  now rewrite IH.
Qed.

Lemma on_429_continue {A} header retryCount delay w :
  retryCount < MAX_RETRIES ->
  @on_429 A header retryCount delay w =
  (Ok (Continue (retryCount + 1) (delay * 2)),
   extend w [EvTimer (delay_of (retryAfter_of header delay))]).
Proof.
  intros H. unfold on_429.
  destruct (Z.leb_spec MAX_RETRIES retryCount); [lia|]. reflexivity.
Qed.

Lemma on_429_give_up {A} header retryCount delay w :
  MAX_RETRIES <= retryCount ->
  @on_429 A header retryCount delay w = (Thrown too_many_requests, w).
Proof.
  intros H. unfold on_429.
  destruct (Z.leb_spec MAX_RETRIES retryCount); [reflexivity|lia].
Qed.

Section Login.

Variable remote : list Event -> Request -> HttpOutcome.
Variable now : list Event -> Z.
Variable credentials : string * string.

Let rq := PostLogin (fst credentials) (snd credentials).
Let turn retryCount delay :=
  try_catch (login_try remote now credentials retryCount delay)
            (rate_limit_catch retryCount delay).

(** The cookies [login] returns for the [Set-Cookie] headers [l]. *)
Lemma login_turn_200 retryCount delay w r :
  remote (trace w) rq = Resolved r -> status r = 200 ->
  turn retryCount delay w =
  (match set_cookie (headers r) with
   | None | Some [] => Thrown (Error "Не получены куки после авторизации")
   | Some l =>
       let result := collect_cookies l (now (trace w ++ [EvRequest rq])) [] in
       if Nat.ltb (List.length result) 2
       then Thrown (Error "Отсутствуют необходимые куки (sid и/или rsid)")
       else Ok (Return result)
   end, extend w [EvRequest rq]).
Proof.
  intros Hr Hs. unfold turn, try_catch, login_try, bind, axios. fold rq.
  rewrite Hr, Hs. simpl.
  destruct (set_cookie (headers r)) as [[|c l]|]; try reflexivity.
  cbn [List.length Nat.eqb]. unfold Date_now. cbn [log trace].
  destruct (Nat.ltb _ 2); reflexivity.
Qed.

Lemma login_turn_429 retryCount delay w :
  answers_429 (remote (trace w) rq) = true ->
  turn retryCount delay w =
  if MAX_RETRIES <=? retryCount
  then (Thrown too_many_requests, extend w [EvRequest rq])
  else (Ok (Continue (retryCount + 1) (delay * 2)),
        extend w [EvRequest rq;
                  EvTimer (delay_of
                             (retryAfter_of
                                match remote (trace w) rq with
                                | Resolved r => retry_after (headers r)
                                | Rejected e => error_retry_after e
                                end delay))]).
Proof.
  intros H. unfold turn, try_catch, login_try, bind, axios. fold rq.
  destruct (remote (trace w) rq) as [r|e]; simpl in H.
  - apply Z.eqb_eq in H. rewrite H. simpl.
    destruct (Z.leb_spec MAX_RETRIES retryCount).
    + rewrite on_429_give_up by assumption.
      unfold rate_limit_catch. reflexivity.
    + rewrite on_429_continue by assumption.
      rewrite log_extend, extend_extend. reflexivity.
  - unfold rate_limit_catch. rewrite H.
    destruct (Z.leb_spec MAX_RETRIES retryCount).
    + rewrite on_429_give_up by assumption. reflexivity.
    + rewrite on_429_continue by assumption.
      rewrite log_extend, extend_extend. reflexivity.
Qed.

(** A turn that does not meet a 429 ends the loop after its request. *)
Lemma login_turn_other retryCount delay w :
  answers_429 (remote (trace w) rq) = false ->
  exists r, turn retryCount delay w = (r, extend w [EvRequest rq]) /\
            r <> OutOfFuel /\ forall rc d, r <> Ok (Continue rc d).
Proof.
  intros H.
  destruct (remote (trace w) rq) as [r|e] eqn:Hr; simpl in H.
  - destruct (Z.eqb_spec (status r) 200) as [Hs|Hs].
    + rewrite (login_turn_200 retryCount delay w r Hr Hs). eexists. split; [reflexivity|].
      destruct (set_cookie (headers r)) as [[|c l]|]; try (split; [discriminate|intros; discriminate]).
      cbv zeta. destruct (Nat.ltb _ 2); split; try discriminate; intros; discriminate.
    + unfold turn, try_catch, login_try, bind, axios. fold rq. rewrite Hr.
      apply Z.eqb_neq in Hs. rewrite Hs, H. simpl.
      eexists. split; [reflexivity|]. split; [discriminate|intros; discriminate].
  - unfold turn, try_catch, login_try, bind, axios. fold rq. rewrite Hr.
    unfold rate_limit_catch. rewrite H.
    eexists. split; [reflexivity|]. split; [discriminate|intros; discriminate].
Qed.

(** The last turn allowed: with [retryCount >= MAX_RETRIES] the loop ends
    whatever the answer is. *)
Lemma login_turn_last retryCount delay w :
  MAX_RETRIES <= retryCount ->
  exists r, turn retryCount delay w = (r, extend w [EvRequest rq]) /\
            r <> OutOfFuel /\ (forall rc d, r <> Ok (Continue rc d)) /\
            (answers_429 (remote (trace w) rq) = true -> r = Thrown too_many_requests).
Proof.
  intros Hmax. destruct (answers_429 (remote (trace w) rq)) eqn:H.
  - rewrite (login_turn_429 retryCount delay w H).
    destruct (Z.leb_spec MAX_RETRIES retryCount); [|lia].
    eexists. split; [reflexivity|]. repeat split; try discriminate; intros; discriminate.
  - destruct (login_turn_other retryCount delay w H) as (r & Hr & Hf & Hc).
    exists r. repeat split; try assumption. discriminate.
Qed.

Lemma login_loop_unfold fuel retryCount delay w :
  login_loop remote now (S fuel) credentials retryCount delay w =
  match turn retryCount delay w with
  | (Ok (Return result), w1) => (Ok result, w1)
  | (Ok (Continue rc d), w1) => login_loop remote now fuel credentials rc d w1
  | (Thrown e, w1) => (Thrown e, w1)
  | (OutOfFuel, w1) => (OutOfFuel, w1)
  end.
Proof.
  simpl. unfold bind. fold (turn retryCount delay).
  destruct (turn retryCount delay w) as [[[result|rc d]|e|] w1]; reflexivity.
Qed.

(** [n] answers of 429 in a row, while retries are left, take [n] turns. *)
Lemma login_loop_limited n : forall fuel retryCount delay w,
  retryCount + Z.of_nat n <= MAX_RETRIES ->
  (forall evs, (count_requests evs < n)%nat ->
               answers_429 (remote (trace w ++ evs) rq) = true) ->
  exists evs delay',
    login_loop remote now (n + fuel) credentials retryCount delay w =
    login_loop remote now fuel credentials (retryCount + Z.of_nat n) delay' (extend w evs) /\
    requests_of evs = repeat rq n.
Proof.
  induction n as [|n IH]; intros fuel retryCount delay w Hrc H429.
  - exists [], delay. rewrite extend_nil, Z.add_0_r. split; reflexivity.
  - assert (H0 : answers_429 (remote (trace w) rq) = true).
    { rewrite <- (app_nil_r (trace w)). apply H429. unfold count_requests. simpl. lia. }
    cbn [Nat.add]. rewrite login_loop_unfold, (login_turn_429 retryCount delay w H0).
    destruct (Z.leb_spec MAX_RETRIES retryCount); [lia|].
    match goal with |- context [extend w ?l] => set (first := l) end.
    destruct (IH fuel (retryCount + 1) (delay * 2) (extend w first)) as (evs & d' & Heq & Hreq).
    + lia.
    + intros evs Hevs. cbn [extend trace]. rewrite <- app_assoc. apply H429.
      rewrite count_requests_app. unfold count_requests at 1. simpl. lia.
    + exists (first ++ evs)%list, d'. rewrite Heq, extend_extend.
      split.
      * f_equal. lia.
      * rewrite requests_of_app, Hreq. reflexivity.
Qed.

End Login.

(** C1 (amended): when the login endpoint answers 429 on 5 consecutive
    calls, [login] has used its 5 retries and makes a 6th call; nothing
    follows that call (no 7th call, no further wait), and when it is
    answered 429 too, [login] throws its rate-limit error. *)
Theorem login_gives_up_on_sixth_429 remote now credentials w :
  let rq := PostLogin (fst credentials) (snd credentials) in
  (forall evs, (count_requests evs < 5)%nat ->
               answers_429 (remote (trace w ++ evs)%list rq) = true) ->
  exists evs r,
    login remote now credentials w = (r, extend w (evs ++ [EvRequest rq])%list) /\
    requests_of evs = repeat rq 5 /\
    r <> OutOfFuel /\
    (answers_429 (remote (trace w ++ evs)%list rq) = true -> r = Thrown too_many_requests).
Proof.
  intros rq H429. unfold login.
  change loop_fuel with (5 + 1)%nat.
  destruct (login_loop_limited remote now credentials 5 1 0 BASE_DELAY w) as (evs & d & Heq & Hreq).
  - unfold MAX_RETRIES. lia.
  - exact H429.
  - exists evs. rewrite Heq, login_loop_unfold.
    destruct (login_turn_last remote now credentials (0 + Z.of_nat 5) d (extend w evs))
      as (r & Hr & Hfuel & Hcont & Hlast).
    + unfold MAX_RETRIES. lia.
    + rewrite Hr, extend_extend.
      destruct r as [[result|rc d']|e|].
      * exists (Ok result). split; [reflexivity|]. split; [assumption|].
        split; [discriminate|]. intros H. specialize (Hlast H). discriminate.
      * exfalso. now apply (Hcont rc d').
      * exists (Thrown e). split; [reflexivity|]. split; [assumption|].
        split; [discriminate|]. intros H. specialize (Hlast H).
        injection Hlast as ->. reflexivity.
      * now exfalso.
Qed.

Lemma login_gives_up_on_sixth_429_witness :
  exists evs,
    login always_limited epoch user empty_world =
    (Thrown too_many_requests,
     extend empty_world (evs ++ [EvRequest (PostLogin "user" "secret")])%list) /\
    requests_of evs = repeat (PostLogin "user" "secret") 5.
Proof.
  destruct (login_gives_up_on_sixth_429 always_limited epoch user empty_world)
    as (evs & r & Hrun & Hreq & _ & Hlast).
  - intros evs _. reflexivity.
  - exists evs. rewrite (Hlast eq_refl) in Hrun. split; assumption.
Defined.

(** C1 as stated fails: the endpoint answers 429 on the first 5 calls, yet
    [login] makes a 6th call, and returns the session that call yields. *)
Lemma login_makes_sixth_call :
  (forall evs, (count_requests evs < 5)%nat ->
     answers_429 (limited_five_times (trace empty_world ++ evs)%list
                                     (PostLogin "user" "secret")) = true) /\
  exists cookies w',
    login limited_five_times epoch user empty_world = (Ok cookies, w') /\
    requests_of (trace w') = repeat (PostLogin "user" "secret") 6.
Proof.
  split.
  - intros evs H. simpl. unfold limited_five_times.
    apply Nat.ltb_lt in H. rewrite H. reflexivity.
  - do 2 eexists. split; vm_compute; reflexivity.
Qed.

(** The cookies kept by the loop of [login]: those named [sid] or [rsid],
    in the order of the headers. *)
Lemma collect_cookies_filter cookies t : forall result,
  collect_cookies cookies t result =
  (result ++
   map (fun nv => session_cookie (fst nv) (snd nv) t)
       (filter (fun nv => String.eqb (fst nv) "sid" || String.eqb (fst nv) "rsid")
               (map cookie_name_value cookies)))%list.
Proof.
  induction cookies as [|c cookies IH]; intros result;
    cbn [collect_cookies map filter].
  - now rewrite app_nil_r.
  - destruct (cookie_name_value c) as [nm val]. cbn [fst snd].
    destruct (String.eqb nm "sid" || String.eqb nm "rsid").
    + rewrite IH, <- app_assoc. reflexivity.
    + apply IH.
Qed.

(** What [login] does with a first response of status 200: it fails when
    there is no [Set-Cookie] header or when fewer than two headers are
    named [sid] or [rsid], and else returns one cookie per such header. *)
Lemma login_on_200 remote now credentials w r :
  let rq := PostLogin (fst credentials) (snd credentials) in
  remote (trace w) rq = Resolved r -> status r = 200 ->
  login remote now credentials w =
  (match set_cookie (headers r) with
   | None | Some [] => Thrown (Error "Не получены куки после авторизации")
   | Some l =>
       let result := collect_cookies l (now (trace w ++ [EvRequest rq])%list) [] in
       if Nat.ltb (List.length result) 2
       then Thrown (Error "Отсутствуют необходимые куки (sid и/или rsid)")
       else Ok result
   end, extend w [EvRequest rq]).
Proof.
  intros rq Hr Hs. unfold login. change loop_fuel with 6%nat.
  rewrite login_loop_unfold, (login_turn_200 remote now credentials 0 BASE_DELAY w r Hr Hs).
  destruct (set_cookie (headers r)) as [[|c l]|]; try reflexivity.
  cbv zeta. destruct (Nat.ltb _ 2); reflexivity.
Qed.

Lemma collect_cookies_names cookies t :
  map name (collect_cookies cookies t []) = session_names cookies.
Proof.
  rewrite collect_cookies_filter. cbn [app]. unfold session_names.
  induction cookies as [|c cookies IH]; [reflexivity|].
  cbn [map filter]. destruct (cookie_name_value c) as [nm val]. cbn [fst snd].
  destruct (String.eqb nm "sid" || String.eqb nm "rsid"); [|exact IH].
  cbn [map name session_cookie fst]. now rewrite IH.
Qed.

(** When no required name is set twice, [login] does what is expected of
    it on a response of status 200: it returns a session, of exactly two
    cookies, when both [sid] and [rsid] are set, and throws otherwise. *)
Lemma login_on_200_distinct remote now credentials w r l :
  let rq := PostLogin (fst credentials) (snd credentials) in
  remote (trace w) rq = Resolved r -> status r = 200 ->
  set_cookie (headers r) = Some l ->
  NoDup (session_names l) ->
  (In "sid" (session_names l) /\ In "rsid" (session_names l) ->
   exists result,
     login remote now credentials w = (Ok result, extend w [EvRequest rq]) /\
     List.length result = 2%nat /\ map name result = session_names l) /\
  (~ (In "sid" (session_names l) /\ In "rsid" (session_names l)) ->
   exists e, login remote now credentials w = (Thrown e, extend w [EvRequest rq])).
Proof.
  intros rq Hr Hs Hl Hnodup.
  rewrite (login_on_200 remote now credentials w r Hr Hs), Hl. fold rq.
  set (t := now (trace w ++ [EvRequest rq])%list).
  assert (Hlen : List.length (collect_cookies l t []) = List.length (session_names l)).
  { now rewrite <- (collect_cookies_names l t), length_map. }
  assert (Hincl : incl (session_names l) ["sid"; "rsid"]).
  { intros nm Hnm. apply filter_In in Hnm as [_ Hnm].
    apply orb_true_iff in Hnm as [Hnm|Hnm]; apply String.eqb_eq in Hnm; subst; simpl; auto. }
  assert (Hle : (List.length (session_names l) <= 2)%nat)
    by exact (@NoDup_incl_length _ (session_names l) ["sid"; "rsid"] Hnodup Hincl).
  assert (Hboth : (2 <= List.length (session_names l))%nat <->
                  In "sid" (session_names l) /\ In "rsid" (session_names l)).
  { split.
    - intros Hge.
      assert (Hback : incl ["sid"; "rsid"] (session_names l))
        by exact (@NoDup_length_incl _ (session_names l) ["sid"; "rsid"] Hnodup Hge Hincl).
      split; apply Hback; simpl; auto.
    - intros [H1 H2].
      assert (Hnd : NoDup ["sid"; "rsid"]).
      { repeat constructor; simpl; intuition discriminate. }
      apply (@NoDup_incl_length _ ["sid"; "rsid"] (session_names l) Hnd).
      intros nm [<-|[<-|[]]]; assumption. }
  split.
  - intros Hin. apply Hboth in Hin.
    destruct l as [|c l']; [simpl in Hin; lia|].
    cbv zeta. fold t. rewrite Hlen.
    destruct (Nat.ltb_spec (List.length (session_names (c :: l'))) 2); [lia|].
    eexists. split; [reflexivity|]. split; [lia|apply collect_cookies_names].
  - intros Hnot.
    destruct l as [|c l']; [now eexists|].
    cbv zeta. fold t. rewrite Hlen.
    destruct (Nat.ltb_spec (List.length (session_names (c :: l'))) 2); [now eexists|].
    exfalso. now apply Hnot, Hboth.
Qed.

(** C6: a login response of status 200 whose two [Set-Cookie] headers
    both set [sid] carries only one of the two required names, and yet
    [login] returns a session: two cookies named [sid], none named
    [rsid]. *)
Theorem login_accepts_repeated_sid :
  fst (login sid_twice epoch user empty_world) =
    Ok [session_cookie "sid" "old" 0; session_cookie "sid" "abc" 0] /\
  existsb (fun nm => String.eqb nm "rsid")
          (map (fun c => fst (cookie_name_value c))
               ["sid=old; Max-Age=0"; "sid=abc; Path=/"]) = false.
Proof. split; vm_compute; reflexivity. Qed.

(** ** Framing: what a computation may do *)

Section Within.

Variable P : Event -> Prop.
Variable R : Store -> Store -> Prop.
Hypothesis R_refl : forall s, R s s.
Hypothesis R_trans : forall a b c, R a b -> R b c -> R a c.

Lemma within_ret {A} (Q : A -> Prop) a : Q a -> within P R Q (ret a).
Proof.
  intros HQ w. exists (Ok a), w, []. rewrite app_nil_r.
  repeat split; auto; try discriminate. intros a' [= <-]. exact HQ.
Qed.

Lemma within_throw {A} (Q : A -> Prop) e : within P R Q (throw e).
Proof.
  intros w. exists (Thrown e), w, []. rewrite app_nil_r.
  repeat split; auto; discriminate.
Qed.

Lemma within_bind {A B} (Q : A -> Prop) (Q' : B -> Prop) m k :
  within P R Q m -> (forall a, Q a -> within P R Q' (k a)) ->
  within P R Q' (bind m k).
Proof.
  intros Hm Hk w. unfold bind.
  destruct (Hm w) as (r & w1 & evs & -> & Hfuel & HQ & HR & Htr & HP).
  destruct r as [a|e|]; [| |contradiction].
  - destruct (Hk a (HQ a eq_refl) w1) as (r2 & w2 & evs2 & -> & Hfuel2 & HQ2 & HR2 & Htr2 & HP2).
    exists r2, w2, (evs ++ evs2)%list. repeat split; auto.
    + eapply R_trans; eassumption.
    + rewrite Htr2, Htr. now rewrite app_assoc.
    + apply Forall_app. now split.
  - exists (Thrown e), w1, evs. repeat split; auto; discriminate.
Qed.

Lemma within_try_catch {A} (Q : A -> Prop) m h :
  within P R Q m -> (forall e, within P R Q (h e)) ->
  within P R Q (try_catch m h).
Proof.
  intros Hm Hh w. unfold try_catch.
  destruct (Hm w) as (r & w1 & evs & -> & Hfuel & HQ & HR & Htr & HP).
  destruct r as [a|e|]; [| |contradiction].
  - exists (Ok a), w1, evs. repeat split; auto.
  - destruct (Hh e w1) as (r2 & w2 & evs2 & -> & Hfuel2 & HQ2 & HR2 & Htr2 & HP2).
    exists r2, w2, (evs ++ evs2)%list. repeat split; auto.
    + eapply R_trans; eassumption.
    + rewrite Htr2, Htr. now rewrite app_assoc.
    + apply Forall_app. now split.
Qed.

Lemma within_post {A} (Q Q' : A -> Prop) m :
  within P R Q m -> (forall a, Q a -> Q' a) -> within P R Q' m.
Proof.
  intros Hm HQQ w.
  destruct (Hm w) as (r & w1 & evs & -> & Hfuel & HQ & HR & Htr & HP).
  exists r, w1, evs. repeat split; auto.
Qed.

Lemma within_setTimeout ms : P (EvTimer ms) -> within P R any (setTimeout ms).
Proof.
  intros HP w. exists (Ok tt), (log (EvTimer ms) w), [EvTimer ms].
  repeat split; auto; try discriminate.
Qed.

Lemma within_Date_now now : within P R any (Date_now now).
Proof.
  intros w. exists (Ok (now (trace w))), w, []. rewrite app_nil_r.
  repeat split; auto; discriminate.
Qed.

Lemma within_axios remote rq : P (EvRequest rq) -> within P R any (axios remote rq).
Proof.
  intros HP w. unfold axios.
  destruct (remote (trace w) rq) as [r|e];
    [exists (Ok r) | exists (Thrown e)];
    exists (log (EvRequest rq) w), [EvRequest rq];
    repeat split; auto; discriminate.
Qed.

Lemma within_store_call_post {A} (Q : A -> Prop) op
      (run : Store -> (JsError + A) * Store) :
  P (EvStore op) -> (forall s, R s (snd (run s))) ->
  (forall s a, fst (run s) = inr a -> Q a) ->
  within P R Q (store_call op run).
Proof.
  intros HP HR HQ w. unfold store_call. cbn [log store].
  destruct (failure (store w) (trace w) op) as [e|].
  - exists (Thrown e), (log (EvStore op) w), [EvStore op].
    repeat split; auto; discriminate.
  - specialize (HR (store w)). specialize (HQ (store w)).
    destruct (run (store w)) as [[e|a] s];
      [exists (Thrown e) | exists (Ok a)];
      eexists; exists [EvStore op]; (split; [reflexivity|]);
      repeat split; auto; try discriminate.
    intros a' [= <-]. now apply HQ.
Qed.

Lemma within_store_call {A} op (run : Store -> (JsError + A) * Store) :
  P (EvStore op) -> (forall s, R s (snd (run s))) -> within P R any (store_call op run).
Proof.
  intros HP HR. apply within_store_call_post; auto. intros; exact I.
Qed.

Lemma within_withRetry {A} (Q : A -> Prop) fn retries : forall delay,
  (forall ms, P (EvTimer ms)) -> within P R Q fn ->
  within P R Q (withRetry fn retries delay).
Proof.
  induction retries as [|retries IH]; intros delay HP Hfn; simpl.
  - apply within_try_catch; [assumption|]. intros e. apply within_throw.
  - apply within_try_catch; [assumption|]. intros e.
    destruct (unreachable e); [|apply within_throw].
    apply within_bind with (Q := any).
    + apply within_setTimeout, HP.
    + intros _ _. now apply IH.
Qed.

Lemma within_on_429 {A} header retryCount delay :
  (forall ms, P (EvTimer ms)) ->
  within P R (continues retryCount) (@on_429 A header retryCount delay).
Proof.
  intros HP. unfold on_429.
  destruct (Z.leb_spec MAX_RETRIES retryCount); [apply within_throw|].
  apply within_bind with (Q := any).
  - apply within_setTimeout, HP.
  - intros _ _. apply within_ret. simpl. split; [reflexivity|assumption].
Qed.

Lemma within_rate_limit_catch {A} retryCount delay e :
  (forall ms, P (EvTimer ms)) ->
  within P R (continues retryCount) (@rate_limit_catch A retryCount delay e).
Proof.
  intros HP. unfold rate_limit_catch.
  destruct (response_is_429 e); [now apply within_on_429 | apply within_throw].
Qed.

Lemma within_login_loop remote now credentials fuel : forall retryCount delay,
  (forall ms, P (EvTimer ms)) ->
  P (EvRequest (PostLogin (fst credentials) (snd credentials))) ->
  Z.max 0 (MAX_RETRIES - retryCount) < Z.of_nat fuel ->
  within P R any (login_loop remote now fuel credentials retryCount delay).
Proof.
  induction fuel as [|fuel IH]; intros retryCount delay HPt HPr Hfuel.
  - lia.
  - cbn [login_loop].
    apply within_bind with (Q := continues retryCount).
    + apply within_try_catch; [|intros e; now apply within_rate_limit_catch].
      unfold login_try.
      apply within_bind with (Q := any); [now apply within_axios|].
      intros response _.
      destruct (status response =? 200).
      * destruct (Nat.eqb _ 0); [apply within_throw|].
        apply within_bind with (Q := any); [apply within_Date_now|].
        intros t _. destruct (Nat.ltb _ 2); [apply within_throw|].
        now apply within_ret.
      * destruct (status response =? 429); [now apply within_on_429 | apply within_throw].
    + intros [result|rc d] Hstep.
      * now apply within_ret.
      * destruct Hstep as [-> Hlt]. apply IH; auto. lia.
Qed.

Lemma within_page_loop remote cookieStr page fuel : forall retryCount delay,
  (forall ms, P (EvTimer ms)) ->
  P (EvRequest (GetPayouts cookieStr page)) ->
  Z.max 0 (MAX_RETRIES - retryCount) < Z.of_nat fuel ->
  within P R any (page_loop remote fuel cookieStr page retryCount delay).
Proof.
  induction fuel as [|fuel IH]; intros retryCount delay HPt HPr Hfuel.
  - lia.
  - cbn [page_loop].
    apply within_bind with (Q := continues retryCount).
    + apply within_try_catch; [|intros e; now apply within_rate_limit_catch].
      unfold page_try.
      apply within_bind with (Q := any); [now apply within_axios|].
      intros response _.
      destruct (status response =? 200).
      * destruct (body response) as [| |json]; try apply within_throw.
        destruct (body_data json); [now apply within_ret|].
        destruct (body_payouts_data json); [now apply within_ret|].
        apply within_throw.
      * destruct (status response =? 429); [now apply within_on_429 | apply within_throw].
    + intros [result|rc d] Hstep.
      * now apply within_ret.
      * destruct Hstep as [-> Hlt]. apply IH; auto. lia.
Qed.

End Within.

Lemma within_weaken {A} (P P' : Event -> Prop) (R R' : Store -> Store -> Prop)
      (Q : A -> Prop) m :
  (forall e, P e -> P' e) -> (forall a b, R a b -> R' a b) ->
  within P R Q m -> within P' R' Q m.
Proof.
  intros HP HR Hm w.
  destruct (Hm w) as (r & w1 & evs & -> & Hfuel & HQ & HRs & Htr & HPs).
  exists r, w1, evs. repeat split; auto.
  eapply Forall_impl; [|eassumption]. exact HP.
Qed.

(** ** [fetchTransactions] *)

(** A computation that leaves the store alone only extends the trace. *)
Lemma within_eq_extend {A} (P : Event -> Prop) (Q : A -> Prop) (m : M A) w r w' :
  within P eq Q m -> m w = (r, w') ->
  exists evs, w' = extend w evs /\ Forall P evs /\ r <> OutOfFuel.
Proof.
  intros Hm Hrun.
  destruct (Hm w) as (r1 & w1 & evs & Hrun1 & Hfuel & _ & Hst & Htr & HP).
  rewrite Hrun in Hrun1. injection Hrun1 as <- <-.
  exists evs. split; [|split; assumption].
  destruct w' as [s t]. unfold extend. simpl in *. now subst.
Qed.

Lemma within_fetchTransactionsPage (P : Event -> Prop) remote cookies page :
  (forall ms, P (EvTimer ms)) ->
  P (EvRequest (GetPayouts (cookie_header cookies) page)) ->
  within P eq any (fetchTransactionsPage remote cookies page).
Proof.
  intros HPt HPr. unfold fetchTransactionsPage.
  apply within_page_loop; auto.
  - intros; congruence.
  - unfold loop_fuel, MAX_RETRIES. simpl. lia.
Qed.

Lemma within_duplicate_query (P : Event -> Prop) db transactions :
  (forall ms, P (EvTimer ms)) ->
  P (EvStore (TransactionFindManyIn (map tx_id transactions))) ->
  within P eq any (duplicate_query db transactions).
Proof.
  intros HPt HPs. unfold duplicate_query, withRetry_default.
  apply within_withRetry; auto.
  - intros; congruence.
  - apply within_store_call; auto.
Qed.

Section Fetch.

Variable remote : list Event -> Request -> HttpOutcome.
Variable db : DbClient.
Variable cookies : list Cookie.

(** One turn of the loop of [fetchTransactions] whose page was fetched:
    an empty page goes on to the next page without a query; a page whose
    records the duplicate check all finds ends the loop; any other page
    adds its unseen records and goes on. *)
Lemma fetch_loop_page turns page acc w transactions w1 :
  fetchTransactionsPage remote cookies page (after_delay page w) = (Ok transactions, w1) ->
  fetch_loop remote db cookies (S turns) page acc w =
  match transactions with
  | [] => fetch_loop remote db cookies turns (page + 1) acc w1
  | _ =>
      match duplicate_query db transactions w1 with
      | (Ok existingIds, w2) =>
          match unseen existingIds transactions with
          | [] => (Ok acc, w2)
          | newTransactions =>
              fetch_loop remote db cookies turns (page + 1) (acc ++ newTransactions)%list w2
          end
      | (_, w2) => fetch_loop remote db cookies turns (page + 1) acc w2
      end
  end.
Proof.
  intros Hpage. cbn [fetch_loop]. unfold bind at 1.
  assert (Hdelay : (if 1 <? page then setTimeout (millis BASE_DELAY) else ret tt) w
                   = (Ok tt, after_delay page w)).
  { unfold after_delay. destruct (1 <? page); reflexivity. }
  rewrite Hdelay. unfold bind at 1, try_catch, page_try_block. unfold bind at 1.
  rewrite Hpage.
  destruct transactions as [|t rest].
  - cbn. rewrite app_nil_r. reflexivity.
  - cbn [List.length Nat.ltb Nat.leb]. unfold bind at 1.
    fold (duplicate_query db (t :: rest)).
    destruct (duplicate_query db (t :: rest) w1) as [[existingIds|e|] w2] eqn:Hq.
    + fold (unseen existingIds (t :: rest)).
      destruct (unseen existingIds (t :: rest)) as [|n news] eqn:Hnew.
      * cbn. rewrite app_nil_r. reflexivity.
      * cbn. reflexivity.
    + cbn. rewrite app_nil_r. reflexivity.
    + destruct (within_duplicate_query (fun _ => True) db (t :: rest)
                  (fun _ => I) I w1) as (r & w' & evs & Hrun & Hfuel & _).
      rewrite Hq in Hrun. injection Hrun as <- <-. contradiction.
Qed.

(** A page whose fetch throws is skipped: the loop goes on to the next
    page with the records gathered so far. *)
Lemma fetch_loop_page_error turns page acc w e w1 :
  fetchTransactionsPage remote cookies page (after_delay page w) = (Thrown e, w1) ->
  fetch_loop remote db cookies (S turns) page acc w =
  fetch_loop remote db cookies turns (page + 1) acc w1.
Proof.
  intros Hpage. cbn [fetch_loop]. unfold bind at 1.
  assert (Hdelay : (if 1 <? page then setTimeout (millis BASE_DELAY) else ret tt) w
                   = (Ok tt, after_delay page w)).
  { unfold after_delay. destruct (1 <? page); reflexivity. }
  rewrite Hdelay. unfold bind at 1, try_catch, page_try_block. unfold bind at 1.
  rewrite Hpage. cbn. rewrite app_nil_r. reflexivity.
Qed.

(** A feed all of whose pages are empty: every one of the pages the loop
    has turns for is requested, once and in order, the store is never
    queried, and nothing is gathered. *)
Lemma fetch_loop_all_empty turns : forall page acc w,
  (forall tr p, exists r json,
      remote tr (GetPayouts (cookie_header cookies) p) = Resolved r /\
      status r = 200 /\ body r = Document json /\ body_data json = Some []) ->
  fetch_loop remote db cookies turns page acc w =
  (Ok acc, extend w (empty_pages cookies turns page)).
Proof.
  induction turns as [|turns IH]; intros page acc w Hempty.
  - cbn. now rewrite extend_nil.
  - assert (Hpage : fetchTransactionsPage remote cookies page (after_delay page w) =
                    (Ok [], extend (after_delay page w)
                                   [EvRequest (GetPayouts (cookie_header cookies) page)])).
    { destruct (Hempty (trace (after_delay page w)) page) as (r & json & Hr & Hs & Hj & Hb).
      unfold fetchTransactionsPage. change loop_fuel with 6%nat.
      cbn [page_loop]. unfold bind at 1, try_catch, page_try, bind, axios.
      rewrite Hr, Hs, Hj, Hb. reflexivity. }
    rewrite (fetch_loop_page turns page acc w [] _ Hpage), IH by assumption.
    cbn [empty_pages]. unfold after_delay.
    destruct (1 <? page); rewrite ?log_extend, !extend_extend; reflexivity.
Qed.

(** The loop only asks for the pages it has turns for. *)
Lemma within_fetch_loop lo hi turns : forall page acc,
  lo <= page -> page + Z.of_nat turns <= hi ->
  within (fetch_event (page_between cookies lo hi)) eq any
         (fetch_loop remote db cookies turns page acc).
Proof.
  induction turns as [|turns IH]; intros page acc Hlo Hhi; cbn [fetch_loop].
  - now apply within_ret.
  - apply within_bind with (Q := any); [congruence| |].
    { destruct (1 <? page); [|now apply within_ret].
      now apply within_setTimeout. }
    intros _ _.
    apply within_bind with (Q := any); [congruence| |].
    + apply within_try_catch; [congruence| |intros e; now apply within_ret].
      unfold page_try_block.
      apply within_bind with (Q := any); [congruence| |].
      * apply within_fetchTransactionsPage; [intros; exact I|].
        exists page. split; [reflexivity|lia].
      * intros transactions _. destruct (Nat.ltb 0 _); [|now apply within_ret].
        apply within_bind with (Q := any); [congruence| |].
        -- apply (within_duplicate_query _ db transactions); [intros; exact I|exact I].
        -- intros existingIds _. now apply within_ret.
    + intros found _. destruct (snd found); [now apply within_ret|].
      apply IH; lia.
Qed.

End Fetch.

(** [fetchTransactions] ends, leaves the store as it is, and asks for
    pages 1 to N only. *)
Lemma within_fetchTransactions remote cookies N db :
  within (fetch_event (page_between cookies 1 (N + 1))) eq any
         (fetchTransactions remote cookies (Some N) db).
Proof.
  unfold fetchTransactions. destruct (Z.le_gt_cases 0 N).
  - apply within_fetch_loop; lia.
  - replace (Z.to_nat N) with 0%nat by lia. now apply within_ret.
Qed.

(** One turn of the loop of [fetchTransactions], for any store client:
    after an empty page the next page is fetched; after a page with
    records the loop stops, and asks for no later page, exactly when the
    duplicate query returns and every record of the page is found among
    the ids it returned; when the query throws, the page is passed over
    and the next page is fetched. *)
Lemma fetch_loop_turn remote db cookies turns page acc w transactions w1 :
  fetchTransactionsPage remote cookies page (after_delay page w) = (Ok transactions, w1) ->
  (transactions = [] ->
   fetch_loop remote db cookies (S turns) page acc w =
   fetch_loop remote db cookies turns (page + 1) acc w1) /\
  (forall existingIds w2,
     transactions <> [] ->
     duplicate_query db transactions w1 = (Ok existingIds, w2) ->
     (unseen existingIds transactions = [] ->
      fetch_loop remote db cookies (S turns) page acc w = (Ok acc, w2) /\
      exists evs, w2 = extend w evs /\
                  Forall (fetch_event (eq (GetPayouts (cookie_header cookies) page))) evs) /\
     (unseen existingIds transactions <> [] ->
      fetch_loop remote db cookies (S turns) page acc w =
      fetch_loop remote db cookies turns (page + 1)
                 (acc ++ unseen existingIds transactions)%list w2)) /\
  (forall e w2,
     transactions <> [] ->
     duplicate_query db transactions w1 = (Thrown e, w2) ->
     fetch_loop remote db cookies (S turns) page acc w =
     fetch_loop remote db cookies turns (page + 1) acc w2).
Proof.
  intros Hpage. split; [|split].
  - intros ->.
    now rewrite (fetch_loop_page remote db cookies turns page acc w [] w1 Hpage).
  - intros existingIds w2 Hne Hquery.
    rewrite (fetch_loop_page remote db cookies turns page acc w transactions w1 Hpage).
    destruct transactions as [|t rest]; [contradiction|].
    rewrite Hquery. split.
    + intros Hall. rewrite Hall. split; [reflexivity|].
      destruct (within_eq_extend (fetch_event (eq (GetPayouts (cookie_header cookies) page)))
                  any _ _ _ _
                  (within_fetchTransactionsPage _ remote cookies page (fun _ => I) eq_refl)
                  Hpage) as (evs1 & -> & HP1 & _).
      destruct (within_eq_extend (fetch_event (eq (GetPayouts (cookie_header cookies) page)))
                  any _ _ _ _
                  (within_duplicate_query _ db (t :: rest) (fun _ => I) I)
                  Hquery) as (evs2 & -> & HP2 & _).
      unfold after_delay. destruct (1 <? page).
      * exists ([EvTimer (millis BASE_DELAY)] ++ evs1 ++ evs2)%list.
        rewrite log_extend, !extend_extend. split; [reflexivity|].
        apply Forall_app; split; [repeat constructor|].
        apply Forall_app; now split.
      * exists (evs1 ++ evs2)%list. rewrite extend_extend. split; [reflexivity|].
        apply Forall_app; now split.
    + intros Hsome.
      destruct (unseen existingIds (t :: rest)); [contradiction|reflexivity].
  - intros e w2 Hne Hquery.
    rewrite (fetch_loop_page remote db cookies turns page acc w transactions w1 Hpage).
    destruct transactions as [|t rest]; [contradiction|].
    now rewrite Hquery.
Qed.

(** C2: record 5 is persisted and is the only record of page 2, so
    page 2 yields zero records that are not already known to the store;
    yet [fetchTransactions] with [prisma], asked for 3 pages, does not
    stop there: it requests page 3 and returns record 5 with the records
    of pages 1 and 3. *)
Theorem fetch_goes_past_known_page :
  pair_present 5 1 (transactions store_with_5) = true /\
  served (feed_6_5_7 [] (GetPayouts "sid=abc; rsid=def" 2)) = [record 5] /\
  exists w',
    fetchTransactions feed_6_5_7 the_session (Some 3) prisma world_with_5 =
    (Ok [record 6; record 5; record 7], w') /\
    requests_of (trace w') =
    [GetPayouts "sid=abc; rsid=def" 1; GetPayouts "sid=abc; rsid=def" 2;
     GetPayouts "sid=abc; rsid=def" 3].
Proof.
  split; [reflexivity|]. split; [reflexivity|].
  eexists. split; vm_compute; reflexivity.
Qed.

(** A page with no records does not stop the loop either: page 2 of the
    feed is empty, and page 3 is requested all the same. *)
Example fetch_goes_past_empty_page :
  fst (fetchTransactionsPage feed_with_gap the_session 2 empty_world) = Ok [] /\
  exists w',
    fetchTransactions feed_with_gap the_session (Some 3) prisma empty_world =
    (Ok [record 1; record 3], w') /\
    In (GetPayouts "sid=abc; rsid=def" 3) (requests_of (trace w')).
Proof.
  split; [vm_compute; reflexivity|].
  eexists. split; [vm_compute; reflexivity|].
  vm_compute. tauto.
Qed.

(** C10: when a fetched page has no records at all, the loop does not
    stop: it goes on to the next page index with the records gathered so
    far, and between the start of the turn and the next one there are only
    the requests for that page and timers, no store query.  In all, only
    pages 1 to N are asked for. *)
Theorem empty_page_does_not_stop remote db cookies turns page acc w w1 :
  fetchTransactionsPage remote cookies page (after_delay page w) = (Ok [], w1) ->
  fetch_loop remote db cookies (S turns) page acc w =
  fetch_loop remote db cookies turns (page + 1) acc w1 /\
  (exists evs, w1 = extend w evs /\
               Forall (calls_or_waits (eq (GetPayouts (cookie_header cookies) page))) evs) /\
  forall N, within (fetch_event (page_between cookies 1 (N + 1))) eq any
                   (fetchTransactions remote cookies (Some N) db).
Proof.
  intros Hpage. split; [|split].
  - now rewrite (fetch_loop_page remote db cookies turns page acc w [] w1 Hpage).
  - destruct (within_eq_extend (calls_or_waits (eq (GetPayouts (cookie_header cookies) page)))
                any _ _ _ _
                (within_fetchTransactionsPage _ remote cookies page (fun _ => I) eq_refl)
                Hpage) as (evs1 & -> & HP1 & _).
    unfold after_delay. destruct (1 <? page).
    + exists ([EvTimer (millis BASE_DELAY)] ++ evs1)%list.
      rewrite log_extend, extend_extend. split; [reflexivity|].
      apply Forall_app; split; [repeat constructor|assumption].
    + exists evs1. now split.
  - intros N. apply within_fetchTransactions.
Qed.

Lemma empty_page_does_not_stop_witness :
  fetch_loop feed_with_gap prisma the_session 2 2 [record 1] empty_world =
  fetch_loop feed_with_gap prisma the_session 1 3 [record 1]
             (extend empty_world [EvTimer (millis BASE_DELAY);
                                  EvRequest (GetPayouts "sid=abc; rsid=def" 2)]).
Proof.
  apply (empty_page_does_not_stop feed_with_gap prisma the_session 1 2 [record 1]).
  vm_compute. reflexivity.
Defined.

(** ** The duplicate check of [fetchTransactions] against [prisma] *)

(** The ids [prisma] returns are BigInts, the id of a record of the feed
    is a Number or a String: the lookup in the set never succeeds. *)
Lemma prisma_ids_never_found ids s existingIds v :
  prisma_findMany_externalId_in ids s = inr existingIds ->
  Set_has existingIds (js_of v) = false.
Proof.
  unfold prisma_findMany_externalId_in.
  destruct (forallb accepted_id ids); [|discriminate].
  intros [= <-]. unfold Set_has.
  induction (filter _ (transactions s)) as [|r rows IH]; [reflexivity|].
  simpl. rewrite IH. destruct v; reflexivity.
Qed.

(** So with [prisma] every record of a page counts as unseen. *)
Lemma prisma_all_unseen ids s existingIds transactions :
  prisma_findMany_externalId_in ids s = inr existingIds ->
  unseen existingIds transactions = transactions.
Proof.
  intros H. unfold unseen.
  induction transactions as [|t rest IH]; [reflexivity|].
  simpl. rewrite (prisma_ids_never_found ids s existingIds (tx_id t) H). simpl.
  now rewrite IH.
Qed.

(** The duplicate query against [prisma] when the store serves it. *)
Lemma duplicate_query_prisma transactions w :
  failure (store w) (trace w) (TransactionFindManyIn (map tx_id transactions)) = None ->
  duplicate_query prisma transactions w =
  (match prisma_findMany_externalId_in (map tx_id transactions) (store w) with
   | inr existingIds => Ok existingIds
   | inl e => Thrown e
   end,
   extend w [EvStore (TransactionFindManyIn (map tx_id transactions))]).
Proof.
  intros Hserved. unfold duplicate_query.
  destruct (prisma_findMany_externalId_in (map tx_id transactions) (store w))
    as [e|existingIds] eqn:Hq.
  - unfold withRetry_default. apply withRetry_other.
    + rewrite store_call_served by assumption.
      cbn [fst snd findMany_externalId_in prisma]. now rewrite Hq.
    + unfold prisma_findMany_externalId_in in Hq.
      destruct (forallb accepted_id (map tx_id transactions)); [discriminate|].
      now injection Hq as <-.
  - apply (withRetry_store_call_ok (TransactionFindManyIn (map tx_id transactions))
             (fun s => (findMany_externalId_in prisma (map tx_id transactions) s, s)));
      [assumption|].
    cbn [findMany_externalId_in prisma]. now rewrite Hq.
Qed.

(** Whatever the store does, the ids the duplicate query against
    [prisma] returns, when it returns, are ids [prisma] read. *)
Lemma duplicate_query_prisma_ids transactions w existingIds w' :
  duplicate_query prisma transactions w = (Ok existingIds, w') ->
  exists s, prisma_findMany_externalId_in (map tx_id transactions) s = inr existingIds.
Proof.
  intros Hq.
  assert (Hin : within (fun _ => True) eq
                  (fun ids => exists s,
                     prisma_findMany_externalId_in (map tx_id transactions) s = inr ids)
                  (duplicate_query prisma transactions)).
  { unfold duplicate_query, withRetry_default.
    apply within_withRetry; [reflexivity|intros; congruence|intros; exact I|].
    apply within_store_call_post; [reflexivity|exact I|reflexivity|].
    intros s a Ha. now exists s. }
  destruct (Hin w) as (r & w1 & evs & Hrun & _ & HQ & _).
  rewrite Hq in Hrun. injection Hrun as <- <-. now apply HQ.
Qed.

(** With [prisma] the loop of [fetchTransactions] never stops early:
    whatever the page holds, whatever the store holds and whatever it
    does, every turn is followed by the turn of the next page. *)
Lemma prisma_fetch_never_stops remote cookies turns page acc w :
  exists acc' w1,
    fetch_loop remote prisma cookies (S turns) page acc w =
    fetch_loop remote prisma cookies turns (page + 1) acc' w1.
Proof.
  destruct (fetchTransactionsPage remote cookies page (after_delay page w))
    as [[transactions|e|] w1] eqn:Hpage.
  - rewrite (fetch_loop_page remote prisma cookies turns page acc w transactions w1 Hpage).
    destruct transactions as [|t rest]; [now exists acc, w1|].
    destruct (duplicate_query prisma (t :: rest) w1) as [[existingIds|e|] w2] eqn:Hq.
    + destruct (duplicate_query_prisma_ids _ _ _ _ Hq) as (s & Hs).
      rewrite (prisma_all_unseen _ _ _ (t :: rest) Hs). now do 2 eexists.
    + now do 2 eexists.
    + now do 2 eexists.
  - rewrite (fetch_loop_page_error remote prisma cookies turns page acc w e w1 Hpage).
    now do 2 eexists.
  - destruct (within_fetchTransactionsPage (fun _ => True) remote cookies page
                (fun _ => I) I (after_delay page w)) as (r & w' & evs & Hrun & Hfuel & _).
    rewrite Hpage in Hrun. injection Hrun as <- <-. contradiction.
Qed.

(** C9: record 5 is persisted for cabinet 1 and is the only record of
    page 1, yet [fetchTransactions] with [prisma] returns it instead of
    counting it as known, and goes on to page 2. *)
Theorem fetch_returns_persisted_record :
  pair_present 5 1 (transactions store_with_5) = true /\
  exists w',
    fetchTransactions feed_5_6 the_session (Some 2) prisma world_with_5 =
    (Ok [record 5; record 6], w') /\
    requests_of (trace w') =
    [GetPayouts "sid=abc; rsid=def" 1; GetPayouts "sid=abc; rsid=def" 2].
Proof.
  split; [reflexivity|].
  eexists. split; vm_compute; reflexivity.
Qed.

(** ** [saveTransactions] against [prisma] *)





Section Save.

Variable now : list Event -> Z.
Variable BigInt_of_string : string -> option Z.
Variable Date_parse : string -> option Z.
Variable toISOString : Z -> string.
Variable cabinetId : Z.

Let data_for := create_data BigInt_of_string Date_parse toISOString.
Let save txs :=
  saveTransactions now BigInt_of_string Date_parse toISOString txs cabinetId prisma.

(** The keys of the rows of the cabinet, as [saveTransactions] builds them. *)
Let existingPairs (rows : list IdexTransaction) : list JsValue :=
  map (fun t => JString (pair_key (fst t) (snd t)))
      (map (fun r => (JBigInt (row_externalId r), JNumber (row_cabinetId r)))
           (filter (fun r => row_cabinetId r =? cabinetId) rows)).




(** [create_call] once the conversions are known to succeed. *)
Lemma create_call_data db t data w :
  data_for t cabinetId = Some data ->
  create_call now BigInt_of_string Date_parse toISOString db t cabinetId w =
  store_call (TransactionCreateOp data) (create db data (now (trace w))) w.
Proof.
  unfold data_for, create_data, create_call, bigint_of, stamp_of, BigInt, shifted.
  intros H.
  destruct (tx_id t) as [n|s]; [|destruct (BigInt_of_string s) as [n|]; [|discriminate]];
  (destruct (tx_payment_method_id t) as [m|s']; [|destruct (BigInt_of_string s') as [m|]; [|discriminate]]);
  (destruct (tx_approved_at t) as [[|c1 s1]|]; [| destruct (Date_parse (String c1 s1)); [|discriminate] |]);
  (destruct (tx_expired_at t) as [[|c2 s2]|]; [| destruct (Date_parse (String c2 s2)); [|discriminate] |]);
  simpl in H; injection H as <-; reflexivity.
Qed.

Lemma pair_present_In n c rows :
  pair_present n c rows = true <-> In (n, c) (map row_pair rows).
Proof.
  unfold pair_present. rewrite existsb_exists, in_map_iff. split.
  - intros (r & Hin & Heq). apply andb_true_iff in Heq as [H1 H2].
    apply Z.eqb_eq in H1, H2. exists r. unfold row_pair. now subst.
  - intros (r & Heq & Hin). exists r. split; [assumption|].
    unfold row_pair in Heq. injection Heq as -> ->. now rewrite !Z.eqb_refl.
Qed.

Lemma pair_present_app n c rows rows' :
  pair_present n c (rows ++ rows') = pair_present n c rows || pair_present n c rows'.
Proof. apply existsb_app. Qed.




End Save.

Lemma NoDup_map_filter {A B} (f : A -> B) (p : A -> bool) l :
  NoDup (map f l) -> NoDup (map f (filter p l)).
Proof.
  induction l as [|a l IH]; intros H; [constructor|].
  inversion H as [|? ? Hnotin Hrest]; subst. cbn [filter].
  destruct (p a); [|now apply IH].
  cbn [map]. constructor; [|now apply IH].
  intros Hin. apply Hnotin. apply in_map_iff in Hin as (x & Hx & Hin).
  apply filter_In in Hin as [Hin _]. apply in_map_iff. now exists x.
Qed.







(** The other conditions of the amended C3 are needed too: a cabinet that
    is not in the store, an id that does not convert, an id that does not
    print as its BigInt does (so that its pair is not recognised), an id
    that does not fit the 64 bits of its column, and a store that rejects
    a call each make [saveTransactions] throw. *)
Example saveTransactions_unknown_cabinet :
  exists e w',
    saveTransactions epoch no_bigint no_date iso [record 6] 9 prisma world_with_5 =
    (Thrown e, w') /\ code e = Some "P2003" /\ store w' = store_with_5.
Proof. do 2 eexists. split; [vm_compute; reflexivity|]. split; reflexivity. Qed.

Example saveTransactions_unconvertible_id :
  exists e w',
    saveTransactions epoch no_bigint no_date iso [with_id (ofString "abc") (record 6)] 1
                     prisma world_with_5 =
    (Thrown e, w') /\ store w' = store_with_5.
Proof. do 2 eexists. split; [vm_compute; reflexivity|reflexivity]. Qed.

Example saveTransactions_unrecognised_id :
  already_persisted leading_zero 1 (transactions store_with_5)
                    (with_id (ofString "05") (record 5)) = true /\
  exists e w',
    saveTransactions epoch leading_zero no_date iso [with_id (ofString "05") (record 5)] 1
                     prisma world_with_5 =
    (Thrown e, w') /\ code e = Some "P2002" /\ store w' = store_with_5.
Proof.
  split; [reflexivity|].
  do 2 eexists. split; [vm_compute; reflexivity|]. split; reflexivity.
Qed.

Example saveTransactions_id_out_of_range :
  already_persisted no_bigint 1 (transactions store_with_5)
                    (with_id (ofNumber (10 ^ 19)) (record 6)) = false /\
  exists w',
    saveTransactions epoch no_bigint no_date iso [with_id (ofNumber (10 ^ 19)) (record 6)] 1
                     prisma world_with_5 =
    (Thrown out_of_int64, w') /\ store w' = store_with_5.
Proof.
  split; [reflexivity|].
  eexists. split; [vm_compute; reflexivity|reflexivity].
Qed.

Example saveTransactions_rejected_read :
  exists w',
    saveTransactions epoch no_bigint no_date iso [record 6] 1 prisma
                     {| store := lossy_store; trace := [] |} =
    (Thrown connection_lost, w') /\
    store w' = lossy_store /\
    trace w' = [EvStore (TransactionFindManyOfCabinet 1)].
Proof. eexists. split; [vm_compute; reflexivity|]. split; reflexivity. Qed.

(** ** Processing a cabinet leaves the orders alone *)

Lemma same_orders_refl s : same_orders s s.
Proof. repeat split. Qed.

Lemma same_orders_trans a b c : same_orders a b -> same_orders b c -> same_orders a c.
Proof. intros (H1 & H2 & H3) (H4 & H5 & H6). repeat split; congruence. Qed.

(** [prisma_create] leaves the orders and the cabinets alone. *)
Lemma same_orders_create data t s : same_orders s (snd (prisma_create data t s)).
Proof.
  unfold prisma_create.
  repeat match goal with
         | |- same_orders _ (snd (if ?b then _ else _)) => destruct b
         end; try apply same_orders_refl.
  repeat split.
Qed.

Lemma within_Promise_all {A} (P : Event -> Prop) (R : Store -> Store -> Prop)
      (promises : list (M A)) :
  (forall s, R s s) -> (forall a b c, R a b -> R b c -> R a c) ->
  Forall (within P R any) promises ->
  within P R any (Promise_all promises).
Proof.
  intros Hrefl Htrans H. induction H as [|p rest Hp _ IH]; cbn [Promise_all].
  - now apply within_ret.
  - intros w.
    destruct (Hp w) as (r & w1 & evs & -> & Hfuel & _ & HR & Htr & HP).
    destruct (IH w1) as (rs & w2 & evs2 & -> & Hfuel2 & _ & HR2 & Htr2 & HP2).
    eexists. exists w2, (evs ++ evs2)%list. split; [reflexivity|].
    split; [destruct r, rs; congruence|].
    split; [intros; exact I|].
    split; [eapply Htrans; eassumption|].
    split; [rewrite Htr2, Htr; now rewrite app_assoc|].
    apply Forall_app. now split.
Qed.

(** The end of a computation that writes to no order. *)
Ltac quiet_end :=
  first [ apply within_ret; [exact same_orders_refl | exact I]
        | apply within_throw; exact same_orders_refl ].

Section Cabinet.

Variable remote : list Event -> Request -> HttpOutcome.
Variable now : list Event -> Z.
Variable BigInt_of_string : string -> option Z.
Variable Date_parse : string -> option Z.
Variable toISOString : Z -> string.

Let P := no_order_write.
Let R := same_orders.

Lemma quiet_withRetry_store_call {A} op (run : Store -> (JsError + A) * Store) :
  no_order_write (EvStore op) -> (forall s, same_orders s (snd (run s))) ->
  within P R any (withRetry_default (store_call op run)).
Proof.
  intros Hop Hrun. unfold withRetry_default.
  apply within_withRetry;
    [exact same_orders_refl | exact same_orders_trans | intros; exact I |].
  now apply within_store_call.
Qed.

Lemma quiet_create_call t cabinetId :
  within P R any
         (create_call now BigInt_of_string Date_parse toISOString prisma t cabinetId).
Proof.
  assert (Hb : forall v, within P R any (BigInt BigInt_of_string v)).
  { intros [n|s']; simpl; [quiet_end|].
    destruct (BigInt_of_string s'); quiet_end. }
  assert (Hs : forall stamp, within P R any (shifted Date_parse toISOString stamp)).
  { intros [[|c s']|]; simpl; try quiet_end.
    destruct (Date_parse (String c s')); quiet_end. }
  unfold create_call.
  apply within_bind with (Q := any); [exact same_orders_trans|apply Hb|intros ? _].
  apply within_bind with (Q := any); [exact same_orders_trans|apply Hb|intros ? _].
  apply within_bind with (Q := any); [exact same_orders_trans|apply Hs|intros ? _].
  apply within_bind with (Q := any); [exact same_orders_trans|apply Hs|intros ? _].
  apply within_bind with (Q := any);
    [exact same_orders_trans|apply within_Date_now, same_orders_refl|intros ? _].
  apply within_store_call; [exact same_orders_refl|exact I|].
  intros s. cbn [create prisma]. apply same_orders_create.
Qed.

Lemma quiet_saveTransactions txs cabinetId :
  within P R any
         (saveTransactions now BigInt_of_string Date_parse toISOString txs cabinetId prisma).
Proof.
  unfold saveTransactions.
  apply within_bind with (Q := any); [exact same_orders_trans| |intros existing _].
  - apply quiet_withRetry_store_call; [exact I|]. intros s. apply same_orders_refl.
  - destruct (Nat.eqb _ 0); [quiet_end|].
    apply within_Promise_all; [exact same_orders_refl|exact same_orders_trans|].
    apply Forall_forall. intros p Hp. apply in_map_iff in Hp as (t & <- & _).
    unfold withRetry_default.
    apply within_withRetry;
      [exact same_orders_refl | exact same_orders_trans | intros; exact I |].
    apply quiet_create_call.
Qed.

Lemma quiet_fetchTransactions cookies pages :
  within P R any (fetchTransactions remote cookies pages prisma).
Proof.
  assert (H : forall N, within P R any (fetchTransactions remote cookies (Some N) prisma)).
  { intros N.
    apply (within_weaken (fetch_event (page_between cookies 1 (N + 1))) P eq R any).
    - intros [rq|ms|[]]; simpl; auto.
    - intros a b <-. apply same_orders_refl.
    - apply within_fetchTransactions. }
  destruct pages as [N|]; [apply H|apply (H DEFAULT_PAGES_TO_FETCH)].
Qed.

Lemma quiet_login credentials :
  within P R any (login remote now credentials).
Proof.
  unfold login. apply within_login_loop;
    [exact same_orders_refl | exact same_orders_trans | intros; exact I | exact I |].
  unfold loop_fuel, MAX_RETRIES. simpl. lia.
Qed.

Lemma quiet_sync_cabinet order i c :
  within P R (fun e => exists n m, e = CabinetSynced (cab_id c) n m)
         (sync_cabinet remote now BigInt_of_string Date_parse toISOString order i c).
Proof.
  unfold sync_cabinet.
  apply within_bind with (Q := any); [exact same_orders_trans|apply quiet_login|intros cookies _].
  apply within_bind with (Q := any);
    [exact same_orders_trans|apply quiet_fetchTransactions|intros txs _].
  apply within_bind with (Q := any);
    [exact same_orders_trans|apply quiet_saveTransactions|intros saved _].
  apply within_ret; [exact same_orders_refl|]. now do 2 eexists.
Qed.

End Cabinet.

(** ** Processing an order *)

Lemma status_writes_app id a b :
  status_writes id (a ++ b) = (status_writes id a ++ status_writes id b)%list.
Proof.
  induction a as [|[rq|ms|[]] a IH]; cbn [app status_writes]; try assumption; [reflexivity|].
  destruct (where_id =? id); [now rewrite IH|assumption].
Qed.

Lemma status_writes_quiet id evs :
  Forall no_order_write evs -> status_writes id evs = [].
Proof.
  induction 1 as [|[rq|ms|[]] evs He _ IH]; cbn [status_writes]; try assumption;
    [reflexivity|contradiction].
Qed.

Lemma cabinets_to_sync_ext order s s' :
  cabinets s' = cabinets s -> cabinets_to_sync order s' = cabinets_to_sync order s.
Proof. intros H. unfold cabinets_to_sync, all_cabinets. now rewrite H. Qed.

Lemma find_order_map id (g : IdexSyncOrder -> IdexSyncOrder) l o :
  (forall o', ord_id (g o') = ord_id o') ->
  find_order id l = Some o ->
  find_order id (map (fun o' => if ord_id o' =? id then g o' else o') l) = Some (g o).
Proof.
  intros Hg. unfold find_order.
  induction l as [|a l IH]; [discriminate|]. cbn [find map].
  destruct (Z.eqb_spec (ord_id a) id) as [Ha|Ha].
  - intros [= ->]. rewrite Hg. destruct (Z.eqb_spec (ord_id o) id); [reflexivity|contradiction].
  - destruct (Z.eqb_spec (ord_id a) id); [contradiction|]. exact IH.
Qed.

Lemma find_order_In id l :
  In id (map ord_id l) -> exists o, find_order id l = Some o.
Proof.
  unfold find_order. induction l as [|a l IH]; [contradiction|].
  cbn [map find]. intros [Ha|Hin].
  - rewrite Ha, Z.eqb_refl. now exists a.
  - destruct (ord_id a =? id); [now exists a|now apply IH].
Qed.

Lemma map_update_ids id (g : IdexSyncOrder -> IdexSyncOrder) l :
  (forall o', ord_id (g o') = ord_id o') ->
  map ord_id (map (fun o' => if ord_id o' =? id then g o' else o') l) = map ord_id l.
Proof.
  intros Hg. rewrite map_map. apply map_ext. intros a.
  destruct (ord_id a =? id); [apply Hg|reflexivity].
Qed.

Lemma In_map_update id (g : IdexSyncOrder -> IdexSyncOrder) l o :
  (forall o', ord_id (g o') = ord_id o') ->
  ord_id o <> id ->
  In o (map (fun o' => if ord_id o' =? id then g o' else o') l) <-> In o l.
Proof.
  intros Hg Hne. rewrite in_map_iff. split.
  - intros (a & Ha & Hin). destruct (Z.eqb_spec (ord_id a) id) as [Heq|_].
    + exfalso. apply Hne. now rewrite <- Ha, Hg.
    + now subst.
  - intros Hin. exists o. split; [|assumption].
    destruct (Z.eqb_spec (ord_id o) id); [contradiction|reflexivity].
Qed.

Lemma status_writes_update id id' data rest :
  status_writes id (EvStore (OrderUpdateOp id' data) :: rest) =
  if id' =? id then upd_status data :: status_writes id rest else status_writes id rest.
Proof. reflexivity. Qed.

Lemma status_writes_query id order rest :
  status_writes id (EvStore (cabinet_query order) :: rest) = status_writes id rest.
Proof.
  unfold cabinet_query.
  destruct (ord_cabinetId order) as [c|]; [destruct (c =? 0)|]; reflexivity.
Qed.

(** ** Framing a run of the order processor *)

Section Invariant.

Variable remote : list Event -> Request -> HttpOutcome.
Variable now : list Event -> Z.
Variable BigInt_of_string : string -> option Z.
Variable Date_parse : string -> option Z.
Variable toISOString : Z -> string.

Variable P : Event -> Prop.
Variable R : Store -> Store -> Prop.
Hypothesis P_timer : forall ms, P (EvTimer ms).
Hypothesis R_refl : forall s, R s s.
Hypothesis R_trans : forall a b c, R a b -> R b c -> R a c.
Hypothesis R_create : forall data t s, R s (snd (prisma_create data t s)).

Lemma inv_create_call t cabinetId :
  (forall data, P (EvStore (TransactionCreateOp data))) ->
  within P R any
         (create_call now BigInt_of_string Date_parse toISOString prisma t cabinetId).
Proof.
  intros HPc.
  assert (Hb : forall v, within P R any (BigInt BigInt_of_string v)).
  { intros [n|s']; simpl; [now apply within_ret|].
    destruct (BigInt_of_string s'); [now apply within_ret|now apply within_throw]. }
  assert (Hs : forall stamp, within P R any (shifted Date_parse toISOString stamp)).
  { intros [[|c s']|]; simpl; try (now apply within_ret).
    destruct (Date_parse (String c s')); [now apply within_ret|now apply within_throw]. }
  unfold create_call.
  apply within_bind with (Q := any); [exact R_trans|apply Hb|intros ? _].
  apply within_bind with (Q := any); [exact R_trans|apply Hb|intros ? _].
  apply within_bind with (Q := any); [exact R_trans|apply Hs|intros ? _].
  apply within_bind with (Q := any); [exact R_trans|apply Hs|intros ? _].
  apply within_bind with (Q := any); [exact R_trans|now apply within_Date_now|intros ? _].
  apply within_store_call; [exact R_refl|apply HPc|].
  intros s. cbn [create prisma]. apply R_create.
Qed.

Lemma inv_saveTransactions txs cabinetId :
  P (EvStore (TransactionFindManyOfCabinet cabinetId)) ->
  (forall data, P (EvStore (TransactionCreateOp data))) ->
  within P R any
         (saveTransactions now BigInt_of_string Date_parse toISOString txs cabinetId prisma).
Proof.
  intros HPq HPc. unfold saveTransactions.
  apply within_bind with (Q := any); [exact R_trans| |intros existing _].
  - unfold withRetry_default. apply within_withRetry; auto.
    apply within_store_call; [exact R_refl|exact HPq|]. intros s. apply R_refl.
  - destruct (Nat.eqb _ 0); [now apply within_ret|].
    apply within_Promise_all; [exact R_refl|exact R_trans|].
    apply Forall_forall. intros p Hp. apply in_map_iff in Hp as (t & <- & _).
    unfold withRetry_default. apply within_withRetry; auto.
    now apply inv_create_call.
Qed.

Lemma inv_fetchTransactions cookies pages :
  (forall ids, P (EvStore (TransactionFindManyIn ids))) ->
  (forall page,
     1 <= page <= match pages with Some n => n | None => DEFAULT_PAGES_TO_FETCH end ->
     P (EvRequest (GetPayouts (cookie_header cookies) page))) ->
  within P R any (fetchTransactions remote cookies pages prisma).
Proof.
  intros HPq HPr.
  assert (H : forall N,
             (forall page, 1 <= page <= N ->
                           P (EvRequest (GetPayouts (cookie_header cookies) page))) ->
             within P R any (fetchTransactions remote cookies (Some N) prisma)).
  { intros N HN.
    apply (within_weaken (fetch_event (page_between cookies 1 (N + 1))) P eq R any).
    - intros [rq|ms|[]]; simpl; auto; try contradiction.
      intros (page & -> & Hpage). apply HN. lia.
    - intros a b <-. apply R_refl.
    - apply within_fetchTransactions. }
  destruct pages as [N|]; [now apply H|now apply (H DEFAULT_PAGES_TO_FETCH)].
Qed.

Lemma inv_login credentials :
  P (EvRequest (PostLogin (fst credentials) (snd credentials))) ->
  within P R any (login remote now credentials).
Proof.
  intros HPr. unfold login. apply within_login_loop; auto.
  unfold loop_fuel, MAX_RETRIES. simpl. lia.
Qed.

Lemma inv_sync_cabinet order i c :
  (forall op, sync_event (fun _ => True) (EvStore op) -> P (EvStore op)) ->
  P (EvRequest (PostLogin (cab_login c) (cab_password c))) ->
  (forall cookieStr page,
     1 <= page <= match determinePages (Some (ord_pages order)) i with
                  | Some n => n
                  | None => DEFAULT_PAGES_TO_FETCH
                  end ->
     P (EvRequest (GetPayouts cookieStr page))) ->
  within P R (fun e => exists n m, e = CabinetSynced (cab_id c) n m)
         (sync_cabinet remote now BigInt_of_string Date_parse toISOString order i c).
Proof.
  intros HPs HPl HPp. unfold sync_cabinet.
  apply within_bind with (Q := any); [exact R_trans|now apply inv_login|intros cookies _].
  apply within_bind with (Q := any); [exact R_trans| |intros txs _].
  { apply inv_fetchTransactions; [intros; now apply HPs|]. intros page Hp. now apply HPp. }
  apply within_bind with (Q := any); [exact R_trans| |intros saved _].
  { apply inv_saveTransactions; intros; now apply HPs. }
  apply within_ret; [exact R_refl|]. now do 2 eexists.
Qed.

(** The orders in [written] may be written to; any event that is not a
    write to an order is allowed. *)
Variable written : Z -> Prop.
Hypothesis P_quiet : forall e, no_order_write e -> P e.
Hypothesis P_update : forall id data, written id -> P (EvStore (OrderUpdateOp id data)).
Hypothesis R_update : forall id data t s, written id -> R s (snd (order_update id data t s)).

Lemma inv_update_order id data : written id -> within P R any (update_order now id data).
Proof.
  intros Hid. unfold update_order, withRetry_default. apply within_withRetry; auto.
  apply within_bind with (Q := any); [exact R_trans|now apply within_Date_now|intros t _].
  apply within_store_call; [exact R_refl|now apply P_update|]. intros s. now apply R_update.
Qed.

Lemma inv_find {A} op (run : Store -> (JsError + A) * Store) :
  no_order_write (EvStore op) ->
  (forall s, snd (run s) = s) ->
  within P R any (withRetry_default (store_call op run)).
Proof.
  intros Hop Hrun. unfold withRetry_default. apply within_withRetry; auto.
  apply within_store_call; [exact R_refl|now apply P_quiet|].
  intros s. rewrite Hrun. apply R_refl.
Qed.

Lemma inv_determineCabinetsToSync order :
  within P R any (determineCabinetsToSync order).
Proof.
  assert (Hall : within P R any
                   (cabinets <- withRetry_default (store_call CabinetFindMany cabinet_findMany) ;;
                    if Nat.eqb (List.length cabinets) 0
                    then throw (Error "В базе данных не найдено кабинетов")
                    else ret cabinets)).
  { apply within_bind with (Q := any);
      [exact R_trans|now apply inv_find|intros cs _].
    destruct (Nat.eqb _ 0); [now apply within_throw|now apply within_ret]. }
  unfold determineCabinetsToSync.
  destruct (ord_cabinetId order) as [cabinetId|]; [|exact Hall].
  destruct (cabinetId =? 0); [exact Hall|].
  apply within_bind with (Q := any); [exact R_trans|now apply inv_find|intros c _].
  destruct c; [now apply within_ret|now apply within_throw].
Qed.

Lemma inv_sync_cabinets order cs : forall i acc,
  within P R any
         (sync_cabinets remote now BigInt_of_string Date_parse toISOString order i cs acc).
Proof.
  induction cs as [|c cs IH]; intros i acc; cbn [sync_cabinets].
  - now apply within_ret.
  - apply within_bind with (Q := any); [exact R_trans| |intros entry _; apply IH].
    apply within_try_catch; [exact R_trans| |intros e; now apply within_ret].
    apply within_post with (Q := fun e => exists n m, e = CabinetSynced (cab_id c) n m);
      [|intros; exact I].
    apply inv_sync_cabinet; intros; apply P_quiet; try exact I.
    destruct op; simpl in *; auto.
Qed.

Lemma inv_process_order order :
  written (ord_id order) ->
  within P R any
         (process_order remote now BigInt_of_string Date_parse toISOString order).
Proof.
  intros Hid. unfold process_order.
  apply within_try_catch; [exact R_trans| |intros e].
  - apply within_bind with (Q := any);
      [exact R_trans|now apply inv_update_order|intros ? _].
    apply within_bind with (Q := any);
      [exact R_trans|apply inv_determineCabinetsToSync|intros cs _].
    apply within_bind with (Q := any); [exact R_trans|apply inv_sync_cabinets|intros ? _].
    apply within_bind with (Q := any);
      [exact R_trans|now apply inv_update_order|intros ? _].
    now apply within_ret.
  - apply within_bind with (Q := any);
      [exact R_trans|now apply inv_update_order|intros ? _].
    now apply within_ret.
Qed.

Lemma inv_process_orders ps :
  (forall p, In p ps -> written (ord_id p)) ->
  within P R any
         (process_orders remote now BigInt_of_string Date_parse toISOString ps).
Proof.
  induction ps as [|p ps IH]; intros Hps; cbn [process_orders].
  - now apply within_ret.
  - apply within_bind with (Q := any); [exact R_trans| |intros ? _].
    + apply inv_process_order, Hps. now left.
    + apply IH. intros p' Hp'. apply Hps. now right.
Qed.

Hypothesis all_written : forall id, written id.

Lemma inv_processPending :
  within P R any
         (processPendingIdexSyncOrders remote now BigInt_of_string Date_parse toISOString).
Proof.
  unfold processPendingIdexSyncOrders.
  apply within_bind with (Q := any); [exact R_trans| |intros caught _].
  - apply within_try_catch; [exact R_trans| |intros e; now apply within_ret].
    apply within_bind with (Q := any); [exact R_trans|now apply inv_find|intros ps _].
    apply within_bind with (Q := any);
      [exact R_trans|apply inv_process_orders; intros; apply all_written|intros ? _].
    now apply within_ret.
  - destruct caught; [now apply within_ret|now apply within_throw].
Qed.

Lemma inv_watch_body :
  within P R any
    (pendingOrders <- withRetry_default (store_call (OrderFindMany PENDING)
                                                    (order_findMany PENDING)) ;;
     if Nat.ltb 0 (List.length pendingOrders)
     then processPendingIdexSyncOrders remote now BigInt_of_string Date_parse toISOString ;;
          ret tt
     else Date_now now ;; ret tt).
Proof.
  apply within_bind with (Q := any); [exact R_trans|now apply inv_find|intros ps _].
  destruct (Nat.ltb 0 _).
  - apply within_bind with (Q := any); [exact R_trans|apply inv_processPending|intros ? _].
    now apply within_ret.
  - apply within_bind with (Q := any); [exact R_trans|now apply within_Date_now|intros ? _].
    now apply within_ret.
Qed.

Lemma inv_watch_cycle checkInterval :
  within P R any
         (watch_cycle remote now BigInt_of_string Date_parse toISOString checkInterval).
Proof.
  unfold watch_cycle.
  apply within_bind with (Q := any); [exact R_trans| |intros ? _].
  - apply within_try_catch; [exact R_trans|exact inv_watch_body|].
    intros e. now apply within_ret.
  - now apply within_setTimeout.
Qed.

End Invariant.

Lemma store_grows_refl s : store_grows s s.
Proof.
  repeat split; auto. exists []. now rewrite app_nil_r.
Qed.

Lemma store_grows_trans a b c : store_grows a b -> store_grows b c -> store_grows a c.
Proof.
  intros (H1 & H2 & (x & H3) & H4 & H5) (K1 & K2 & (y & K3) & K4 & K5).
  split; [congruence|]. split; [congruence|].
  split; [exists (x ++ y)%list; rewrite K3, H3; now rewrite app_assoc|].
  split; auto.
Qed.

Lemma store_grows_create data t s : store_grows s (snd (prisma_create data t s)).
Proof.
  unfold prisma_create.
  destruct (negb (in_int64 _ && in_int64 _)); [apply store_grows_refl|].
  destruct (negb (in_int32 _ && in_int32 _)); [apply store_grows_refl|].
  destruct (existsb (fun c => cab_id c =? new_cabinetId data) (cabinets s)) eqn:Hcab;
    cbn [negb]; [|apply store_grows_refl].
  destruct (pair_present (new_externalId data) (new_cabinetId data) (transactions s)) eqn:Hnew;
    [apply store_grows_refl|].
  cbn [snd]. split; [reflexivity|]. split; [reflexivity|].
  split; [now eexists|]. cbn [transactions cabinets]. split.
  - intros Hnodup. rewrite map_app. apply NoDup_app; [assumption|repeat constructor; simpl; tauto|].
    intros p Hp [<-|[]]. apply pair_present_In in Hp. cbn in Hp. congruence.
  - intros Hfk r Hr. apply in_app_or in Hr as [Hr|[<-|[]]]; [now apply Hfk|exact Hcab].
Qed.

Lemma store_grows_update id data t s : store_grows s (snd (order_update id data t s)).
Proof.
  unfold order_update. destruct (find_order id (orders s)); [|apply store_grows_refl].
  cbn [snd]. split.
  - cbn [orders]. rewrite map_map. apply map_ext. intros o.
    destruct (ord_id o =? id); reflexivity.
  - split; [reflexivity|]. split; [exists []; cbn; now rewrite app_nil_r|]. split; auto.
Qed.

(** ** Runs of the order processor *)

(** A read behind a store call: the store is left as it is, and what
    the call returns is what the operation reads in it. *)
Lemma store_call_read {A} op (run : Store -> (JsError + A) * Store) w :
  (forall s, snd (run s) = s) ->
  exists r, store_call op run w = (r, extend w [EvStore op]) /\
            r <> OutOfFuel /\
            forall a, r = Ok a -> fst (run (store w)) = inr a.
Proof.
  intros Hro. unfold store_call. cbn [log store].
  destruct (failure (store w) (trace w) op) as [e|].
  - exists (Thrown e). split; [reflexivity|]. split; discriminate.
  - specialize (Hro (store w)).
    destruct (run (store w)) as [[e|a] s]; cbn [snd] in Hro; subst s.
    + exists (Thrown e). split; [reflexivity|]. split; discriminate.
    + exists (Ok a). split; [reflexivity|]. split; [discriminate|].
      now intros a' [= <-].
Qed.

(** A read behind [withRetry]: at most [retries] rounds of the read and a
    wait, and a last attempt; the store is left as it is and what is
    returned was read in it. *)
Lemma withRetry_read {A} op (run : Store -> (JsError + A) * Store) retries :
  (forall s, snd (run s) = s) ->
  forall delay w,
  exists r waits,
    withRetry (store_call op run) retries delay w =
    (r, extend w (rounds (EvStore op) waits ++ [EvStore op])) /\
    r <> OutOfFuel /\
    (List.length waits <= retries)%nat /\
    (forall a, r = Ok a -> fst (run (store w)) = inr a).
Proof.
  intros Hro. induction retries as [|retries IH]; intros delay w.
  - rewrite withRetry_spent.
    destruct (store_call_read op run w Hro) as (r & Hrun & Hf & Hok).
    exists r, []. rewrite Hrun. repeat split; auto.
  - destruct (store_call_read op run w Hro) as (r & Hrun & Hf & Hok).
    destruct r as [a|e|]; [| |contradiction].
    + exists (Ok a), []. rewrite (withRetry_ok _ _ _ _ _ _ Hrun).
      repeat split; auto; try discriminate. cbn. lia.
    + destruct (unreachable e) eqn:He.
      * rewrite (withRetry_again _ _ _ _ _ _ Hrun He).
        destruct (IH (Qred (delay * (3 # 2)))
                     (log (EvTimer (Some delay)) (extend w [EvStore op])))
          as (r & waits & Hrest & Hf' & Hlen & Hok').
        exists r, (Some delay :: waits). rewrite Hrest. split.
        { f_equal. rewrite log_extend, !extend_extend. reflexivity. }
        split; [assumption|]. split; [cbn [List.length]; lia|].
        intros a Ha. exact (Hok' a Ha).
      * exists (Thrown e), []. rewrite (withRetry_other _ _ _ _ _ _ Hrun He).
        repeat split; auto; try discriminate. cbn. lia.
Qed.

Lemma status_writes_rounds id op waits :
  no_order_write (EvStore op) ->
  status_writes id (rounds (EvStore op) waits ++ [EvStore op]) = [].
Proof.
  intros Hop. apply status_writes_quiet. apply Forall_app. split.
  - unfold rounds. induction waits as [|ms waits IH]; [constructor|].
    cbn [map List.concat app]. constructor; [exact Hop|]. constructor; [exact I|exact IH].
  - constructor; [exact Hop|constructor].
Qed.

Lemma write_order_found id data t s o :
  find_order id (orders s) = Some o ->
  write_order id data t s =
  {| orders := map (fun o' => if ord_id o' =? id then apply_update data t o' else o')
                   (orders s);
     cabinets := cabinets s;
     transactions := transactions s;
     failure := failure s |}.
Proof. intros H. unfold write_order, order_update. now rewrite H. Qed.

Lemma keeps_others_refl ids s : keeps_others ids s s.
Proof. intros o _ H. exact H. Qed.

Lemma keeps_others_trans ids a b c :
  keeps_others ids a b -> keeps_others ids b c -> keeps_others ids a c.
Proof. intros H1 H2 o Ho Hin. apply H2; [assumption|]. now apply H1. Qed.

Lemma keeps_others_create ids data t s :
  keeps_others ids s (snd (prisma_create data t s)).
Proof.
  destruct (same_orders_create data t s) as (Ho & _).
  intros o _ Hin. now rewrite Ho.
Qed.

Lemma keeps_others_update ids id data t s :
  In id ids -> keeps_others ids s (snd (order_update id data t s)).
Proof.
  intros Hid o Hnot Hin. unfold order_update.
  destruct (find_order id (orders s)); [|exact Hin].
  cbn [snd orders].
  apply (proj2 (In_map_update id (apply_update data t) (orders s) o (fun _ => eq_refl)
                              ltac:(intros E; apply Hnot; now rewrite E))).
  exact Hin.
Qed.

Lemma status_writes_within ids id evs :
  Forall (writes_within ids) evs -> ~ In id ids -> status_writes id evs = [].
Proof.
  intros H Hnot. induction H as [|e evs He _ IH]; [reflexivity|].
  destruct e as [rq|ms|[]]; cbn [status_writes]; try exact IH.
  simpl in He. destruct (Z.eqb_spec where_id id) as [E|]; [|exact IH].
  subst. contradiction.
Qed.

Section Orders.

Variable remote : list Event -> Request -> HttpOutcome.
Variable now : list Event -> Z.
Variable BigInt_of_string : string -> option Z.
Variable Date_parse : string -> option Z.
Variable toISOString : Z -> string.

(** A write to an order that exists, when the store serves it, succeeds
    at the first attempt. *)
Lemma update_order_existing id data w o :
  find_order id (orders (store w)) = Some o ->
  failure (store w) (trace w) (OrderUpdateOp id (data (now (trace w)))) = None ->
  update_order now id data w =
  (Ok (apply_update (data (now (trace w))) (now (trace w)) o),
   {| store := write_order id (data (now (trace w))) (now (trace w)) (store w);
      trace := (trace w ++ [EvStore (OrderUpdateOp id (data (now (trace w))))])%list |}).
Proof.
  intros H Hserved. unfold update_order, withRetry_default. apply withRetry_ok.
  unfold bind, Date_now. rewrite store_call_served by assumption.
  unfold write_order, order_update. rewrite H. reflexivity.
Qed.

(** The resolution of the cabinets of an order, when the store serves
    the query. *)
Lemma determineCabinetsToSync_spec order w :
  failure (store w) (trace w) (cabinet_query order) = None ->
  determineCabinetsToSync order w =
  (cabinets_to_sync order (store w), extend w [EvStore (cabinet_query order)]).
Proof.
  assert (Hall : failure (store w) (trace w) CabinetFindMany = None ->
                 (cabinets <- withRetry_default (store_call CabinetFindMany cabinet_findMany) ;;
                  if Nat.eqb (List.length cabinets) 0
                  then throw (Error "В базе данных не найдено кабинетов")
                  else ret cabinets) w =
                 (all_cabinets (store w), extend w [EvStore CabinetFindMany])).
  { intros Hserved. unfold bind at 1.
    rewrite (withRetry_store_call_ok CabinetFindMany cabinet_findMany w
               (cabinets (store w)) (store w) Hserved eq_refl).
    unfold all_cabinets. destruct (cabinets (store w)); reflexivity. }
  unfold determineCabinetsToSync, cabinets_to_sync, cabinet_query.
  destruct (ord_cabinetId order) as [cabinetId|]; [|exact Hall].
  destruct (cabinetId =? 0); [exact Hall|].
  intros Hserved. unfold bind at 1.
  rewrite (withRetry_store_call_ok (CabinetFindUnique cabinetId) (cabinet_findUnique cabinetId) w
             (find (fun c => cab_id c =? cabinetId) (cabinets (store w))) (store w)
             Hserved eq_refl).
  destruct (find _ (cabinets (store w))); reflexivity.
Qed.

(** Whatever the store does, the resolution ends and writes to no
    order. *)
Lemma quiet_determineCabinetsToSync order :
  within no_order_write same_orders any (determineCabinetsToSync order).
Proof.
  assert (Hall : within no_order_write same_orders any
                   (cabinets <- withRetry_default (store_call CabinetFindMany cabinet_findMany) ;;
                    if Nat.eqb (List.length cabinets) 0
                    then throw (Error "В базе данных не найдено кабинетов")
                    else ret cabinets)).
  { apply within_bind with (Q := any); [exact same_orders_trans| |intros cs _].
    - apply quiet_withRetry_store_call; [exact I|]. intros s. apply same_orders_refl.
    - destruct (Nat.eqb _ 0); quiet_end. }
  unfold determineCabinetsToSync.
  destruct (ord_cabinetId order) as [cabinetId|]; [|exact Hall].
  destruct (cabinetId =? 0); [exact Hall|].
  apply within_bind with (Q := any); [exact same_orders_trans| |intros c _].
  - apply quiet_withRetry_store_call; [exact I|]. intros s. apply same_orders_refl.
  - destruct c; quiet_end.
Qed.

(** The loop over the cabinets never throws: it yields one entry per
    cabinet and writes to no order. *)
Lemma sync_cabinets_synced order cs : forall i acc w,
  exists entries w' evs,
    sync_cabinets remote now BigInt_of_string Date_parse toISOString order i cs acc w =
    (Ok (acc ++ entries)%list, w') /\
    synced remote now BigInt_of_string Date_parse toISOString order i cs w entries w' /\
    same_orders (store w) (store w') /\
    trace w' = (trace w ++ evs)%list /\ Forall no_order_write evs.
Proof.
  induction cs as [|c cs IH]; intros i acc w.
  - exists [], w, []. cbn. rewrite !app_nil_r.
    repeat split; auto. constructor.
  - cbn [sync_cabinets]. unfold bind at 1, try_catch.
    destruct (quiet_sync_cabinet remote now BigInt_of_string Date_parse toISOString order i c w)
      as (r & w1 & evs1 & Hrun & Hfuel & HQ & HR1 & Htr1 & HP1).
    rewrite Hrun. destruct r as [e|err|]; [| |contradiction].
    + destruct (HQ e eq_refl) as (n & m & ->).
      destruct (IH (i + 1) (acc ++ [CabinetSynced (cab_id c) n m])%list w1)
        as (entries & w' & evs & Hloop & Hsync & HR & Htr & HP).
      exists (CabinetSynced (cab_id c) n m :: entries), w', (evs1 ++ evs)%list.
      rewrite Hloop, <- app_assoc. split; [reflexivity|].
      split; [now apply synced_done with (w1 := w1)|].
      split; [eapply same_orders_trans; eassumption|].
      split; [rewrite Htr, Htr1; now rewrite app_assoc|].
      apply Forall_app. now split.
    + cbn [ret].
      destruct (IH (i + 1) (acc ++ [CabinetFailed (cab_id c) (message err)])%list w1)
        as (entries & w' & evs & Hloop & Hsync & HR & Htr & HP).
      exists (CabinetFailed (cab_id c) (message err) :: entries), w', (evs1 ++ evs)%list.
      rewrite Hloop, <- app_assoc. split; [reflexivity|].
      split; [now apply synced_failed with (w1 := w1)|].
      split; [eapply same_orders_trans; eassumption|].
      split; [rewrite Htr, Htr1; now rewrite app_assoc|].
      apply Forall_app. now split.
Qed.

Lemma compose_updates id (f g : IdexSyncOrder -> IdexSyncOrder) l :
  (forall o', ord_id (f o') = ord_id o') ->
  map (fun o' => if ord_id o' =? id then g o' else o')
      (map (fun o' => if ord_id o' =? id then f o' else o') l) =
  map (fun o' => if ord_id o' =? id then g (f o') else o') l.
Proof.
  intros Hf. rewrite map_map. apply map_ext. intros a.
  destruct (Z.eqb_spec (ord_id a) id) as [Ha|Ha].
  - rewrite Hf. destruct (Z.eqb_spec (ord_id a) id); [reflexivity|contradiction].
  - destruct (Z.eqb_spec (ord_id a) id); [contradiction|reflexivity].
Qed.

(** One order, over a store that serves the operations on the orders: it
    is written IN_PROGRESS, then COMPLETED when its cabinets resolve and
    FAILED when they do not; nothing else is written to any order. *)
Lemma process_order_spec order w o :
  find_order (ord_id order) (orders (store w)) = Some o ->
  serves on_orders (store w) ->
  exists w' evs (final : IdexSyncOrder -> IdexSyncOrder) s,
    process_order remote now BigInt_of_string Date_parse toISOString order w = (Ok tt, w') /\
    trace w' = (trace w ++ evs)%list /\
    orders (store w') =
      map (fun o' => if ord_id o' =? ord_id order then final o' else o') (orders (store w)) /\
    cabinets (store w') = cabinets (store w) /\
    failure (store w') = failure (store w) /\
    (forall o', ord_id (final o') = ord_id o' /\ ord_status (final o') = s) /\
    (forall id, status_writes id evs =
                if id =? ord_id order then [IN_PROGRESS; s] else []) /\
    (s = COMPLETED \/ s = FAILED).
Proof.
  intros Hfind Hserves. unfold process_order, try_catch.
  pose proof (update_order_existing (ord_id order) started w o Hfind
                (Hserves (trace w) (OrderUpdateOp (ord_id order) (started (now (trace w))))
                         eq_refl)) as H1.
  rewrite (write_order_found _ _ _ _ _ Hfind) in H1.
  set (t1 := now (trace w)) in *.
  set (f1 := apply_update (started t1) t1) in *.
  match type of H1 with _ = (_, ?x) => set (w1 := x) in * end.
  unfold bind at 1. rewrite H1.
  destruct (quiet_determineCabinetsToSync order w1)
    as (rd & w2 & evs2 & Hd & Hfd & _ & (Ho2 & Hc2 & Hf2) & Htr2 & HP2).
  unfold bind at 1. rewrite Hd.
  assert (Hf1 : forall o', ord_id (f1 o') = ord_id o') by reflexivity.
  assert (Hfind2 : find_order (ord_id order) (orders (store w2)) = Some (f1 o)).
  { rewrite Ho2. subst w1. cbn [store orders]. now apply find_order_map. }
  destruct rd as [cs|e|]; [| |contradiction].
  - (* the cabinets resolve *)
    destruct (sync_cabinets_synced order cs 0 [] w2)
      as (entries & w3 & evs3 & Hloop & Hsync & (Ho3 & Hc3 & Hf3) & Htr3 & HP3).
    unfold bind at 1. rewrite Hloop. cbn [app].
    assert (Hfind3 : find_order (ord_id order) (orders (store w3)) = Some (f1 o))
      by now rewrite Ho3.
    pose proof (update_order_existing (ord_id order) (completed entries) w3 (f1 o) Hfind3)
      as H4.
    rewrite (write_order_found _ _ _ _ _ Hfind3) in H4.
    set (t4 := now (trace w3)) in *.
    unfold bind at 1. rewrite H4
      by (rewrite Hf3, Hf2; subst w1; cbn [store failure]; now apply Hserves).
    cbn [bind ret].
    eexists. exists ([EvStore (OrderUpdateOp (ord_id order) (started t1))] ++ evs2 ++ evs3
                     ++ [EvStore (OrderUpdateOp (ord_id order) (completed entries t4))])%list,
             (fun o' => apply_update (completed entries t4) t4 (f1 o')), COMPLETED.
    split; [reflexivity|]. cbn [store trace orders cabinets failure].
    split.
    { rewrite Htr3, Htr2. subst w1. cbn [trace]. now rewrite <- !app_assoc. }
    split.
    { rewrite Ho3, Ho2. subst w1. cbn [store orders]. now apply compose_updates. }
    split.
    { rewrite Hc3, Hc2. reflexivity. }
    split.
    { rewrite Hf3, Hf2. reflexivity. }
    split; [intros o'; split; reflexivity|].
    split; [|now left].
    intros id.
    rewrite !status_writes_app, (status_writes_quiet id evs2 HP2),
      (status_writes_quiet id evs3 HP3).
    cbn [app status_writes upd_status started completed].
    rewrite (Z.eqb_sym id). destruct (ord_id order =? id); reflexivity.
  - (* the resolution throws *)
    pose proof (update_order_existing (ord_id order) (failed_with e) w2 (f1 o) Hfind2) as H4.
    rewrite (write_order_found _ _ _ _ _ Hfind2) in H4.
    set (t4 := now (trace w2)) in *.
    unfold bind at 1. rewrite H4
      by (rewrite Hf2; subst w1; cbn [store failure]; now apply Hserves).
    cbn [bind ret].
    eexists. exists ([EvStore (OrderUpdateOp (ord_id order) (started t1))] ++ evs2
                     ++ [EvStore (OrderUpdateOp (ord_id order) (failed_with e t4))])%list,
             (fun o' => apply_update (failed_with e t4) t4 (f1 o')), FAILED.
    split; [reflexivity|]. cbn [store trace orders cabinets failure].
    split.
    { rewrite Htr2. subst w1. cbn [trace]. now rewrite <- !app_assoc. }
    split.
    { rewrite Ho2. subst w1. cbn [store orders]. now apply compose_updates. }
    split.
    { rewrite Hc2. reflexivity. }
    split.
    { rewrite Hf2. reflexivity. }
    split; [intros o'; split; reflexivity|].
    split; [|now right].
    intros id.
    rewrite !status_writes_app, (status_writes_quiet id evs2 HP2).
    cbn [app status_writes upd_status started failed_with].
    rewrite (Z.eqb_sym id). destruct (ord_id order =? id); reflexivity.
Qed.


(** The loop over the pending orders, over a store that serves the
    operations on the orders. *)
Lemma process_orders_spec ps : forall w,
  NoDup (map ord_id ps) ->
  serves on_orders (store w) ->
  (forall p, In p ps -> In (ord_id p) (map ord_id (orders (store w)))) ->
  exists w' evs,
    process_orders remote now BigInt_of_string Date_parse toISOString ps w = (Ok tt, w') /\
    trace w' = (trace w ++ evs)%list /\
    map ord_id (orders (store w')) = map ord_id (orders (store w)) /\
    failure (store w') = failure (store w) /\
    (forall o, ~ In (ord_id o) (map ord_id ps) ->
               (In o (orders (store w')) <-> In o (orders (store w)))) /\
    (forall id, ~ In id (map ord_id ps) -> status_writes id evs = []) /\
    (forall p, In p ps ->
       exists s, (s = COMPLETED \/ s = FAILED) /\
                 status_writes (ord_id p) evs = [IN_PROGRESS; s] /\
                 forall o', In o' (orders (store w')) -> ord_id o' = ord_id p ->
                            ord_status o' = s).
Proof.
  induction ps as [|p ps IH]; intros w Hnodup Hserves Hin.
  - exists w, []. cbn. rewrite app_nil_r. repeat split; auto; contradiction.
  - inversion Hnodup as [|? ? Hp Hnodup']; subst.
    destruct (find_order_In (ord_id p) (orders (store w)) (Hin p (or_introl eq_refl))) as (o & Ho).
    destruct (process_order_spec p w o Ho Hserves)
      as (w1 & evs1 & final & s & Hrun & Htr1 & Hord1 & _ & Hfail1 & Hfinal & Hwrites & Hs').
    assert (Hid : forall o', ord_id (final o') = ord_id o') by (intros o'; apply Hfinal).
    assert (Hids1 : map ord_id (orders (store w1)) = map ord_id (orders (store w))).
    { rewrite Hord1. now apply map_update_ids. }
    destruct (IH w1 Hnodup') as (w' & evs & Hloop & Htr & Hids & Hfail & Hkeep & Hquiet & Hdone).
    { intros tr op Hop. rewrite Hfail1. now apply Hserves. }
    { intros p' Hp'. rewrite Hids1. apply Hin. now right. }
    exists w', (evs1 ++ evs)%list. cbn [process_orders]. unfold bind at 1.
    rewrite Hrun, Hloop. split; [reflexivity|].
    split; [rewrite Htr, Htr1; now rewrite app_assoc|].
    split; [congruence|].
    split; [congruence|].
    split; [|split].
    + intros a Ha. cbn [map In] in Ha.
      rewrite (Hkeep a) by tauto. rewrite Hord1.
      apply In_map_update; [assumption|]. intros E. apply Ha. now left.
    + intros id Ha. cbn [map In] in Ha.
      rewrite status_writes_app, Hwrites, (Hquiet id) by tauto.
      destruct (Z.eqb_spec id (ord_id p)); [|reflexivity]. exfalso. apply Ha. now left.
    + intros p' [<-|Hp'].
      * exists s. split; [assumption|]. split.
        -- rewrite status_writes_app, Hwrites, Z.eqb_refl, (Hquiet (ord_id p) Hp).
           reflexivity.
        -- intros o' Ho' Heq.
           apply (Hkeep o') in Ho'; [|now rewrite Heq].
           rewrite Hord1 in Ho'. apply in_map_iff in Ho' as (a & Ha & _).
           destruct (Z.eqb_spec (ord_id a) (ord_id p)) as [|Hne].
           ++ subst o'. apply Hfinal.
           ++ subst o'. contradiction.
      * destruct (Hdone p' Hp') as (s' & Hs'' & Hw' & Hrows).
        exists s'. split; [assumption|]. split; [|assumption].
        rewrite status_writes_app, Hwrites, Hw'.
        destruct (Z.eqb_spec (ord_id p') (ord_id p)) as [E|]; [|reflexivity].
        exfalso. apply Hp. rewrite <- E. now apply in_map.
Qed.



End Orders.

Lemma NoDup_map_eq {A B} (f : A -> B) l a b :
  NoDup (map f l) -> In a l -> In b l -> f a = f b -> a = b.
Proof.
  induction l as [|x l IH]; intros Hnd Ha Hb Hf; [contradiction|].
  inversion Hnd as [|? ? Hx Hnd']; subst.
  destruct Ha as [->|Ha], Hb as [->|Hb]; auto.
  - exfalso. apply Hx. rewrite Hf. now apply in_map.
  - exfalso. apply Hx. rewrite <- Hf. now apply in_map.
Qed.

Lemma not_pending_id (l : list IdexSyncOrder) o :
  NoDup (map ord_id l) -> In o l -> ord_status o <> PENDING ->
  ~ In (ord_id o)
       (map ord_id (filter (fun o' => status_eqb (ord_status o') PENDING) l)).
Proof.
  intros Hnodup Ho Hst Hin. apply in_map_iff in Hin as (p & Hid & Hp).
  apply filter_In in Hp as [Hp Hpend].
  assert (p = o) by (eapply NoDup_map_eq; eassumption). subst p.
  destruct (ord_status o); try discriminate. now apply Hst.
Qed.

(** What a run of the order processor does to the orders over a store
    that serves the operations on them: the pending ones go through
    IN_PROGRESS to COMPLETED or FAILED, the other ones are left as they
    are. *)
Lemma processPending_runs remote now BigInt_of_string Date_parse toISOString w :
  NoDup (map ord_id (orders (store w))) ->
  serves on_orders (store w) ->
  exists w' evs,
    processPendingIdexSyncOrders remote now BigInt_of_string Date_parse toISOString w =
    (Thrown (Error "pendingOrders is not defined"), w') /\
    trace w' = (trace w ++ evs)%list /\
    map ord_id (orders (store w')) = map ord_id (orders (store w)) /\
    failure (store w') = failure (store w) /\
    forall o, In o (orders (store w)) ->
      match ord_status o with
      | PENDING =>
          exists s, (s = COMPLETED \/ s = FAILED) /\
                    status_writes (ord_id o) evs = [IN_PROGRESS; s] /\
                    exists o', In o' (orders (store w')) /\ ord_id o' = ord_id o /\
                               ord_status o' = s
      | _ => In o (orders (store w')) /\ status_writes (ord_id o) evs = []
      end.
Proof.
  intros Hnodup Hserves.
  set (pending := filter (fun o => status_eqb (ord_status o) PENDING) (orders (store w))).
  set (w0 := with_store (store w) (log (EvStore (OrderFindMany PENDING)) w)).
  destruct (process_orders_spec remote now BigInt_of_string Date_parse toISOString pending w0)
    as (w' & evs & Hloop & Htr & Hids & Hfail & Hkeep & Hquiet & Hdone).
  { now apply NoDup_map_filter. }
  { exact Hserves. }
  { intros p Hp. apply filter_In in Hp as [Hp _]. now apply in_map. }
  exists w', (EvStore (OrderFindMany PENDING) :: evs).
  split.
  { unfold processPendingIdexSyncOrders. unfold bind at 1, try_catch. unfold bind at 1.
    rewrite (withRetry_store_call_ok (OrderFindMany PENDING) (order_findMany PENDING) w
               pending (store w) (Hserves (trace w) (OrderFindMany PENDING) eq_refl) eq_refl).
    fold w0. unfold bind at 1. rewrite Hloop. reflexivity. }
  split.
  { rewrite Htr. subst w0. cbn [with_store log trace]. now rewrite <- app_assoc. }
  split; [exact Hids|].
  split; [exact Hfail|].
  intros o Ho.
  assert (Hother : ord_status o <> PENDING ->
                   In o (orders (store w')) /\
                   status_writes (ord_id o) (EvStore (OrderFindMany PENDING) :: evs) = []).
  { intros Hst.
    pose proof (not_pending_id _ o Hnodup Ho Hst) as Hnot.
    split; [now apply Hkeep|]. cbn [status_writes]. now apply Hquiet. }
  destruct (ord_status o) eqn:Hst; try (apply Hother; discriminate).
  assert (Hp : In o pending) by (apply filter_In; split; [assumption|now rewrite Hst]).
  destruct (Hdone o Hp) as (s & Hs & Hw & Hrows).
  exists s. split; [assumption|]. split; [exact Hw|].
  assert (Hin : In (ord_id o) (map ord_id (orders (store w')))).
  { rewrite Hids. subst w0. cbn. now apply in_map. }
  apply in_map_iff in Hin as (o' & Hid & Ho').
  exists o'. repeat split; auto.
Qed.

(** Whatever the store does, a run of the order processor ends by
    returning 0 or by throwing, and an order that is not pending is not
    written to and stays as it is. *)
Lemma processPending_others remote now BigInt_of_string Date_parse toISOString w :
  NoDup (map ord_id (orders (store w))) ->
  exists r w' evs,
    processPendingIdexSyncOrders remote now BigInt_of_string Date_parse toISOString w =
    (r, w') /\
    (r = Ok 0 \/ exists e, r = Thrown e) /\
    trace w' = (trace w ++ evs)%list /\
    forall o, In o (orders (store w)) -> ord_status o <> PENDING ->
              In o (orders (store w')) /\ status_writes (ord_id o) evs = [].
Proof.
  intros Hnodup.
  destruct (withRetry_read (OrderFindMany PENDING) (order_findMany PENDING) 3
                           (fun s => eq_refl) 2000%Q w)
    as (r0 & waits & Hq & Hf0 & _ & Hok).
  set (evs0 := (rounds (EvStore (OrderFindMany PENDING)) waits ++
                [EvStore (OrderFindMany PENDING)])%list) in *.
  assert (Hquiet0 : forall id, status_writes id evs0 = []).
  { intros id. now apply status_writes_rounds. }
  unfold processPendingIdexSyncOrders. unfold bind at 1, try_catch. unfold bind at 1.
  unfold withRetry_default. rewrite Hq.
  destruct r0 as [ps|e|]; [| |contradiction].
  - specialize (Hok ps eq_refl). cbn in Hok. injection Hok as Hps.
    set (ids := map ord_id ps).
    assert (HPq : forall e, no_order_write e -> writes_within ids e).
    { intros [rq|ms|[]]; simpl; auto. contradiction. }
    destruct (inv_process_orders remote now BigInt_of_string Date_parse toISOString
                (writes_within ids) (keeps_others ids)
                (fun _ => I) (keeps_others_refl ids) (keeps_others_trans ids)
                (keeps_others_create ids) (fun id => In id ids) HPq
                (fun id data H => H)
                (fun id data t s H => keeps_others_update ids id data t s H)
                ps (fun p Hp => in_map ord_id ps p Hp) (extend w evs0))
      as (r1 & w1 & evs1 & Hrun & Hf1 & _ & HR & Htr & HP).
    unfold bind at 1. rewrite Hrun.
    assert (Hothers : forall o, In o (orders (store w)) -> ord_status o <> PENDING ->
                      In o (orders (store w1)) /\
                      status_writes (ord_id o) (evs0 ++ evs1) = []).
    { intros o Ho Hst.
      assert (Hnot : ~ In (ord_id o) ids).
      { subst ids. rewrite <- Hps. now apply not_pending_id. }
      split; [now apply HR|].
      rewrite status_writes_app, Hquiet0. now apply (status_writes_within ids). }
    assert (Htrace : trace w1 = (trace w ++ evs0 ++ evs1)%list).
    { rewrite Htr. cbn [extend trace]. now rewrite app_assoc. }
    destruct r1 as [[]|e|]; [| |contradiction].
    + eexists. exists w1, (evs0 ++ evs1)%list. split; [reflexivity|].
      split; [right; now eexists|]. split; assumption.
    + exists (Ok 0), w1, (evs0 ++ evs1)%list. split; [reflexivity|].
      split; [now left|]. split; assumption.
  - exists (Ok 0), (extend w evs0), evs0. split; [reflexivity|].
    split; [now left|]. split; [reflexivity|].
    intros o Ho _. split; [exact Ho|apply Hquiet0].
Qed.

(** C4 (amended): in a run of the order processor over a store whose
    orders have distinct ids, an order that is not PENDING is not written
    to and stays as it is, whatever the store does; and when the store
    serves the operations on the orders, every order that is PENDING is
    written IN_PROGRESS and then COMPLETED or FAILED, these being its only
    two writes, and ends in that status. *)
Theorem order_status_transitions remote now BigInt_of_string Date_parse toISOString w :
  NoDup (map ord_id (orders (store w))) ->
  exists r w' evs,
    processPendingIdexSyncOrders remote now BigInt_of_string Date_parse toISOString w =
    (r, w') /\
    r <> OutOfFuel /\
    trace w' = (trace w ++ evs)%list /\
    (forall o, In o (orders (store w)) -> ord_status o <> PENDING ->
               In o (orders (store w')) /\ status_writes (ord_id o) evs = []) /\
    (serves on_orders (store w) ->
     forall o, In o (orders (store w)) -> ord_status o = PENDING ->
       exists s, (s = COMPLETED \/ s = FAILED) /\
                 status_writes (ord_id o) evs = [IN_PROGRESS; s] /\
                 exists o', In o' (orders (store w')) /\ ord_id o' = ord_id o /\
                            ord_status o' = s).
Proof.
  intros Hnodup.
  destruct (processPending_others remote now BigInt_of_string Date_parse toISOString w Hnodup)
    as (r & w' & evs & Hrun & Hr & Htr & Hothers).
  exists r, w', evs. split; [exact Hrun|].
  split; [destruct Hr as [->|(e & ->)]; discriminate|].
  split; [exact Htr|]. split; [exact Hothers|].
  intros Hserves o Ho Hst.
  destruct (processPending_runs remote now BigInt_of_string Date_parse toISOString w
                                Hnodup Hserves)
    as (w2 & evs2 & Hrun2 & Htr2 & _ & _ & Horders).
  rewrite Hrun in Hrun2. injection Hrun2 as _ <-.
  rewrite Htr in Htr2. apply app_inv_head in Htr2. subst evs2.
  specialize (Horders o Ho). rewrite Hst in Horders. exact Horders.
Qed.

Lemma order_status_transitions_witness :
  exists r w' evs,
    processPendingIdexSyncOrders first_refused epoch no_bigint no_date iso world_with_orders =
    (r, w') /\
    r <> OutOfFuel /\
    trace w' = (trace world_with_orders ++ evs)%list /\
    forall o, In o (orders store_with_orders) ->
      match ord_status o with
      | PENDING =>
          exists s, (s = COMPLETED \/ s = FAILED) /\
                    status_writes (ord_id o) evs = [IN_PROGRESS; s] /\
                    exists o', In o' (orders (store w')) /\ ord_id o' = ord_id o /\
                               ord_status o' = s
      | _ => In o (orders (store w')) /\ status_writes (ord_id o) evs = []
      end.
Proof.
  destruct (order_status_transitions first_refused epoch no_bigint no_date iso
                                     world_with_orders)
    as (r & w' & evs & Hrun & Hf & Htr & Hothers & Hpending).
  - repeat constructor; simpl; intuition discriminate.
  - exists r, w', evs. split; [exact Hrun|]. split; [exact Hf|]. split; [exact Htr|].
    intros o Ho. destruct (ord_status o) eqn:Hst.
    + apply Hpending; [intros tr op _; reflexivity|exact Ho|exact Hst].
    + apply Hothers; [exact Ho|congruence].
    + apply Hothers; [exact Ho|congruence].
    + apply Hothers; [exact Ho|congruence].
Defined.

(** C4 as stated fails: order 1 is PENDING and the store rejects the
    write that claims it; the run picks the order up and writes it FAILED,
    with the error of the rejection as its result, without its ever having
    been IN_PROGRESS (it was never started). *)
Lemma order_fails_without_being_claimed :
  option_map ord_status (find_order 1 (orders claims_rejected)) = Some PENDING /\
  exists r w' o',
    processPendingIdexSyncOrders first_refused epoch no_bigint no_date iso
                                 {| store := claims_rejected; trace := [] |} = (r, w') /\
    find_order 1 (orders (store w')) = Some o' /\
    ord_status o' = FAILED /\
    ord_startSyncAt o' = None /\
    ord_processed o' = Some (ProcessedError "Server has closed the connection.").
Proof.
  split; [reflexivity|].
  do 3 eexists. split; [vm_compute; reflexivity|].
  split; [reflexivity|]. repeat split.
Qed.

(** When the store rejects the write that fails an order too, the run
    ends there: it returns 0, the order is still PENDING, and the pending
    orders after it are not processed. *)
Example rejected_writes_end_the_run :
  exists w',
    processPendingIdexSyncOrders first_refused epoch no_bigint no_date iso
                                 {| store := writes_rejected; trace := [] |} = (Ok 0, w') /\
    orders (store w') = orders store_with_orders /\
    status_writes 1 (trace w') = [IN_PROGRESS; FAILED] /\
    status_writes 3 (trace w') = [].
Proof. eexists. split; [vm_compute; reflexivity|]. repeat split. Qed.




(** The scenario of the specification: the login of the first cabinet is
    answered 401, the second cabinet is synced; the order ends COMPLETED
    with an error entry and a success entry. *)
Example refused_cabinet_scenario :
  refuses first_refused (cabinet 1 "first") /\
  option_map (fun o => (ord_status o, ord_processed o))
    (find_order 1
       (orders (store (snd (process_order first_refused epoch no_bigint no_date iso
                                          (order_row 1 None PENDING [2])
                                          world_with_orders))))) =
  Some (COMPLETED,
        Some (ProcessedResults [CabinetFailed 1 "Request failed with status code 401";
                                CabinetSynced 2 2 2])).
Proof.
  split.
  - intros tr. simpl. eexists. split; reflexivity.
  - vm_compute. reflexivity.
Qed.

(** * Further properties *)

(** ** Numbers and strings *)

Lemma read_digits_uint d : forall acc,
  read_digits 10 (Some acc) (NilEmpty.string_of_uint d) = Some (uint_value d acc).
Proof.
  induction d; intros acc; cbn [NilEmpty.string_of_uint uint_value read_digits];
    [reflexivity|..]; apply IHd.
Qed.

Lemma uint_value_pos d : forall p,
  uint_value d (Z.pos p) = Z.pos (Pos.of_uint_acc d p).
Proof.
  induction d; intros p; cbn [uint_value Pos.of_uint_acc]; [reflexivity|..];
    rewrite <- IHd; f_equal; lia.
Qed.

Lemma uint_value_0 d : uint_value d 0 = Z.of_N (Pos.of_uint d).
Proof.
  induction d; cbn [uint_value Pos.of_uint]; try exact IHd; try reflexivity;
    cbn [Z.mul Z.add Z.of_N]; apply uint_value_pos.
Qed.

(** The digits of a number, read without digits read before. *)
Lemma read_digits_start d :
  d <> Decimal.Nil ->
  read_digits 10 None (NilEmpty.string_of_uint d) = Some (uint_value d 0).
Proof.
  intros Hd.
  destruct d as [|d|d|d|d|d|d|d|d|d|d]; [contradiction|..];
    cbn [NilEmpty.string_of_uint uint_value]; cbn [read_digits];
    cbn; apply read_digits_uint.
Qed.

(** An integer below 2^53 is a Number. *)
Lemma to_number_exact n : 0 <= n < 2 ^ 53 -> to_number false n = Finite n.
Proof.
  intros [H0 H1]. unfold to_number, nearest_double.
  destruct (Z.ltb_spec n (2 ^ 53)) as [_|H]; [|exfalso; apply (Z.lt_irrefl n); lia].
  assert (Hpow : 2 ^ 53 < 2 ^ 1024) by (apply Z.pow_lt_mono_r; lia).
  destruct (Z.leb_spec (2 ^ 1024) n) as [H|_]; [|reflexivity].
  exfalso. apply (Z.lt_irrefl n). eapply Z.lt_le_trans; [|exact H].
  eapply Z.lt_trans; eassumption.
Qed.

(** [parseInt] reads the digits of a number back. *)
Lemma parseInt_uint d :
  d <> Decimal.Nil ->
  parseInt (NilEmpty.string_of_uint d) = to_number false (uint_value d 0).
Proof.
  intros Hd.
  change (to_number false (uint_value d 0))
    with (number_of false (Some (uint_value d 0))).
  rewrite <- (read_digits_start d Hd).
  destruct d as [|d|d|d|d|d|d|d|d|d|d]; [contradiction|..];
    try reflexivity.
  destruct d as [|d|d|d|d|d|d|d|d|d|d]; reflexivity.
Qed.

(** [parseInt(String(n))] is [n] for a number that is not negative and
    is below 2^53. *)
Lemma parseInt_decimal n : 0 <= n < 2 ^ 53 -> parseInt (decimal n) = Finite n.
Proof.
  intros Hn. unfold decimal.
  pose proof (DecimalZ.of_to n) as Hback.
  destruct n as [|p|p]; [reflexivity| |exfalso; destruct Hn as [Hn _]; now apply Hn].
  cbn [Z.to_int NilEmpty.string_of_int] in *.
  rewrite parseInt_uint.
  - rewrite uint_value_0.
    replace (Z.of_N (Pos.of_uint (Pos.to_uint p))) with (Z.pos p)
      by (symmetry; exact Hback).
    now apply to_number_exact.
  - intros Hnil. rewrite Hnil in Hback. discriminate.
Qed.

Lemma split_not_nil sep s : split sep s <> [].
Proof.
  destruct s as [|c s]; cbn [split]; [discriminate|].
  destruct (Ascii.eqb c sep); [discriminate|].
  destruct (split sep s); discriminate.
Qed.

Lemma concat_cons sep x l :
  l <> [] -> String.concat sep (x :: l) = (x ++ sep ++ String.concat sep l)%string.
Proof. destruct l; [contradiction|reflexivity]. Qed.

(** Joining what [split] gave with the separator gives the string back. *)
Lemma join_split sep s : join (String sep EmptyString) (split sep s) = s.
Proof.
  unfold join. induction s as [|c s IH]; [reflexivity|].
  cbn [split]. destruct (Ascii.eqb_spec c sep) as [->|Hc].
  - rewrite concat_cons by apply split_not_nil. rewrite IH. reflexivity.
  - pose proof (split_not_nil sep s) as Hne.
    destruct (split sep s) as [|first others]; [contradiction|].
    destruct others as [|second others].
    + cbn [String.concat] in *. now rewrite IH.
    + rewrite concat_cons by discriminate.
      rewrite concat_cons in IH by discriminate.
      cbn [append] in IH |- *. now rewrite IH.
Qed.

Lemma has_char_app c a b : has_char c (a ++ b) = has_char c a || has_char c b.
Proof.
  induction a as [|c' a IH]; [reflexivity|].
  cbn [append has_char]. now rewrite IH, orb_assoc.
Qed.

Lemma split_without sep s : has_char sep s = false -> split sep s = [s].
Proof.
  induction s as [|c s IH]; [reflexivity|].
  cbn [has_char split]. intros H. apply orb_false_iff in H as [Hc Hs].
  rewrite Hc, (IH Hs). reflexivity.
Qed.

Lemma split_at_first sep a b :
  has_char sep a = false -> split sep (a ++ String sep b) = a :: split sep b.
Proof.
  induction a as [|c a IH]; cbn [append has_char split].
  - intros _. now rewrite Ascii.eqb_refl.
  - intros H. apply orb_false_iff in H as [Hc Ha].
    rewrite Hc, (IH Ha). reflexivity.
Qed.

Lemma append_assoc3 a b c : ((a ++ b) ++ c = a ++ b ++ c)%string.
Proof. induction a as [|x a IH]; cbn [append]; [reflexivity|now rewrite IH]. Qed.

Lemma cookie_name_value_parse nm val rest :
  has_char "=" nm = false -> has_char ";" nm = false -> has_char ";" val = false ->
  rest = EmptyString \/ (exists attrs, rest = String ";" attrs) ->
  cookie_name_value (nm ++ "=" ++ val ++ rest) = (nm, val).
Proof.
  intros Heq Hsemi Hval Hrest. unfold cookie_name_value.
  assert (Hfirst : hd EmptyString (split ";" (nm ++ "=" ++ val ++ rest)) = nm ++ "=" ++ val).
  { assert (Hnone : has_char ";" (nm ++ "=" ++ val) = false).
    { rewrite has_char_app, Hsemi. cbn [append has_char orb]. exact Hval. }
    destruct Hrest as [->|(attrs & ->)].
    - replace (val ++ EmptyString) with val
        by (clear; induction val as [|c v IH]; cbn [append]; [reflexivity|now rewrite <- IH]).
      now rewrite split_without.
    - replace (nm ++ "=" ++ val ++ String ";" attrs)
        with ((nm ++ "=" ++ val) ++ String ";" attrs)
        by (rewrite append_assoc3; reflexivity).
      now rewrite split_at_first. }
  rewrite Hfirst. cbn [append]. rewrite (split_at_first "=" nm val Heq).
  cbn [hd tl]. now rewrite join_split.
Qed.

(** X1: the name of a cookie is what precedes the first [=] of its
    [Set-Cookie] header and its value is everything between that [=] and
    the first [;]: a value that contains [=] itself is kept whole, and the
    attributes after the [;] are dropped. *)
Theorem cookie_value_is_kept_whole nm val attrs :
  has_char "=" nm = false -> has_char ";" nm = false -> has_char ";" val = false ->
  cookie_name_value (nm ++ "=" ++ val) = (nm, val) /\
  cookie_name_value (nm ++ "=" ++ val ++ ";" ++ attrs) = (nm, val).
Proof.
  intros Heq Hsemi Hval. split.
  - rewrite <- (cookie_name_value_parse nm val EmptyString Heq Hsemi Hval (or_introl eq_refl)).
    f_equal. f_equal. f_equal.
    clear. induction val as [|c v IH]; cbn [append]; [reflexivity|now rewrite <- IH].
  - apply cookie_name_value_parse; try assumption. right. now exists attrs.
Qed.

Lemma cookie_value_is_kept_whole_witness :
  cookie_name_value "sid=dG9rZW4=" = ("sid", "dG9rZW4=") /\
  cookie_name_value "sid=dG9rZW4=; Path=/; HttpOnly" = ("sid", "dG9rZW4=").
Proof.
  apply (cookie_value_is_kept_whole "sid" "dG9rZW4=" " Path=/; HttpOnly"); reflexivity.
Defined.

(** X2: the session values make the round trip from the [Set-Cookie]
    headers of the login response to the [Cookie] header of the page
    requests: when the login is answered 200 with a [sid] and an [rsid]
    header, [login] returns a session whose [Cookie] header is
    [sid=<value>; rsid=<value>], with the two values as the headers gave
    them. *)
Theorem session_values_round_trip remote now credentials w r a b x y :
  let rq := PostLogin (fst credentials) (snd credentials) in
  remote (trace w) rq = Resolved r -> status r = 200 ->
  set_cookie (headers r) = Some ["sid=" ++ a ++ ";" ++ x; "rsid=" ++ b ++ ";" ++ y] ->
  has_char ";" a = false -> has_char ";" b = false ->
  exists cookies,
    login remote now credentials w = (Ok cookies, extend w [EvRequest rq]) /\
    map name cookies = ["sid"; "rsid"] /\
    cookie_header cookies = "sid=" ++ a ++ "; rsid=" ++ b.
Proof.
  intros rq Hr Hs Hl Ha Hb.
  rewrite (login_on_200 remote now credentials w r Hr Hs), Hl. fold rq.
  assert (H1 : cookie_name_value ("sid=" ++ a ++ ";" ++ x) = ("sid", a)).
  { apply (cookie_name_value_parse "sid" a (";" ++ x) eq_refl eq_refl Ha).
    right. now exists x. }
  assert (H2 : cookie_name_value ("rsid=" ++ b ++ ";" ++ y) = ("rsid", b)).
  { apply (cookie_name_value_parse "rsid" b (";" ++ y) eq_refl eq_refl Hb).
    right. now exists y. }
  remember ("sid=" ++ a ++ ";" ++ x) as h1.
  remember ("rsid=" ++ b ++ ";" ++ y) as h2.
  cbv zeta. cbn [collect_cookies]. rewrite H1, H2.
  cbn. eexists. split; [reflexivity|]. split; [reflexivity|].
  unfold cookie_header, join. cbn. reflexivity.
Qed.

Lemma session_values_round_trip_witness :
  exists cookies,
    login session_with_padding epoch user empty_world =
    (Ok cookies, extend empty_world [EvRequest (PostLogin "user" "secret")]) /\
    map name cookies = ["sid"; "rsid"] /\
    cookie_header cookies = "sid=dG9rZW4=; rsid=cmVmcmVzaA==".
Proof.
  apply (session_values_round_trip session_with_padding epoch user empty_world
           (set_cookies ["sid=dG9rZW4=; Path=/; HttpOnly"; "rsid=cmVmcmVzaA==; Path=/"])
           "dG9rZW4=" "cmVmcmVzaA==" " Path=/; HttpOnly" " Path=/"); reflexivity.
Defined.

(** ** The shape of a run of a rate-limited loop *)


Lemma count_requests_rounds rq waits :
  count_requests (rounds (EvRequest rq) waits ++ [EvRequest rq]) = S (List.length waits).
Proof.
  induction waits as [|ms waits IH]; [reflexivity|].
  unfold rounds in *. cbn [map List.concat app]. unfold count_requests in *.
  cbn [filter is_request List.length]. now rewrite IH.
Qed.

Lemma count_store_ops_app a b :
  count_store_ops (a ++ b) = (count_store_ops a + count_store_ops b)%nat.
Proof. unfold count_store_ops. now rewrite filter_app, length_app. Qed.

Lemma count_store_ops_rounds rq waits :
  count_store_ops (rounds (EvRequest rq) waits ++ [EvRequest rq]) = 0%nat.
Proof.
  induction waits as [|ms waits IH]; [reflexivity|].
  unfold rounds in *. cbn [map List.concat app]. exact IH.
Qed.

Lemma count_requests_round rq ms evs :
  count_requests ([EvRequest rq; EvTimer ms] ++ evs) = S (count_requests evs).
Proof. reflexivity. Qed.

(** Without a [Retry-After] header the wait is the current delay. *)
Lemma wait_after_spec header delay :
  0 <= delay < 2 ^ 53 ->
  delay_of (retryAfter_of header delay) = wait_after header delay.
Proof.
  intros Hd. unfold retryAfter_of, wait_after.
  destruct header as [[|c s]|]; try reflexivity; now rewrite parseInt_decimal.
Qed.

Section Loop.

Context {A : Type}.
Variable remote : list Event -> Request -> HttpOutcome.
Variable rq : Request.
Variable turn : Z -> Z -> M (Step A).
Variable loop : nat -> Z -> Z -> M A.

Hypothesis loop_unfold : forall fuel retryCount delay w,
  loop (S fuel) retryCount delay w =
  match turn retryCount delay w with
  | (Ok (Return result), w1) => (Ok result, w1)
  | (Ok (Continue rc d), w1) => loop fuel rc d w1
  | (Thrown err, w1) => (Thrown err, w1)
  | (OutOfFuel, w1) => (OutOfFuel, w1)
  end.

Hypothesis turn_cases : forall retryCount delay w,
  (exists r, turn retryCount delay w = (r, extend w [EvRequest rq]) /\
             r <> OutOfFuel /\ forall rc d, r <> Ok (Continue rc d)) \/
  (retryCount < MAX_RETRIES /\
   exists ms, turn retryCount delay w =
              (Ok (Continue (retryCount + 1) (delay * 2)),
               extend w [EvRequest rq; EvTimer ms])).

Hypothesis turn_429 : forall retryCount delay w,
  answers_429 (remote (trace w) rq) = true ->
  turn retryCount delay w =
  if MAX_RETRIES <=? retryCount
  then (Thrown too_many_requests, extend w [EvRequest rq])
  else (Ok (Continue (retryCount + 1) (delay * 2)),
        extend w [EvRequest rq;
                  EvTimer (delay_of
                             (retryAfter_of (retry_header (remote (trace w) rq)) delay))]).

(** A run is a number of rounds, one for each retry that was left at
    most, and a last call. *)
Lemma loop_shape fuel : forall retryCount delay w,
  Z.max 0 (MAX_RETRIES - retryCount) < Z.of_nat fuel ->
  exists r waits,
    loop fuel retryCount delay w =
    (r, extend w (rounds (EvRequest rq) waits ++ [EvRequest rq])) /\
    r <> OutOfFuel /\
    Z.of_nat (List.length waits) <= Z.max 0 (MAX_RETRIES - retryCount).
Proof.
  induction fuel as [|fuel IH]; intros retryCount delay w Hfuel; [lia|].
  rewrite loop_unfold.
  destruct (turn_cases retryCount delay w) as [(r & Hr & Hf & Hc)|(Hlt & ms & Hr)];
    rewrite Hr.
  - destruct r as [[result|rc d]|err|].
    + exists (Ok result), []. split; [reflexivity|]. split; [discriminate|]. simpl. lia.
    + exfalso. now apply (Hc rc d).
    + exists (Thrown err), []. split; [reflexivity|]. split; [discriminate|]. simpl. lia.
    + contradiction.
  - destruct (IH (retryCount + 1) (delay * 2) (extend w [EvRequest rq; EvTimer ms]))
      as (r & waits & Hrun & Hf & Hlen); [lia|].
    exists r, (ms :: waits). rewrite Hrun, extend_extend.
    split; [reflexivity|]. split; [assumption|].
    cbn [List.length]. lia.
Qed.

(** [k] answers of 429 in a row with the same [Retry-After] header, while
    retries are left, take [k] rounds, with the waits the header and the
    doubling delay give. *)
Lemma loop_waits header k : forall fuel retryCount delay w,
  retryCount + Z.of_nat k <= MAX_RETRIES -> 0 <= delay ->
  delay * 2 ^ Z.of_nat k <= 2 ^ 53 ->
  (forall evs, (count_requests evs < k)%nat ->
     answers_429 (remote (trace w ++ evs) rq) = true /\
     retry_header (remote (trace w ++ evs) rq) = header) ->
  exists delay',
    loop (k + fuel) retryCount delay w =
    loop fuel (retryCount + Z.of_nat k) delay'
         (extend w (rounds (EvRequest rq) (map (wait_after header) (doubling delay k)))).
Proof.
  induction k as [|k IH]; intros fuel retryCount delay w Hrc Hd Hmax H429.
  - exists delay. cbn. now rewrite extend_nil, Z.add_0_r.
  - destruct (H429 [] ltac:(unfold count_requests; simpl; lia)) as [H0 Hh].
    rewrite app_nil_r in H0, Hh.
    rewrite Nat2Z.inj_succ, Z.pow_succ_r in Hmax by lia.
    assert (Hpos : 0 < 2 ^ Z.of_nat k) by (apply Z.pow_pos_nonneg; lia).
    remember (2 ^ Z.of_nat k) as pk eqn:Hpk.
    remember (2 ^ 53) as bound eqn:Hbound.
    assert (Hsmall : 0 <= delay < bound) by nia.
    cbn [Nat.add]. rewrite loop_unfold, (turn_429 retryCount delay w H0).
    destruct (Z.leb_spec MAX_RETRIES retryCount); [lia|].
    rewrite Hh, (wait_after_spec header delay) by (subst bound; exact Hsmall).
    destruct (IH fuel (retryCount + 1) (delay * 2)
                 (extend w [EvRequest rq; EvTimer (wait_after header delay)]))
      as (d' & Heq); [lia|lia|subst pk bound; nia| |].
    + intros evs Hevs. cbn [extend trace]. rewrite <- app_assoc. apply H429.
      rewrite count_requests_round. lia.
    + exists d'. rewrite Heq, extend_extend.
      replace (retryCount + 1 + Z.of_nat k) with (retryCount + Z.of_nat (S k)) by lia.
      reflexivity.
Qed.

End Loop.

Section Page.

Variable remote : list Event -> Request -> HttpOutcome.
Variable cookieStr : string.
Variable page : Z.

Let rq := GetPayouts cookieStr page.
Let turn retryCount delay :=
  try_catch (page_try remote cookieStr page retryCount delay)
            (rate_limit_catch retryCount delay).

Lemma page_turn_200 retryCount delay w r :
  remote (trace w) rq = Resolved r -> status r = 200 ->
  turn retryCount delay w =
  (match records_in (body r) with
   | Ok data => Ok (Return data)
   | Thrown e => Thrown e
   | OutOfFuel => OutOfFuel
   end, extend w [EvRequest rq]).
Proof.
  intros Hr Hs. unfold turn, try_catch, page_try, bind, axios. fold rq.
  rewrite Hr, Hs. simpl.
  destruct (body r) as [| |json]; try reflexivity. cbn [records_in].
  destruct (body_data json); [reflexivity|].
  destruct (body_payouts_data json); reflexivity.
Qed.

Lemma records_in_cases p :
  (exists data, records_in p = Ok data) \/ (exists e, records_in p = Thrown e).
Proof.
  destruct p as [| |json]; cbn [records_in]; try (right; now eexists).
  destruct (body_data json); [left; now eexists|].
  destruct (body_payouts_data json); [left; now eexists|right; now eexists].
Qed.

Lemma page_turn_429 retryCount delay w :
  answers_429 (remote (trace w) rq) = true ->
  turn retryCount delay w =
  if MAX_RETRIES <=? retryCount
  then (Thrown too_many_requests, extend w [EvRequest rq])
  else (Ok (Continue (retryCount + 1) (delay * 2)),
        extend w [EvRequest rq;
                  EvTimer (delay_of
                             (retryAfter_of (retry_header (remote (trace w) rq)) delay))]).
Proof.
  intros H. unfold turn, try_catch, page_try, bind, axios. fold rq.
  destruct (remote (trace w) rq) as [r|err]; simpl in H.
  - apply Z.eqb_eq in H. rewrite H. simpl.
    destruct (Z.leb_spec MAX_RETRIES retryCount).
    + rewrite on_429_give_up by assumption.
      unfold rate_limit_catch. reflexivity.
    + rewrite on_429_continue by assumption.
      rewrite log_extend, extend_extend. reflexivity.
  - unfold rate_limit_catch. rewrite H.
    destruct (Z.leb_spec MAX_RETRIES retryCount).
    + rewrite on_429_give_up by assumption. reflexivity.
    + rewrite on_429_continue by assumption.
      rewrite log_extend, extend_extend. reflexivity.
Qed.

Lemma page_turn_other retryCount delay w :
  answers_429 (remote (trace w) rq) = false ->
  exists r, turn retryCount delay w = (r, extend w [EvRequest rq]) /\
            r <> OutOfFuel /\ (forall rc d, r <> Ok (Continue rc d)) /\
            match remote (trace w) rq with
            | Resolved resp =>
                status resp <> 200 ->
                r = Thrown (Error ("Не удалось получить транзакции: " ++
                                   decimal (status resp)))
            | Rejected err => r = Thrown err
            end.
Proof.
  intros H.
  destruct (remote (trace w) rq) as [r|err] eqn:Hr; simpl in H.
  - destruct (Z.eqb_spec (status r) 200) as [Hs|Hs].
    + rewrite (page_turn_200 retryCount delay w r Hr Hs). eexists. split; [reflexivity|].
      destruct (records_in_cases (body r)) as [(data & ->)|(e & ->)];
        (split; [discriminate|split; [intros; discriminate|intros; contradiction]]).
    + unfold turn, try_catch, page_try, bind, axios. fold rq. rewrite Hr.
      pose proof Hs as Hs'. apply Z.eqb_neq in Hs'. rewrite Hs', H. simpl.
      eexists. split; [reflexivity|].
      split; [discriminate|split; [intros; discriminate|reflexivity]].
  - unfold turn, try_catch, page_try, bind, axios. fold rq. rewrite Hr.
    unfold rate_limit_catch. rewrite H.
    eexists. split; [reflexivity|].
    split; [discriminate|split; [intros; discriminate|reflexivity]].
Qed.

Lemma page_loop_unfold fuel retryCount delay w :
  page_loop remote (S fuel) cookieStr page retryCount delay w =
  match turn retryCount delay w with
  | (Ok (Return result), w1) => (Ok result, w1)
  | (Ok (Continue rc d), w1) => page_loop remote fuel cookieStr page rc d w1
  | (Thrown err, w1) => (Thrown err, w1)
  | (OutOfFuel, w1) => (OutOfFuel, w1)
  end.
Proof.
  simpl. unfold bind. fold (turn retryCount delay).
  destruct (turn retryCount delay w) as [[[result|rc d]|err|] w1]; reflexivity.
Qed.

Lemma page_turn_cases retryCount delay w :
  (exists r, turn retryCount delay w = (r, extend w [EvRequest rq]) /\
             r <> OutOfFuel /\ forall rc d, r <> Ok (Continue rc d)) \/
  (retryCount < MAX_RETRIES /\
   exists ms, turn retryCount delay w =
              (Ok (Continue (retryCount + 1) (delay * 2)),
               extend w [EvRequest rq; EvTimer ms])).
Proof.
  destruct (answers_429 (remote (trace w) rq)) eqn:H.
  - rewrite (page_turn_429 retryCount delay w H).
    destruct (Z.leb_spec MAX_RETRIES retryCount).
    + left. eexists. split; [reflexivity|]. split; [discriminate|intros; discriminate].
    + right. split; [assumption|]. now eexists.
  - left. destruct (page_turn_other retryCount delay w H) as (r & Hr & Hf & Hc & _).
    now exists r.
Qed.

End Page.

Lemma login_turn_cases remote now credentials retryCount delay w :
  let rq := PostLogin (fst credentials) (snd credentials) in
  let turn := try_catch (login_try remote now credentials retryCount delay)
                        (rate_limit_catch retryCount delay) in
  (exists r, turn w = (r, extend w [EvRequest rq]) /\
             r <> OutOfFuel /\ forall rc d, r <> Ok (Continue rc d)) \/
  (retryCount < MAX_RETRIES /\
   exists ms, turn w = (Ok (Continue (retryCount + 1) (delay * 2)),
                        extend w [EvRequest rq; EvTimer ms])).
Proof.
  intros rq turn. subst turn.
  destruct (answers_429 (remote (trace w) rq)) eqn:H.
  - rewrite (login_turn_429 remote now credentials retryCount delay w H).
    destruct (Z.leb_spec MAX_RETRIES retryCount).
    + left. eexists. split; [reflexivity|]. split; [discriminate|intros; discriminate].
    + right. split; [assumption|]. now eexists.
  - left. apply (login_turn_other remote now credentials retryCount delay w H).
Qed.

Lemma login_loop_shape remote now credentials fuel retryCount delay w :
  let rq := PostLogin (fst credentials) (snd credentials) in
  Z.max 0 (MAX_RETRIES - retryCount) < Z.of_nat fuel ->
  exists r waits,
    login_loop remote now fuel credentials retryCount delay w =
    (r, extend w (rounds (EvRequest rq) waits ++ [EvRequest rq])) /\
    r <> OutOfFuel /\
    Z.of_nat (List.length waits) <= Z.max 0 (MAX_RETRIES - retryCount).
Proof.
  intros rq.
  apply (loop_shape rq
           (fun rc d => try_catch (login_try remote now credentials rc d)
                                  (rate_limit_catch rc d))
           (fun fuel rc d => login_loop remote now fuel credentials rc d)).
  - intros. apply login_loop_unfold.
  - intros. apply login_turn_cases.
Qed.

Lemma page_loop_shape remote cookieStr page fuel retryCount delay w :
  let rq := GetPayouts cookieStr page in
  Z.max 0 (MAX_RETRIES - retryCount) < Z.of_nat fuel ->
  exists r waits,
    page_loop remote fuel cookieStr page retryCount delay w =
    (r, extend w (rounds (EvRequest rq) waits ++ [EvRequest rq])) /\
    r <> OutOfFuel /\
    Z.of_nat (List.length waits) <= Z.max 0 (MAX_RETRIES - retryCount).
Proof.
  intros rq.
  apply (loop_shape rq
           (fun rc d => try_catch (page_try remote cookieStr page rc d)
                                  (rate_limit_catch rc d))
           (fun fuel rc d => page_loop remote fuel cookieStr page rc d)).
  - intros. apply page_loop_unfold.
  - intros. apply page_turn_cases.
Qed.

Lemma fetchTransactionsPage_shape remote cookies page w :
  let rq := GetPayouts (cookie_header cookies) page in
  exists r waits,
    fetchTransactionsPage remote cookies page w =
    (r, extend w (rounds (EvRequest rq) waits ++ [EvRequest rq])) /\
    r <> OutOfFuel /\ (List.length waits <= 5)%nat.
Proof.
  intros rq. unfold fetchTransactionsPage.
  destruct (page_loop_shape remote (cookie_header cookies) page loop_fuel 0 BASE_DELAY w)
    as (r & waits & Hrun & Hf & Hlen).
  - unfold loop_fuel, MAX_RETRIES. simpl. lia.
  - exists r, waits. split; [exact Hrun|]. split; [assumption|].
    unfold MAX_RETRIES in Hlen. lia.
Qed.

(** X3: whatever the remote answers, a run of [login] is at most five
    rounds of a call and a wait, and a last call: between one and six
    calls in all, every one the login request with the credentials given,
    each but the last followed by one wait; the run ends (it returns or
    throws) and the store is as it was. *)
Theorem login_makes_at_most_six_calls remote now credentials w :
  let rq := PostLogin (fst credentials) (snd credentials) in
  exists r waits,
    login remote now credentials w =
    (r, extend w (rounds (EvRequest rq) waits ++ [EvRequest rq])) /\
    r <> OutOfFuel /\
    (List.length waits <= 5)%nat /\
    count_requests (rounds (EvRequest rq) waits ++ [EvRequest rq]) =
    S (List.length waits).
Proof.
  intros rq. unfold login.
  destruct (login_loop_shape remote now credentials loop_fuel 0 BASE_DELAY w)
    as (r & waits & Hrun & Hf & Hlen).
  - unfold loop_fuel, MAX_RETRIES. simpl. lia.
  - exists r, waits. split; [exact Hrun|]. split; [assumption|].
    split; [unfold MAX_RETRIES in Hlen; lia|apply count_requests_rounds].
Qed.

(** X4: whatever the remote answers, a run of [fetchTransactionsPage] is
    at most five rounds of a call and a wait, and a last call: between one
    and six calls in all, every one the request for that page with the
    cookies given; the run ends and the store is as it was. *)
Theorem fetchTransactionsPage_makes_at_most_six_calls remote cookies page w :
  let rq := GetPayouts (cookie_header cookies) page in
  exists r waits,
    fetchTransactionsPage remote cookies page w =
    (r, extend w (rounds (EvRequest rq) waits ++ [EvRequest rq])) /\
    r <> OutOfFuel /\
    (List.length waits <= 5)%nat /\
    count_requests (rounds (EvRequest rq) waits ++ [EvRequest rq]) =
    S (List.length waits).
Proof.
  intros rq.
  destruct (fetchTransactionsPage_shape remote cookies page w)
    as (r & waits & Hrun & Hf & Hlen).
  exists r, waits. split; [exact Hrun|]. split; [assumption|].
  split; [assumption|apply count_requests_rounds].
Qed.

(** ** Answers other than a 429 *)

(** X5: an answer to the login that is not a 429 is never retried:
    [login] ends after that one call, without a wait.  A response whose
    status is neither 200 nor 429 makes it throw an error that names the
    status, and an error thrown by the HTTP client that carries no 429 is
    thrown on as it is. *)
Theorem login_fails_at_once remote now credentials w :
  let rq := PostLogin (fst credentials) (snd credentials) in
  answers_429 (remote (trace w) rq) = false ->
  exists r,
    login remote now credentials w = (r, extend w [EvRequest rq]) /\
    r <> OutOfFuel /\
    match remote (trace w) rq with
    | Resolved resp =>
        status resp <> 200 ->
        r = Thrown (Error ("Авторизация не удалась со статусом: " ++ decimal (status resp)))
    | Rejected err => r = Thrown err
    end.
Proof.
  intros rq H. unfold login. change loop_fuel with 6%nat.
  rewrite login_loop_unfold. fold rq.
  destruct (remote (trace w) rq) as [resp|err] eqn:Hr; simpl in H.
  - destruct (Z.eqb_spec (status resp) 200) as [Hs|Hs].
    + rewrite (login_turn_200 remote now credentials 0 BASE_DELAY w resp Hr Hs). fold rq.
      destruct (set_cookie (headers resp)) as [[|c l]|];
        try (eexists; split; [reflexivity|split; [discriminate|intros; contradiction]]).
      cbv zeta. destruct (Nat.ltb _ 2);
        (eexists; split; [reflexivity|split; [discriminate|intros; contradiction]]).
    + unfold try_catch, login_try, bind, axios. fold rq. rewrite Hr.
      pose proof Hs as Hs'. apply Z.eqb_neq in Hs'. rewrite Hs', H. simpl.
      eexists. split; [reflexivity|]. split; [discriminate|reflexivity].
  - unfold try_catch, login_try, bind, axios. fold rq. rewrite Hr.
    unfold rate_limit_catch. rewrite H.
    eexists. split; [reflexivity|]. split; [discriminate|reflexivity].
Qed.

Lemma login_fails_at_once_witness :
  exists r,
    login first_refused epoch ("first", "secret") empty_world =
    (r, extend empty_world [EvRequest (PostLogin "first" "secret")]) /\
    r <> OutOfFuel /\
    r = Thrown (axios_error 401).
Proof.
  apply (login_fails_at_once first_refused epoch ("first", "secret") empty_world).
  reflexivity.
Defined.

Lemma page_first_answer remote cookies page w :
  let rq := GetPayouts (cookie_header cookies) page in
  answers_429 (remote (trace w) rq) = false ->
  exists r,
    fetchTransactionsPage remote cookies page w = (r, extend w [EvRequest rq]) /\
    match remote (trace w) rq with
    | Resolved resp =>
        if status resp =? 200 then r = records_in (body resp)
        else
          r = Thrown (Error ("Не удалось получить транзакции: " ++ decimal (status resp)))
    | Rejected err => r = Thrown err
    end.
Proof.
  intros rq H. unfold fetchTransactionsPage. change loop_fuel with 6%nat.
  rewrite page_loop_unfold. fold rq.
  destruct (remote (trace w) rq) as [resp|err] eqn:Hr.
  - destruct (Z.eqb_spec (status resp) 200) as [Hs|Hs].
    + rewrite (page_turn_200 remote (cookie_header cookies) page 0 BASE_DELAY w resp Hr Hs).
      fold rq.
      destruct (records_in_cases (body resp)) as [(data & ->)|(e & ->)];
        (eexists; split; reflexivity).
    + destruct (page_turn_other remote (cookie_header cookies) page 0 BASE_DELAY w)
        as (r & Hrun & _ & _ & Hout); [fold rq; now rewrite Hr|].
      fold rq in Hrun, Hout. rewrite Hr in Hout. rewrite Hrun, (Hout Hs).
      eexists. split; reflexivity.
  - destruct (page_turn_other remote (cookie_header cookies) page 0 BASE_DELAY w)
      as (r & Hrun & _ & _ & Hout); [fold rq; now rewrite Hr|].
    fold rq in Hrun, Hout. rewrite Hr in Hout. rewrite Hrun, Hout.
    eexists. split; reflexivity.
Qed.

(** X6: an answer to a page request that is not a 429 decides the call
    at once, after that one request and without a wait.  A response of
    status 200 whose body is [null] or [undefined] makes the call throw
    the TypeError of reading [data] in it; any other body gives
    [json.data] when that is an array, else [json.response.payouts.data]
    when that is an array, and else the call throws; a response whose
    status is neither 200 nor 429 makes it throw an error that names the
    status; an error thrown by the HTTP client that carries no 429 is
    thrown on as it is. *)
Theorem fetchTransactionsPage_decides_at_once remote cookies page w :
  let rq := GetPayouts (cookie_header cookies) page in
  answers_429 (remote (trace w) rq) = false ->
  exists r,
    fetchTransactionsPage remote cookies page w = (r, extend w [EvRequest rq]) /\
    match remote (trace w) rq with
    | Resolved resp =>
        if status resp =? 200 then
          match body resp with
          | Null =>
              r = Thrown (TypeError "Cannot read properties of null (reading 'data')")
          | Undefined =>
              r = Thrown (TypeError "Cannot read properties of undefined (reading 'data')")
          | Document json =>
              match body_data json, body_payouts_data json with
              | Some data, _ => r = Ok data
              | None, Some data => r = Ok data
              | None, None => r = Thrown (Error "Неожиданная структура ответа")
              end
          end
        else
          r = Thrown (Error ("Не удалось получить транзакции: " ++ decimal (status resp)))
    | Rejected err => r = Thrown err
    end.
Proof.
  intros rq H.
  destruct (page_first_answer remote cookies page w H) as (r & Hrun & Hout).
  exists r. split; [exact Hrun|]. fold rq in Hout.
  destruct (remote (trace w) rq) as [resp|err]; [|exact Hout].
  destruct (status resp =? 200); [|exact Hout].
  unfold records_in in Hout.
  destruct (body resp) as [| |json]; try exact Hout.
  destruct (body_data json); [exact Hout|].
  destruct (body_payouts_data json); exact Hout.
Qed.

Lemma fetchTransactionsPage_decides_at_once_witness :
  exists r,
    fetchTransactionsPage nested_feed the_session 1 empty_world =
    (r, extend empty_world [EvRequest (GetPayouts "sid=abc; rsid=def" 1)]) /\
    r = Ok [record 1].
Proof.
  apply (fetchTransactionsPage_decides_at_once nested_feed the_session 1 empty_world).
  reflexivity.
Defined.

(** A page whose body is [null] is passed over by [fetchTransactions]
    like any page whose fetch throws. *)
Example null_body_is_passed_over :
  fst (fetchTransactionsPage null_feed the_session 1 empty_world) =
  Thrown (TypeError "Cannot read properties of null (reading 'data')") /\
  fst (fetchTransactions null_feed the_session (Some 2) prisma empty_world) = Ok [].
Proof. split; vm_compute; reflexivity. Qed.

(** ** The two forms of a 429 *)

Section Signals.

Variable remote1 remote2 : list Event -> Request -> HttpOutcome.
Hypothesis same : forall tr rq, same_signal (remote1 tr rq) (remote2 tr rq).

Lemma login_turn_same now credentials retryCount delay w :
  try_catch (login_try remote1 now credentials retryCount delay)
            (rate_limit_catch retryCount delay) w =
  try_catch (login_try remote2 now credentials retryCount delay)
            (rate_limit_catch retryCount delay) w.
Proof.
  destruct (same (trace w) (PostLogin (fst credentials) (snd credentials)))
    as [Heq|(H1 & H2 & Hh)].
  - unfold try_catch, login_try, bind, axios. now rewrite Heq.
  - rewrite (login_turn_429 remote1 now credentials retryCount delay w H1),
            (login_turn_429 remote2 now credentials retryCount delay w H2).
    unfold retry_header in Hh. now rewrite Hh.
Qed.

Lemma page_turn_same cookieStr page retryCount delay w :
  try_catch (page_try remote1 cookieStr page retryCount delay)
            (rate_limit_catch retryCount delay) w =
  try_catch (page_try remote2 cookieStr page retryCount delay)
            (rate_limit_catch retryCount delay) w.
Proof.
  destruct (same (trace w) (GetPayouts cookieStr page)) as [Heq|(H1 & H2 & Hh)].
  - unfold try_catch, page_try, bind, axios. now rewrite Heq.
  - rewrite (page_turn_429 remote1 cookieStr page retryCount delay w H1),
            (page_turn_429 remote2 cookieStr page retryCount delay w H2).
    now rewrite Hh.
Qed.

Lemma login_loop_same now credentials fuel : forall retryCount delay w,
  login_loop remote1 now fuel credentials retryCount delay w =
  login_loop remote2 now fuel credentials retryCount delay w.
Proof.
  induction fuel as [|fuel IH]; intros retryCount delay w; [reflexivity|].
  rewrite !login_loop_unfold, login_turn_same.
  destruct (try_catch _ _ w) as [[[result|rc d]|err|] w1]; try reflexivity. apply IH.
Qed.

Lemma page_loop_same cookieStr page fuel : forall retryCount delay w,
  page_loop remote1 fuel cookieStr page retryCount delay w =
  page_loop remote2 fuel cookieStr page retryCount delay w.
Proof.
  induction fuel as [|fuel IH]; intros retryCount delay w; [reflexivity|].
  rewrite !page_loop_unfold, page_turn_same.
  destruct (try_catch _ _ w) as [[[result|rc d]|err|] w1]; try reflexivity. apply IH.
Qed.

End Signals.

(** X7: a 429 that comes as a response and a 429 that comes as the
    response of an error thrown by the HTTP client are the same condition
    to [login] and to [fetchTransactionsPage]: against two remotes whose
    answers differ only in the form of their 429s (with the same
    [Retry-After] header), either function does the same calls and waits
    and ends in the same way. *)
Theorem rate_limit_forms_are_one_condition remote1 remote2 now :
  (forall tr rq, same_signal (remote1 tr rq) (remote2 tr rq)) ->
  (forall credentials w,
     login remote1 now credentials w = login remote2 now credentials w) /\
  (forall cookies page w,
     fetchTransactionsPage remote1 cookies page w =
     fetchTransactionsPage remote2 cookies page w).
Proof.
  intros Hsame. split.
  - intros credentials w. unfold login. now apply login_loop_same.
  - intros cookies page w. unfold fetchTransactionsPage. now apply page_loop_same.
Qed.

Lemma rate_limit_forms_are_one_condition_witness :
  login always_limited epoch user empty_world =
  login limited_by_response epoch user empty_world /\
  fetchTransactionsPage always_limited the_session 1 empty_world =
  fetchTransactionsPage limited_by_response the_session 1 empty_world.
Proof.
  destruct (rate_limit_forms_are_one_condition always_limited limited_by_response epoch)
    as [Hlogin Hpage].
  - intros tr rq. right. repeat split; reflexivity.
  - split; [apply Hlogin|apply Hpage].
Defined.

(** ** The waits of the rate-limited loops *)

Lemma doubling_base k :
  (k <= 5)%nat -> doubling BASE_DELAY k = firstn k [1000; 2000; 4000; 8000; 16000].
Proof. intros H. destruct k as [|[|[|[|[|[|k]]]]]]; try lia; reflexivity. Qed.

Lemma login_loop_waits remote now credentials header k fuel w :
  let rq := PostLogin (fst credentials) (snd credentials) in
  (k <= 5)%nat ->
  (forall evs, (count_requests evs < k)%nat ->
     answers_429 (remote (trace w ++ evs)%list rq) = true /\
     retry_header (remote (trace w ++ evs)%list rq) = header) ->
  exists delay',
    login_loop remote now (k + fuel) credentials 0 BASE_DELAY w =
    login_loop remote now fuel credentials (Z.of_nat k) delay'
      (extend w (rounds (EvRequest rq)
                        (map (wait_after header)
                             (firstn k [1000; 2000; 4000; 8000; 16000])))).
Proof.
  intros rq Hk H429. rewrite <- (doubling_base k Hk).
  apply (loop_waits remote rq
           (fun rc d => try_catch (login_try remote now credentials rc d)
                                  (rate_limit_catch rc d))
           (fun fuel rc d => login_loop remote now fuel credentials rc d)).
  - intros. apply login_loop_unfold.
  - intros. now apply login_turn_429.
  - unfold MAX_RETRIES. lia.
  - unfold BASE_DELAY. lia.
  - unfold BASE_DELAY. destruct k as [|[|[|[|[|[|k]]]]]]; try lia; now vm_compute.
  - exact H429.
Qed.

Lemma page_loop_waits remote cookieStr page header k fuel w :
  let rq := GetPayouts cookieStr page in
  (k <= 5)%nat ->
  (forall evs, (count_requests evs < k)%nat ->
     answers_429 (remote (trace w ++ evs)%list rq) = true /\
     retry_header (remote (trace w ++ evs)%list rq) = header) ->
  exists delay',
    page_loop remote (k + fuel) cookieStr page 0 BASE_DELAY w =
    page_loop remote fuel cookieStr page (Z.of_nat k) delay'
      (extend w (rounds (EvRequest rq)
                        (map (wait_after header)
                             (firstn k [1000; 2000; 4000; 8000; 16000])))).
Proof.
  intros rq Hk H429. rewrite <- (doubling_base k Hk).
  apply (loop_waits remote rq
           (fun rc d => try_catch (page_try remote cookieStr page rc d)
                                  (rate_limit_catch rc d))
           (fun fuel rc d => page_loop remote fuel cookieStr page rc d)).
  - intros. apply page_loop_unfold.
  - intros. now apply page_turn_429.
  - unfold MAX_RETRIES. lia.
  - unfold BASE_DELAY. lia.
  - unfold BASE_DELAY. destruct k as [|[|[|[|[|[|k]]]]]]; try lia; now vm_compute.
  - exact H429.
Qed.





(** The header is read as a Number: above 2^53 the wait is the nearest
    double, not the integer written in the header; and a header in which
    [parseInt] reads no number gives [NaN] as the delay of the timer. *)
Example wait_after_is_a_double :
  wait_after (Some "9007199254740993") 1000 = millis 9007199254740992 /\
  wait_after (Some "30") 1000 = millis 30 /\
  wait_after (Some "soon") 1000 = None /\
  wait_after (Some EmptyString) 1000 = millis 1000.
Proof. repeat split; vm_compute; reflexivity. Qed.

(** ** A call that was rate-limited and then answered *)

Lemma login_turn_fresh remote now credentials retryCount delay retryCount' delay' w :
  answers_429 (remote (trace w) (PostLogin (fst credentials) (snd credentials))) = false ->
  try_catch (login_try remote now credentials retryCount delay)
            (rate_limit_catch retryCount delay) w =
  try_catch (login_try remote now credentials retryCount' delay')
            (rate_limit_catch retryCount' delay') w.
Proof.
  intros H.
  destruct (remote (trace w) (PostLogin (fst credentials) (snd credentials)))
    as [r|e] eqn:Hr; simpl in H.
  - destruct (Z.eqb_spec (status r) 200) as [Hs|Hs].
    + now rewrite !(login_turn_200 remote now credentials _ _ w r Hr Hs).
    + unfold try_catch, login_try, bind, axios. rewrite Hr.
      apply Z.eqb_neq in Hs. rewrite Hs, H. reflexivity.
  - unfold try_catch, login_try, bind, axios. rewrite Hr.
    unfold rate_limit_catch. rewrite H. reflexivity.
Qed.

Lemma page_turn_fresh remote cookieStr page retryCount delay retryCount' delay' w :
  answers_429 (remote (trace w) (GetPayouts cookieStr page)) = false ->
  try_catch (page_try remote cookieStr page retryCount delay)
            (rate_limit_catch retryCount delay) w =
  try_catch (page_try remote cookieStr page retryCount' delay')
            (rate_limit_catch retryCount' delay') w.
Proof.
  intros H.
  destruct (remote (trace w) (GetPayouts cookieStr page)) as [r|e] eqn:Hr; simpl in H.
  - destruct (Z.eqb_spec (status r) 200) as [Hs|Hs].
    + now rewrite !(page_turn_200 remote cookieStr page _ _ w r Hr Hs).
    + unfold try_catch, page_try, bind, axios. rewrite Hr.
      apply Z.eqb_neq in Hs. rewrite Hs, H. reflexivity.
  - unfold try_catch, page_try, bind, axios. rewrite Hr.
    unfold rate_limit_catch. rewrite H. reflexivity.
Qed.

(** X10: the retries of [login] are transparent: when its first [k <= 5]
    calls are answered 429 (with the same [Retry-After] header) and the
    next call is not, [login] ends as a login started after those [k]
    rounds of a call and a wait would: with the same result and in the
    same world, the count of the retries playing no part. *)
Theorem login_after_retries_is_a_fresh_login remote now credentials header k w :
  let rq := PostLogin (fst credentials) (snd credentials) in
  let w_k := extend w (rounds (EvRequest rq)
                              (map (wait_after header)
                                   (firstn k [1000; 2000; 4000; 8000; 16000]))) in
  (k <= 5)%nat ->
  (forall evs, (count_requests evs < k)%nat ->
     answers_429 (remote (trace w ++ evs)%list rq) = true /\
     retry_header (remote (trace w ++ evs)%list rq) = header) ->
  answers_429 (remote (trace w_k) rq) = false ->
  login remote now credentials w = login remote now credentials w_k.
Proof.
  intros rq w_k Hk H429 Hnext. unfold login.
  replace loop_fuel with (k + S (5 - k))%nat at 1 by (change loop_fuel with 6%nat; lia).
  destruct (login_loop_waits remote now credentials header k (S (5 - k)) w Hk H429)
    as (d' & Heq).
  rewrite Heq. fold rq. fold w_k. change loop_fuel with 6%nat.
  rewrite !login_loop_unfold.
  rewrite (login_turn_fresh remote now credentials (Z.of_nat k) d' 0 BASE_DELAY w_k Hnext).
  destruct (login_turn_other remote now credentials 0 BASE_DELAY w_k Hnext)
    as (r & Hr & _ & Hc).
  rewrite Hr. destruct r as [[result|rc d]|e|]; try reflexivity.
  exfalso. now apply (Hc rc d).
Qed.

Lemma login_after_retries_is_a_fresh_login_witness :
  login limited_five_times epoch user empty_world =
  login limited_five_times epoch user
        (extend empty_world
           (rounds (EvRequest (PostLogin "user" "secret"))
                   (map millis [1000; 2000; 4000; 8000; 16000]))).
Proof.
  apply (login_after_retries_is_a_fresh_login limited_five_times epoch user None 5
           empty_world).
  - lia.
  - intros evs Hevs. unfold limited_five_times. cbn [trace empty_world app].
    apply Nat.ltb_lt in Hevs. rewrite Hevs. split; reflexivity.
  - reflexivity.
Defined.

(** X11: the retries of [fetchTransactionsPage] are transparent in the
    same way: when the first [k <= 5] requests for the page are answered
    429 (with the same [Retry-After] header) and the next one is not, the
    call ends as a call started after those [k] rounds would, with the
    same result and in the same world. *)
Theorem page_after_retries_is_a_fresh_call remote cookies page header k w :
  let rq := GetPayouts (cookie_header cookies) page in
  let w_k := extend w (rounds (EvRequest rq)
                              (map (wait_after header)
                                   (firstn k [1000; 2000; 4000; 8000; 16000]))) in
  (k <= 5)%nat ->
  (forall evs, (count_requests evs < k)%nat ->
     answers_429 (remote (trace w ++ evs)%list rq) = true /\
     retry_header (remote (trace w ++ evs)%list rq) = header) ->
  answers_429 (remote (trace w_k) rq) = false ->
  fetchTransactionsPage remote cookies page w = fetchTransactionsPage remote cookies page w_k.
Proof.
  intros rq w_k Hk H429 Hnext. unfold fetchTransactionsPage.
  replace loop_fuel with (k + S (5 - k))%nat at 1 by (change loop_fuel with 6%nat; lia).
  destruct (page_loop_waits remote (cookie_header cookies) page header k (S (5 - k)) w Hk H429)
    as (d' & Heq).
  rewrite Heq. fold rq. fold w_k. change loop_fuel with 6%nat.
  rewrite !page_loop_unfold.
  rewrite (page_turn_fresh remote (cookie_header cookies) page (Z.of_nat k) d' 0 BASE_DELAY
                           w_k Hnext).
  destruct (page_turn_other remote (cookie_header cookies) page 0 BASE_DELAY w_k Hnext)
    as (r & Hr & _ & Hc & _).
  rewrite Hr. destruct r as [[result|rc d]|e|]; try reflexivity.
  exfalso. now apply (Hc rc d).
Qed.

Lemma page_after_retries_is_a_fresh_call_witness :
  fetchTransactionsPage retry_after_30 the_session 1 empty_world =
  fetchTransactionsPage retry_after_30 the_session 1
    (extend empty_world
       (rounds (EvRequest (GetPayouts "sid=abc; rsid=def" 1)) [Some 30%Q; Some 30%Q])).
Proof.
  apply (page_after_retries_is_a_fresh_call retry_after_30 the_session 1 (Some "30") 2
           empty_world).
  - lia.
  - intros evs Hevs. unfold retry_after_30. cbn [trace empty_world app].
    apply Nat.ltb_lt in Hevs. rewrite Hevs. split; reflexivity.
  - reflexivity.
Defined.

(** ** The attempts of [withRetry] *)

Lemma store_call_trace {A} op (run : Store -> (JsError + A) * Store) w :
  exists r w', store_call op run w = (r, w') /\ r <> OutOfFuel /\
               trace w' = (trace w ++ [EvStore op])%list.
Proof.
  unfold store_call. cbn [log store trace].
  destruct (failure (store w) (trace w) op) as [e|].
  - do 2 eexists. split; [reflexivity|split; [discriminate|reflexivity]].
  - destruct (run (store w)) as [[e|a] s]; do 2 eexists;
      (split; [reflexivity|split; [discriminate|reflexivity]]).
Qed.

Lemma withRetry_store_call_shape {A} op (run : Store -> (JsError + A) * Store) retries :
  forall delay w,
  exists r w' k,
    withRetry (store_call op run) retries delay w = (r, w') /\
    r <> OutOfFuel /\
    trace w' = (trace w ++ rounds (EvStore op) (map Some (growing delay k))
                        ++ [EvStore op])%list /\
    (k <= retries)%nat /\
    (forall e, r = Thrown e -> unreachable e = true -> k = retries).
Proof.
  induction retries as [|retries IH]; intros delay w.
  - rewrite withRetry_spent.
    destruct (store_call_trace op run w) as (r & w' & Hrun & Hf & Htr).
    exists r, w', 0%nat. rewrite Hrun. repeat split; auto.
  - destruct (store_call_trace op run w) as (r & w1 & Hrun & Hf & Htr).
    destruct r as [a|e|]; [| |contradiction].
    + exists (Ok a), w1, 0%nat. rewrite (withRetry_ok _ _ _ _ _ _ Hrun).
      repeat split; auto; try discriminate. lia.
    + destruct (unreachable e) eqn:He.
      * rewrite (withRetry_again _ _ _ _ _ _ Hrun He).
        destruct (IH (Qred (delay * (3 # 2))) (log (EvTimer (Some delay)) w1))
          as (r & w' & k & Hrest & Hf' & Htr' & Hk & Hlast).
        exists r, w', (S k). rewrite Hrest. split; [reflexivity|]. split; [assumption|].
        split.
        { rewrite Htr'. cbn [log trace]. rewrite Htr.
          unfold rounds. cbn [growing map List.concat]. now rewrite <- !app_assoc. }
        split; [lia|]. intros e' He' Hu. f_equal. now apply (Hlast e').
      * exists (Thrown e), w1, 0%nat. rewrite (withRetry_other _ _ _ _ _ _ Hrun He).
        split; [reflexivity|]. split; [discriminate|]. split; [exact Htr|].
        split; [lia|]. intros e' [= <-] Hu. congruence.
Qed.

Lemma length_growing delay k : List.length (growing delay k) = k.
Proof. revert delay. induction k as [|k IH]; intros delay; cbn; [reflexivity|now rewrite IH]. Qed.

(** The delays of [withRetry] with its default arguments. *)
Lemma growing_default k :
  (k <= 3)%nat -> growing 2000 k = firstn k [2000; 3000; 4500]%Q.
Proof. intros H. destruct k as [|[|[|[|k]]]]; try lia; reflexivity. Qed.

(** X12: a store operation behind [withRetry] is attempted at most
    [retries + 1] times, whatever the store answers and whether it serves
    or rejects the calls: the run is at most [retries] rounds of the
    operation and a wait, and a last attempt; when the run ends with the
    unreachable condition, all the retries were used; and with the default
    arguments the waits are the first of 2000, 3000 and 4500 ms. *)
Theorem withRetry_attempts_are_bounded {A} op (run : Store -> (JsError + A) * Store)
        retries delay w :
  (exists r w' waits,
     withRetry (store_call op run) retries delay w = (r, w') /\
     r <> OutOfFuel /\
     trace w' = (trace w ++ rounds (EvStore op) waits ++ [EvStore op])%list /\
     (List.length waits <= retries)%nat /\
     (forall e, r = Thrown e -> unreachable e = true -> List.length waits = retries)) /\
  (exists r w' k,
     withRetry_default (store_call op run) w = (r, w') /\
     (k <= 3)%nat /\
     trace w' = (trace w ++ rounds (EvStore op)
                                   (map Some (firstn k [2000; 3000; 4500]%Q))
                         ++ [EvStore op])%list).
Proof.
  split.
  - destruct (withRetry_store_call_shape op run retries delay w)
      as (r & w' & k & Hrun & Hf & Htr & Hk & Hlast).
    exists r, w', (map Some (growing delay k)).
    rewrite length_map, length_growing. repeat split; auto.
  - destruct (withRetry_store_call_shape op run 3 2000%Q w)
      as (r & w' & k & Hrun & _ & Htr & Hk & _).
    exists r, w', k. rewrite <- (growing_default k Hk). repeat split; auto.
Qed.

(** ** Runs of [fetchTransactions] *)

Lemma count_rounds_store op waits :
  count_store_ops (rounds (EvStore op) waits ++ [EvStore op]) = S (List.length waits) /\
  count_requests (rounds (EvStore op) waits ++ [EvStore op]) = 0%nat.
Proof.
  induction waits as [|ms waits [IH1 IH2]]; [split; reflexivity|].
  unfold rounds in *. cbn [map List.concat app].
  unfold count_store_ops, count_requests in *.
  cbn [filter is_store_op is_request List.length]. split; [now rewrite IH1|exact IH2].
Qed.

(** The duplicate query leaves the store alone, makes no HTTP call and
    at most four attempts. *)
Lemma duplicate_query_events db transactions w :
  exists r evs,
    duplicate_query db transactions w = (r, extend w evs) /\
    r <> OutOfFuel /\
    count_requests evs = 0%nat /\ (count_store_ops evs <= 4)%nat.
Proof.
  destruct (duplicate_query db transactions w) as [r w'] eqn:Hq.
  destruct (within_eq_extend (fun _ => True) any _ _ _ _
              (within_duplicate_query _ db transactions (fun _ => I) I) Hq)
    as (evs & -> & _ & Hf).
  exists r, evs. split; [reflexivity|]. split; [assumption|].
  unfold duplicate_query, withRetry_default in Hq.
  destruct (withRetry_store_call_shape
              (TransactionFindManyIn (map tx_id transactions))
              (fun s => (findMany_externalId_in db (map tx_id transactions) s, s))
              3 2000 w) as (r' & w'' & k & Hrun & _ & Htr & Hk & _).
  rewrite Hq in Hrun. injection Hrun as <- <-.
  cbn [extend trace] in Htr. apply app_inv_head in Htr. subst evs.
  destruct (count_rounds_store (TransactionFindManyIn (map tx_id transactions))
                               (map Some (growing 2000 k))) as [H1 H2].
  rewrite H1, H2, length_map, length_growing. split; [reflexivity|lia].
Qed.

Lemma after_delay_extend page w :
  exists d, after_delay page w = extend w d /\
            count_requests d = 0%nat /\ count_store_ops d = 0%nat.
Proof.
  unfold after_delay. destruct (1 <? page).
  - exists [EvTimer (millis BASE_DELAY)]. repeat split.
  - exists []. rewrite extend_nil. repeat split.
Qed.

(** The loop of [fetchTransactions] always returns; each turn costs at
    most six HTTP calls and four store queries. *)
Lemma fetch_loop_total remote db cookies turns : forall page acc w,
  exists found evs,
    fetch_loop remote db cookies turns page acc w = (Ok (acc ++ found)%list, extend w evs) /\
    (count_requests evs <= 6 * turns)%nat /\
    (count_store_ops evs <= 4 * turns)%nat.
Proof.
  induction turns as [|turns IH]; intros page acc w.
  - exists [], []. cbn. rewrite app_nil_r, extend_nil. repeat split; lia.
  - destruct (after_delay_extend page w) as (d & Hd & Hd1 & Hd2).
    destruct (fetchTransactionsPage_shape remote cookies page (after_delay page w))
      as (r1 & waits & Hpage & Hf1 & Hlen).
    pose proof (count_requests_rounds (GetPayouts (cookie_header cookies) page) waits) as Hc1.
    pose proof (count_store_ops_rounds (GetPayouts (cookie_header cookies) page) waits) as Hs1.
    cbv zeta in Hpage.
    set (evs1 := (rounds (EvRequest (GetPayouts (cookie_header cookies) page)) waits ++
                  [EvRequest (GetPayouts (cookie_header cookies) page)])%list) in *.
    assert (Hnext : forall acc' w2 evs2,
              w2 = extend w (d ++ evs1 ++ evs2) ->
              count_requests evs2 = 0%nat -> (count_store_ops evs2 <= 4)%nat ->
              exists found evs,
                fetch_loop remote db cookies turns (page + 1) (acc ++ acc')%list w2 =
                (Ok (acc ++ found)%list, extend w evs) /\
                (count_requests evs <= 6 * S turns)%nat /\
                (count_store_ops evs <= 4 * S turns)%nat).
    { intros acc' w2 evs2 -> Hr2 Hs2.
      destruct (IH (page + 1) (acc ++ acc')%list (extend w (d ++ evs1 ++ evs2)))
        as (found & evs & Hrun & Hc & Hs).
      exists (acc' ++ found)%list, ((d ++ evs1 ++ evs2) ++ evs)%list.
      rewrite Hrun, extend_extend, <- app_assoc. split; [reflexivity|].
      rewrite !count_requests_app, !count_store_ops_app. lia. }
    rewrite Hd, extend_extend in Hpage.
    destruct r1 as [transactions|e|]; [| |contradiction].
    + pose proof (fetch_loop_page remote db cookies turns page acc w transactions _
                    ltac:(rewrite Hd; exact Hpage)) as Hturn.
      rewrite Hturn. clear Hturn.
      destruct transactions as [|t rest].
      * destruct (Hnext [] (extend w (d ++ evs1)) []) as (found & evs & Hrun & Hb);
          [now rewrite !app_nil_r|reflexivity|unfold count_store_ops; simpl; lia|].
        rewrite app_nil_r in Hrun. now exists found, evs.
      * destruct (duplicate_query_events db (t :: rest) (extend w (d ++ evs1)))
          as (r2 & evs2 & Hq & Hf2 & Hr2 & Hs2).
        rewrite Hq, extend_extend, <- app_assoc.
        destruct r2 as [existingIds|e|]; [| |contradiction].
        -- destruct (unseen existingIds (t :: rest)) as [|n news] eqn:Hnew.
           ++ exists [], (d ++ evs1 ++ evs2)%list. rewrite app_nil_r.
              split; [reflexivity|].
              rewrite !count_requests_app, !count_store_ops_app. lia.
           ++ now apply (Hnext (n :: news) _ evs2).
        -- destruct (Hnext [] (extend w (d ++ evs1 ++ evs2)) evs2) as (found & evs & Hrun & Hb);
             [reflexivity|assumption|assumption|].
           rewrite app_nil_r in Hrun. now exists found, evs.
    + pose proof (fetch_loop_page_error remote db cookies turns page acc w e _
                    ltac:(rewrite Hd; exact Hpage)) as Hturn.
      rewrite Hturn.
      destruct (Hnext [] (extend w (d ++ evs1)) []) as (found & evs & Hrun & Hb);
        [now rewrite !app_nil_r|reflexivity|unfold count_store_ops; simpl; lia|].
      rewrite app_nil_r in Hrun. now exists found, evs.
Qed.

(** X13: [fetchTransactions] never throws: whatever the remote answers
    and whatever the store client does, it returns a list (a page whose
    fetch or whose duplicate query fails is passed over) and leaves the
    store as it was.  Asked for [N] pages (10 when the argument is left
    out, none when it is not positive) it makes at most [6 * N] HTTP calls
    and at most [4 * N] store queries. *)
Theorem fetchTransactions_always_returns_within_bounds remote cookies pages db w :
  let N := Z.to_nat match pages with Some n => n | None => DEFAULT_PAGES_TO_FETCH end in
  exists result evs,
    fetchTransactions remote cookies pages db w = (Ok result, extend w evs) /\
    (count_requests evs <= 6 * N)%nat /\
    (count_store_ops evs <= 4 * N)%nat.
Proof.
  intros N. unfold fetchTransactions.
  destruct (fetch_loop_total remote db cookies N 1 [] w) as (found & evs & Hrun & Hc & Hs).
  now exists found, evs.
Qed.

Lemma all_digits_uint d : all_digits (NilEmpty.string_of_uint d) = true.
Proof.
  induction d; [reflexivity|..];
    cbn [NilEmpty.string_of_uint all_digits]; rewrite IHd; reflexivity.
Qed.

Lemma int64_of_digits_uint negative d :
  d <> Decimal.Nil ->
  int64_of_digits negative (NilEmpty.string_of_uint d) =
  if in_int64 (if negative then - uint_value d 0 else uint_value d 0)
  then Some (if negative then - uint_value d 0 else uint_value d 0)
  else None.
Proof.
  intros Hd. unfold int64_of_digits.
  rewrite all_digits_uint, (read_digits_start d Hd).
  destruct d; [contradiction|..]; reflexivity.
Qed.

Lemma int64_of_string_uint d :
  d <> Decimal.Nil ->
  int64_of_string (NilEmpty.string_of_uint d) =
  int64_of_digits false (NilEmpty.string_of_uint d).
Proof. intros Hd. destruct d; [contradiction|..]; reflexivity. Qed.

(** The store reads the decimal form of a 64-bit integer back. *)
Lemma int64_of_string_decimal n :
  in_int64 n = true -> int64_of_string (decimal n) = Some n.
Proof.
  intros Hrange. unfold decimal.
  destruct n as [|p|p]; [reflexivity| |];
    pose proof (DecimalZ.of_to (Z.pos p)) as Hback;
    cbn [Z.to_int NilEmpty.string_of_int] in *;
    (assert (Hd : Pos.to_uint p <> Decimal.Nil)
      by (intros Hnil; rewrite Hnil in Hback; discriminate));
    (assert (Hv : uint_value (Pos.to_uint p) 0 = Z.pos p)
      by (rewrite uint_value_0; exact Hback)).
  - rewrite (int64_of_string_uint _ Hd), (int64_of_digits_uint false _ Hd), Hv, Hrange.
    reflexivity.
  - cbn [int64_of_string].
    rewrite (int64_of_digits_uint true _ Hd), Hv.
    change (- Z.pos p) with (Z.neg p). rewrite Hrange. reflexivity.
Qed.

Lemma plain_id_accepted v : plain_id v -> accepted_id v = true.
Proof.
  intros (n & Hrange & [->| ->]); unfold accepted_id, id_value.
  - now rewrite Hrange.
  - now rewrite (int64_of_string_decimal n Hrange).
Qed.

Lemma plain_ids_accepted records :
  Forall (fun t => plain_id (tx_id t)) records ->
  forallb accepted_id (map tx_id records) = true.
Proof.
  induction 1 as [|t records Ht _ IH]; [reflexivity|].
  cbn [map forallb]. now rewrite (plain_id_accepted _ Ht), IH.
Qed.

Lemma served_records o data :
  match o with
  | Resolved resp => status resp = 200 /\ records_in (body resp) = Ok data
  | Rejected _ => False
  end -> served o = data.
Proof.
  destruct o as [resp|err]; [|contradiction]. intros [Hs Hb]. unfold served.
  rewrite Hs. cbn. destruct (body resp) as [| |json]; try discriminate.
  cbn [records_in] in Hb.
  destruct (body_data json); [now injection Hb|].
  destruct (body_payouts_data json); [now injection Hb|discriminate].
Qed.

Lemma served_nothing o :
  match o with
  | Resolved resp => status resp <> 200 \/ exists e, records_in (body resp) = Thrown e
  | Rejected _ => True
  end -> served o = [].
Proof.
  destruct o as [resp|err]; [|reflexivity]. unfold served.
  intros [Hs|(e & Hb)].
  - apply Z.eqb_neq in Hs. now rewrite Hs.
  - destruct (status resp =? 200); [|reflexivity].
    destruct (body resp) as [| |json]; try reflexivity.
    cbn [records_in] in Hb.
    destruct (body_data json); [discriminate|].
    destruct (body_payouts_data json); [discriminate|reflexivity].
Qed.

Lemma fetch_loop_with_prisma remote cookies feed turns : forall page acc w,
  (forall tr p, remote tr (GetPayouts (cookie_header cookies) p) = feed p) ->
  (forall p, answers_429 (feed p) = false) ->
  (forall p, Forall (fun t => plain_id (tx_id t)) (served (feed p))) ->
  serves on_transactions (store w) ->
  exists evs,
    fetch_loop remote prisma cookies turns page acc w =
    (Ok (acc ++ List.concat (map (fun p => served (feed p)) (pages_from page turns)))%list,
     extend w evs).
Proof.
  induction turns as [|turns IH]; intros page acc w Hfeed Hnot Hplain Hserves.
  - exists []. cbn. now rewrite app_nil_r, extend_nil.
  - destruct (after_delay_extend page w) as (d & Hd & _).
    destruct (page_first_answer remote cookies page (after_delay page w))
      as (r & Hpage & Hout); [now rewrite Hfeed|].
    cbv zeta in Hpage, Hout. rewrite Hfeed in Hout.
    cbn [pages_from map List.concat].
    assert (Hnext : forall acc' evs1,
              exists evs,
                fetch_loop remote prisma cookies turns (page + 1) acc' (extend w evs1) =
                (Ok (acc' ++ List.concat (map (fun p => served (feed p))
                                              (pages_from (page + 1) turns)))%list,
                 extend w evs)).
    { intros acc' evs1.
      destruct (IH (page + 1) acc' (extend w evs1) Hfeed Hnot Hplain Hserves) as (evs & Hrun).
      exists (evs1 ++ evs)%list. now rewrite Hrun, extend_extend. }
    assert (Hr : (exists data, r = Ok data /\ served (feed page) = data) \/
                 ((exists e, r = Thrown e) /\ served (feed page) = [])).
    { destruct (feed page) as [resp|err] eqn:Hfp; rewrite ?Hfp in Hout;
        cbv beta iota in Hout.
      - destruct (Z.eqb_spec (status resp) 200) as [Hs|Hs].
        + destruct (records_in_cases (body resp)) as [(data & Hb)|(e & Hb)].
          * left. exists data. split; [now rewrite Hout|].
            apply served_records. cbv beta iota. now split.
          * right. split; [exists e; now rewrite Hout|].
            apply served_nothing. cbv beta iota. right. now exists e.
        + right. split; [eexists; exact Hout|].
          apply served_nothing. cbv beta iota. now left.
      - right. split; [eexists; exact Hout|reflexivity]. }
    destruct Hr as [(data & -> & Hserved)|[(e & ->) Hnone]].
    + rewrite (fetch_loop_page remote prisma cookies turns page acc w data _ Hpage).
      rewrite Hserved. specialize (Hplain page). rewrite Hserved in Hplain.
      destruct data as [|t rest].
      * rewrite Hd, extend_extend. cbn [app]. apply Hnext.
      * rewrite duplicate_query_prisma
          by (rewrite Hd; cbn [extend store]; now apply Hserves).
        rewrite Hd, !extend_extend. cbn [store extend].
        unfold prisma_findMany_externalId_in at 1.
        rewrite (plain_ids_accepted _ Hplain).
        rewrite (prisma_all_unseen (map tx_id (t :: rest)) (store w) _ (t :: rest))
          by (unfold prisma_findMany_externalId_in;
              now rewrite (plain_ids_accepted _ Hplain)).
        destruct (Hnext (acc ++ t :: rest)%list
                        (d ++ [EvRequest (GetPayouts (cookie_header cookies) page)] ++
                         [EvStore (TransactionFindManyIn (map tx_id (t :: rest)))])%list)
          as (evs & Hrun).
        exists evs. rewrite <- app_assoc in Hrun. rewrite <- !app_assoc. exact Hrun.
    + rewrite (fetch_loop_page_error remote prisma cookies turns page acc w e _ Hpage).
      rewrite Hnone, Hd, extend_extend. cbn [app]. apply Hnext.
Qed.

(** X14: with [prisma] as the store client, a store that serves the
    operations on the transactions, and a feed whose answer to a page
    request depends on the page only, is never a 429 and carries plain ids
    (Numbers within the 64 bits of the column, or their decimal form as
    Strings), [fetchTransactions] returns, in the order of the pages 1 to
    N, every record of every page that was served, be the record persisted
    or not: a page that was not served (an error, a status other than 200,
    a body that is [null] or of neither shape) contributes nothing, and no
    page ends the loop early. *)
Theorem fetchTransactions_with_prisma_returns_every_page remote cookies N feed w :
  (forall tr page, remote tr (GetPayouts (cookie_header cookies) page) = feed page) ->
  (forall page, answers_429 (feed page) = false) ->
  (forall page, Forall (fun t => plain_id (tx_id t)) (served (feed page))) ->
  serves on_transactions (store w) ->
  exists evs,
    fetchTransactions remote cookies (Some N) prisma w =
    (Ok (List.concat (map (fun page => served (feed page))
                          (pages_from 1 (Z.to_nat N)))),
     extend w evs).
Proof.
  intros Hfeed Hnot Hplain Hserves. unfold fetchTransactions.
  destruct (fetch_loop_with_prisma remote cookies feed (Z.to_nat N) 1 [] w
                                   Hfeed Hnot Hplain Hserves)
    as (evs & Hrun).
  now exists evs.
Qed.

Lemma fetchTransactions_with_prisma_returns_every_page_witness :
  exists evs,
    fetchTransactions feed_with_string_id the_session (Some 3) prisma world_with_5 =
    (Ok [with_id (ofString "5") (record 5); record 6], extend world_with_5 evs).
Proof.
  apply (fetchTransactions_with_prisma_returns_every_page feed_with_string_id the_session 3
           (fun page => feed_with_string_id [] (GetPayouts EmptyString page)) world_with_5).
  - intros tr page. reflexivity.
  - intros page. destruct page as [|p|p]; try reflexivity.
    destruct p as [[p|p|]|[p|p|]|]; reflexivity.
  - intros page.
    assert (H5 : plain_id (ofString "5")) by (exists 5; split; [reflexivity|now right]).
    assert (H6 : plain_id (ofNumber 6)) by (exists 6; split; [reflexivity|now left]).
    destruct page as [|p|p]; try (now constructor).
    destruct p as [[p|p|]|[p|p|]|]; cbn; repeat constructor; assumption.
  - intros tr op _. reflexivity.
Defined.

(** ** Resolving the cabinets of an order *)

(** What an order resolves to in a store: never the empty list. *)
Lemma cabinets_to_sync_cases order s :
  cabinets_to_sync order s <> Ok [] /\
  cabinets_to_sync order s <> OutOfFuel /\
  (forall id, ord_cabinetId order = Some id -> id <> 0 ->
     cabinet_query order = CabinetFindUnique id /\
     (In id (map cab_id (cabinets s)) ->
      exists c, cabinets_to_sync order s = Ok [c] /\ In c (cabinets s) /\ cab_id c = id) /\
     (~ In id (map cab_id (cabinets s)) ->
      cabinets_to_sync order s =
      Thrown (Error ("Кабинет с ID " ++ decimal id ++ " не найден")))) /\
  (ord_cabinetId order = None \/ ord_cabinetId order = Some 0 ->
     cabinet_query order = CabinetFindMany /\
     (cabinets s <> [] -> cabinets_to_sync order s = Ok (cabinets s)) /\
     (cabinets s = [] ->
      cabinets_to_sync order s = Thrown (Error "В базе данных не найдено кабинетов"))).
Proof.
  unfold cabinets_to_sync, cabinet_query, all_cabinets.
  destruct (ord_cabinetId order) as [cabinetId|].
  - destruct (Z.eqb_spec cabinetId 0) as [->|Hne].
    + split; [destruct (cabinets s); discriminate|].
      split; [destruct (cabinets s); discriminate|]. split.
      * intros id [= <-] Hid. contradiction.
      * intros _. split; [reflexivity|].
        destruct (cabinets s); split; congruence.
    + destruct (find (fun c => cab_id c =? cabinetId) (cabinets s)) as [c|] eqn:Hfind.
      * split; [discriminate|]. split; [discriminate|]. split.
        -- intros id [= <-] _.
           split; [reflexivity|]. apply find_some in Hfind as [Hin Hid].
           apply Z.eqb_eq in Hid. split.
           ++ intros _. now exists c.
           ++ intros Hnot. exfalso. apply Hnot. rewrite <- Hid. now apply in_map.
        -- intros [H|H]; [discriminate|]. injection H as ->. contradiction.
      * split; [discriminate|]. split; [discriminate|]. split.
        -- intros id [= <-] _.
           split; [reflexivity|]. split.
           ++ intros Hin. apply in_map_iff in Hin as (c & Hid & Hin).
              pose proof (find_none _ _ Hfind c Hin) as Hc. cbv beta in Hc.
              apply Z.eqb_neq in Hc. contradiction.
           ++ intros _. reflexivity.
        -- intros [H|H]; [discriminate|]. injection H as ->. contradiction.
  - split; [destruct (cabinets s); discriminate|].
    split; [destruct (cabinets s); discriminate|]. split.
    + intros id H. discriminate.
    + intros _. split; [reflexivity|].
      destruct (cabinets s); split; congruence.
Qed.

(** Whatever the store does, the resolution is at most three rounds of
    its query and a wait, and a last query; it ends and never returns an
    empty list. *)
Lemma determineCabinetsToSync_any order w :
  exists r waits,
    determineCabinetsToSync order w =
    (r, extend w (rounds (EvStore (cabinet_query order)) waits ++
                  [EvStore (cabinet_query order)])) /\
    (List.length waits <= 3)%nat /\
    r <> OutOfFuel /\ r <> Ok [].
Proof.
  assert (Hall : exists r waits,
             (cabinets <- withRetry_default (store_call CabinetFindMany cabinet_findMany) ;;
              if Nat.eqb (List.length cabinets) 0
              then throw (Error "В базе данных не найдено кабинетов")
              else ret cabinets) w =
             (r, extend w (rounds (EvStore CabinetFindMany) waits ++
                           [EvStore CabinetFindMany])) /\
             (List.length waits <= 3)%nat /\ r <> OutOfFuel /\ r <> Ok []).
  { destruct (withRetry_read CabinetFindMany cabinet_findMany 3 (fun s => eq_refl) 2000%Q w)
      as (r0 & waits & Hq & Hf & Hlen & _).
    unfold bind at 1, withRetry_default. rewrite Hq.
    destruct r0 as [[|c cs]|e|]; [| | |contradiction].
    - eexists. exists waits. split; [reflexivity|]. repeat split; auto; discriminate.
    - eexists. exists waits. split; [reflexivity|]. repeat split; auto; discriminate.
    - eexists. exists waits. split; [reflexivity|]. repeat split; auto; discriminate. }
  unfold determineCabinetsToSync, cabinet_query.
  destruct (ord_cabinetId order) as [cabinetId|]; [|exact Hall].
  destruct (cabinetId =? 0); [exact Hall|].
  destruct (withRetry_read (CabinetFindUnique cabinetId) (cabinet_findUnique cabinetId) 3
                           (fun s => eq_refl) 2000%Q w)
    as (r0 & waits & Hq & Hf & Hlen & _).
  unfold bind at 1, withRetry_default. rewrite Hq.
  destruct r0 as [[c|]|e|]; [| | |contradiction].
  - eexists. exists waits. split; [reflexivity|]. repeat split; auto; discriminate.
  - eexists. exists waits. split; [reflexivity|]. repeat split; auto; discriminate.
  - eexists. exists waits. split; [reflexivity|]. repeat split; auto; discriminate.
Qed.

(** X15: [determineCabinetsToSync] makes no write: whatever the store
    does, it is at most three rounds of one query and a wait, and that
    query once more; it ends and never returns an empty list.  When the
    store serves the query, there is one query and no wait; for an order
    with a cabinet id other than 0 it resolves to that one cabinet, and
    throws an error that names the id when no cabinet has it; for an order
    without a cabinet id, and for one whose cabinet id is 0 (which the
    test [if (order.cabinetId)] takes for absent), it resolves to all the
    cabinets of the store, and throws when there are none. *)
Theorem determineCabinetsToSync_resolves order w :
  exists r waits,
    determineCabinetsToSync order w =
    (r, extend w (rounds (EvStore (cabinet_query order)) waits ++
                  [EvStore (cabinet_query order)])) /\
    (List.length waits <= 3)%nat /\
    r <> OutOfFuel /\
    r <> Ok [] /\
    (failure (store w) (trace w) (cabinet_query order) = None ->
     waits = [] /\
     (forall id, ord_cabinetId order = Some id -> id <> 0 ->
        cabinet_query order = CabinetFindUnique id /\
        (In id (map cab_id (cabinets (store w))) ->
         exists c, r = Ok [c] /\ In c (cabinets (store w)) /\ cab_id c = id) /\
        (~ In id (map cab_id (cabinets (store w))) ->
         r = Thrown (Error ("Кабинет с ID " ++ decimal id ++ " не найден")))) /\
     (ord_cabinetId order = None \/ ord_cabinetId order = Some 0 ->
        cabinet_query order = CabinetFindMany /\
        (cabinets (store w) <> [] -> r = Ok (cabinets (store w))) /\
        (cabinets (store w) = [] ->
         r = Thrown (Error "В базе данных не найдено кабинетов")))).
Proof.
  destruct (failure (store w) (trace w) (cabinet_query order)) as [e|] eqn:Hserved.
  - destruct (determineCabinetsToSync_any order w) as (r & waits & Hrun & Hlen & Hf & Hne).
    exists r, waits. repeat split; auto; discriminate.
  - destruct (cabinets_to_sync_cases order (store w)) as (Hne & Hf & Hone & Hall).
    exists (cabinets_to_sync order (store w)), [].
    split; [now apply determineCabinetsToSync_spec|].
    split; [cbn; lia|]. split; [exact Hf|]. split; [exact Hne|].
    intros _. split; [reflexivity|]. split; assumption.
Qed.

(** ** What a run does to the store *)

(** X16: a run of [processPendingIdexSyncOrders] ends, whatever the remote
    answers, and only ever moves the store forward: no order is created
    or deleted and none gets another id, cabinet or page counts; the
    cabinets are untouched; no transaction is deleted or changed, the new
    ones come after the old ones; and if the pairs (externalId,
    cabinetId) were unique and every transaction belonged to a cabinet
    before the run, that is so after it. *)
Theorem processPending_moves_the_store_forward
        remote now BigInt_of_string Date_parse toISOString w :
  exists r w',
    processPendingIdexSyncOrders remote now BigInt_of_string Date_parse toISOString w =
    (r, w') /\
    r <> OutOfFuel /\
    store_grows (store w) (store w').
Proof.
  destruct (inv_processPending remote now BigInt_of_string Date_parse toISOString
              (fun _ => True) store_grows (fun _ => I)
              store_grows_refl store_grows_trans store_grows_create
              (fun _ => True) (fun _ _ => I) (fun _ _ _ => I)
              (fun id data t s _ => store_grows_update id data t s) (fun _ => I) w)
    as (r & w' & evs & Hrun & Hf & _ & HR & _).
  now exists r, w'.
Qed.

(** ** [saveTransactions] on any batch *)

Section AnyBatch.

Variable now : list Event -> Z.
Variable BigInt_of_string : string -> option Z.
Variable Date_parse : string -> option Z.
Variable toISOString : Z -> string.
Variable cabinetId : Z.

Let creation t :=
  withRetry_default
    (create_call now BigInt_of_string Date_parse toISOString prisma t cabinetId).

Lemma create_data_cabinet t data :
  create_data BigInt_of_string Date_parse toISOString t cabinetId = Some data ->
  new_cabinetId data = cabinetId.
Proof.
  unfold create_data.
  destruct (bigint_of _ (tx_id t)); [|discriminate].
  destruct (bigint_of _ (tx_payment_method_id t)); [|discriminate].
  destruct (stamp_of _ _ (tx_approved_at t)); [|discriminate].
  destruct (stamp_of _ _ (tx_expired_at t)); [|discriminate].
  now intros [= <-].
Qed.

(** A record whose columns do not convert is not sent to the store. *)
Lemma create_call_unconvertible t w :
  create_data BigInt_of_string Date_parse toISOString t cabinetId = None ->
  exists msg,
    create_call now BigInt_of_string Date_parse toISOString prisma t cabinetId w =
    (Thrown (Error msg), w).
Proof.
  unfold create_data, create_call, bigint_of, stamp_of, BigInt, shifted, bind, ret, throw.
  intros H.
  destruct (tx_id t) as [n|s]; [|destruct (BigInt_of_string s) as [n|]; [|now eexists]];
  (destruct (tx_payment_method_id t) as [m|s'];
     [|destruct (BigInt_of_string s') as [m|]; [|now eexists]]);
  (destruct (tx_approved_at t) as [[|c1 s1]|];
     [| destruct (Date_parse (String c1 s1)); [|now eexists] |]);
  (destruct (tx_expired_at t) as [[|c2 s2]|];
     [| destruct (Date_parse (String c2 s2)); [|now eexists] |]);
  simpl in H; discriminate.
Qed.

(** One attempt of a creation: it appends one row of the cabinet whose
    pair was not in the store, or it throws and leaves the store as it
    was. *)
Lemma create_call_outcome t w :
  exists r w',
    create_call now BigInt_of_string Date_parse toISOString prisma t cabinetId w = (r, w') /\
    r <> OutOfFuel /\
    orders (store w') = orders (store w) /\
    cabinets (store w') = cabinets (store w) /\
    ((exists row, r = Ok row /\
                  transactions (store w') = (transactions (store w) ++ [row])%list /\
                  row_cabinetId row = cabinetId /\
                  pair_present (row_externalId row) cabinetId (transactions (store w)) = false) \/
     (exists e, r = Thrown e /\ transactions (store w') = transactions (store w))).
Proof.
  assert (Hthrown : forall e w',
            store w' = store w ->
            exists r w0,
              (Thrown e, w') = (r, w0) /\
              r <> OutOfFuel /\
              orders (store w0) = orders (store w) /\
              cabinets (store w0) = cabinets (store w) /\
              ((exists row, r = Ok row /\
                            transactions (store w0) = (transactions (store w) ++ [row])%list /\
                            row_cabinetId row = cabinetId /\
                            pair_present (row_externalId row) cabinetId
                                         (transactions (store w)) = false) \/
               (exists e0, r = Thrown e0 /\
                           transactions (store w0) = transactions (store w)))).
  { intros e w' Hw'. exists (Thrown e), w'. split; [reflexivity|].
    split; [discriminate|]. rewrite Hw'. split; [reflexivity|]. split; [reflexivity|].
    right. now exists e. }
  destruct (create_data BigInt_of_string Date_parse toISOString t cabinetId)
    as [data|] eqn:Hdata.
  - pose proof (create_data_cabinet t data Hdata) as Hc.
    rewrite (create_call_data now BigInt_of_string Date_parse toISOString cabinetId
                              prisma t data w Hdata).
    unfold store_call.
    destruct (failure (store w) (trace w) (TransactionCreateOp data)) as [e|];
      [now apply Hthrown|].
    cbn [log store trace create prisma]. unfold prisma_create. rewrite Hc.
    destruct (negb (in_int64 _ && in_int64 _)); [now apply Hthrown|].
    destruct (negb (in_int32 _ && in_int32 _)); [now apply Hthrown|].
    destruct (existsb (fun c => cab_id c =? cabinetId) (cabinets (store w))) eqn:Hcab;
      cbn [negb]; [|now apply Hthrown].
    destruct (pair_present (new_externalId data) cabinetId (transactions (store w)))
      eqn:Hnew; [now apply Hthrown|].
    do 2 eexists. split; [reflexivity|]. split; [discriminate|].
    split; [reflexivity|]. split; [reflexivity|]. left. eexists.
    split; [reflexivity|]. split; [reflexivity|]. split; [exact Hc|exact Hnew].
  - destruct (create_call_unconvertible t w Hdata) as (msg & ->).
    now apply Hthrown.
Qed.

(** A creation behind [withRetry], whatever the attempts it takes. *)
Lemma creation_attempts t retries : forall delay w,
  exists r w',
    withRetry (create_call now BigInt_of_string Date_parse toISOString prisma t cabinetId)
              retries delay w = (r, w') /\
    r <> OutOfFuel /\
    orders (store w') = orders (store w) /\
    cabinets (store w') = cabinets (store w) /\
    ((exists row, r = Ok row /\
                  transactions (store w') = (transactions (store w) ++ [row])%list /\
                  row_cabinetId row = cabinetId /\
                  pair_present (row_externalId row) cabinetId (transactions (store w)) = false) \/
     (exists e, r = Thrown e /\ transactions (store w') = transactions (store w))).
Proof.
  induction retries as [|retries IH]; intros delay w.
  - rewrite withRetry_spent. apply create_call_outcome.
  - destruct (create_call_outcome t w) as (r & w1 & Hrun & Hf & Ho & Hc & Hcase).
    destruct Hcase as [(row & -> & Hrest)|(e & -> & Ht)].
    + exists (Ok row), w1. rewrite (withRetry_ok _ _ _ _ _ _ Hrun).
      split; [reflexivity|]. split; [discriminate|]. split; [exact Ho|].
      split; [exact Hc|]. left. now exists row.
    + destruct (unreachable e) eqn:He.
      * rewrite (withRetry_again _ _ _ _ _ _ Hrun He).
        destruct (IH (Qred (delay * (3 # 2))) (log (EvTimer (Some delay)) w1))
          as (r & w' & Hrest & Hf' & Ho' & Hc' & Hcase').
        cbn [log store] in Ho', Hc', Hcase'.
        exists r, w'. split; [exact Hrest|]. split; [exact Hf'|].
        split; [congruence|]. split; [congruence|].
        rewrite Ht in Hcase'. exact Hcase'.
      * exists (Thrown e), w1. rewrite (withRetry_other _ _ _ _ _ _ Hrun He).
        split; [reflexivity|]. split; [discriminate|]. split; [exact Ho|].
        split; [exact Hc|]. right. now exists e.
Qed.

(** One creation: it appends one row of the cabinet whose pair was not in
    the store, or it throws and leaves the store as it was. *)
Lemma creation_outcome t w :
  exists r w',
    creation t w = (r, w') /\
    orders (store w') = orders (store w) /\
    cabinets (store w') = cabinets (store w) /\
    ((exists row, r = Ok row /\
                  transactions (store w') = (transactions (store w) ++ [row])%list /\
                  row_cabinetId row = cabinetId /\
                  pair_present (row_externalId row) cabinetId (transactions (store w)) = false) \/
     (exists e, r = Thrown e /\ transactions (store w') = transactions (store w))).
Proof.
  destruct (creation_attempts t 3 2000%Q w) as (r & w' & Hrun & _ & H).
  now exists r, w'.
Qed.

Lemma creations_outcome news : forall w,
  exists r w' added,
    Promise_all (map creation news) w = (r, w') /\
    r <> OutOfFuel /\
    orders (store w') = orders (store w) /\
    cabinets (store w') = cabinets (store w) /\
    transactions (store w') = (transactions (store w) ++ added)%list /\
    Forall (fun row => row_cabinetId row = cabinetId /\
                       pair_present (row_externalId row) cabinetId
                                    (transactions (store w)) = false) added /\
    NoDup (map row_externalId added) /\
    (List.length added <= List.length news)%nat /\
    (forall rows, r = Ok rows -> rows = added).
Proof.
  induction news as [|t news IH]; intros w.
  - exists (Ok []), w, []. cbn. rewrite app_nil_r.
    repeat split; auto; try discriminate; try constructor. now intros rows [= <-].
  - cbn [map Promise_all].
    destruct (creation_outcome t w) as (r1 & w1 & Hrun1 & Ho1 & Hc1 & Hcase).
    destruct (IH w1) as (r2 & w2 & added & Hrun2 & Hf2 & Ho2 & Hc2 & Ht2 & Hall & Hnd & Hlen & Hok).
    rewrite Hrun1, Hrun2.
    destruct Hcase as [(row & -> & Ht1 & Hrow & Hfresh)|(e & -> & Ht1)].
    + eexists. exists w2, (row :: added). split; [reflexivity|].
      split; [destruct r2; congruence|].
      split; [congruence|]. split; [congruence|].
      split; [rewrite Ht2, Ht1, <- app_assoc; reflexivity|].
      assert (Hafter : Forall (fun row' =>
                row_cabinetId row' = cabinetId /\
                pair_present (row_externalId row') cabinetId (transactions (store w)) = false /\
                row_externalId row' <> row_externalId row) added).
      { eapply Forall_impl; [|exact Hall]. intros row' [Hcab Hp]. cbv beta.
        rewrite Ht1, pair_present_app in Hp. apply orb_false_iff in Hp as [Hp Hq].
        split; [assumption|]. split; [assumption|].
        intros Heq. cbn in Hq. rewrite Heq, Hrow, !Z.eqb_refl in Hq. discriminate. }
      split.
      { constructor; [now split|]. eapply Forall_impl; [|exact Hafter].
        intros row' (H1 & H2 & _). now split. }
      split.
      { cbn [map]. constructor; [|assumption].
        intros Hin. apply in_map_iff in Hin as (row' & Heq & Hin).
        rewrite Forall_forall in Hafter. now apply (Hafter row' Hin). }
      split; [cbn [List.length]; lia|].
      intros rows Hrows. destruct r2 as [l| |]; try discriminate.
      injection Hrows as <-. now rewrite (Hok l eq_refl).
    + eexists. exists w2, added. split; [reflexivity|].
      split; [discriminate|].
      split; [congruence|]. split; [congruence|].
      split; [rewrite Ht2, Ht1; reflexivity|].
      split; [now rewrite <- Ht1|].
      split; [assumption|]. split; [cbn [List.length]; lia|].
      intros rows Hrows. destruct r2; discriminate.
Qed.

(** X17: for any batch, with [prisma], [saveTransactions] ends; the
    orders and the cabinets are untouched; the rows it adds come after
    the transactions of the store, belong to the cabinet given, have
    pairwise distinct external ids and pairs (externalId, cabinetId) that
    were not in the store, and are no more than the records of the batch;
    and when it returns, it returns exactly the rows it added. *)
Theorem saveTransactions_returns_what_it_added txs w :
  exists r w' added,
    saveTransactions now BigInt_of_string Date_parse toISOString txs cabinetId prisma w =
    (r, w') /\
    r <> OutOfFuel /\
    orders (store w') = orders (store w) /\
    cabinets (store w') = cabinets (store w) /\
    transactions (store w') = (transactions (store w) ++ added)%list /\
    Forall (fun row => row_cabinetId row = cabinetId /\
                       pair_present (row_externalId row) cabinetId
                                    (transactions (store w)) = false) added /\
    NoDup (map row_externalId added) /\
    (List.length added <= List.length txs)%nat /\
    (forall rows, r = Ok rows -> rows = added).
Proof.
  destruct (withRetry_read (TransactionFindManyOfCabinet cabinetId)
                           (fun s => (findMany_cabinetId prisma cabinetId s, s)) 3
                           (fun s => eq_refl) 2000%Q w)
    as (r0 & waits & Hq & Hf0 & _ & _).
  unfold saveTransactions, bind at 1. unfold withRetry_default. rewrite Hq.
  match goal with |- context [extend w ?l] => set (w0 := extend w l) end.
  destruct r0 as [existing|e|]; [| |contradiction].
  - match goal with |- context [filter ?f txs] => set (news := filter f txs) end.
    assert (Hlen : (List.length news <= List.length txs)%nat) by apply filter_length_le.
    destruct news as [|t rest] eqn:Hnews.
    + cbn. exists (Ok []), w0, []. rewrite app_nil_r.
      repeat split; auto; try discriminate; try constructor. now intros rows [= <-].
    + cbn [List.length Nat.eqb]. rewrite <- Hnews in *.
      destruct (creations_outcome news w0)
        as (r & w' & added & Hrun & Hf & Ho & Hc & Ht & Hall & Hnd & Hl & Hok).
      exists r, w', added. split; [exact Hrun|].
      repeat split; auto. lia.
  - exists (Thrown e), w0, []. cbn. rewrite app_nil_r.
    repeat split; auto; try discriminate; try constructor.
    apply Nat.le_0_l.
Qed.

End AnyBatch.


(** ** The synchronisation of one cabinet *)

(** X18: the synchronisation of the cabinet at position [i] of an order
    whose page count for that position is [N] ends, and all it does is:
    log in with the credentials of that cabinet, ask for pages between 1
    and [N], wait, and read and create transactions; the orders and the
    cabinets are untouched and the store only moves forward; when it
    returns, its entry is the success entry of that cabinet. *)
Theorem sync_cabinet_stays_within_its_pages
        remote now BigInt_of_string Date_parse toISOString order i c N w :
  determinePages (Some (ord_pages order)) i = Some N ->
  exists r w' evs,
    sync_cabinet remote now BigInt_of_string Date_parse toISOString order i c w = (r, w') /\
    r <> OutOfFuel /\
    (forall entry, r = Ok entry -> exists n m, entry = CabinetSynced (cab_id c) n m) /\
    trace w' = (trace w ++ evs)%list /\
    Forall (sync_event (cabinet_request c N)) evs /\
    orders (store w') = orders (store w) /\
    store_grows (store w) (store w').
Proof.
  intros Hpages.
  set (R := fun s s' => orders s' = orders s /\ store_grows s s').
  assert (R_refl : forall s, R s s) by (intros s; split; [reflexivity|apply store_grows_refl]).
  assert (R_trans : forall a b d, R a b -> R b d -> R a d).
  { intros a b d [H1 H2] [H3 H4]. split; [congruence|eapply store_grows_trans; eassumption]. }
  assert (R_create : forall data t s, R s (snd (prisma_create data t s))).
  { intros data t s. split; [|apply store_grows_create].
    exact (proj1 (same_orders_create data t s)). }
  assert (Hops : forall op, sync_event (fun _ => True) (EvStore op) ->
                            sync_event (cabinet_request c N) (EvStore op))
    by (intros op H; exact H).
  assert (Hlogin : sync_event (cabinet_request c N)
                              (EvRequest (PostLogin (cab_login c) (cab_password c))))
    by (simpl; now split).
  assert (Hpage : forall cookieStr page,
             1 <= page <= match determinePages (Some (ord_pages order)) i with
                          | Some n => n
                          | None => DEFAULT_PAGES_TO_FETCH
                          end ->
             sync_event (cabinet_request c N) (EvRequest (GetPayouts cookieStr page))).
  { intros cookieStr page Hp. rewrite Hpages in Hp. exact Hp. }
  destruct (inv_sync_cabinet remote now BigInt_of_string Date_parse toISOString
              (sync_event (cabinet_request c N)) R (fun _ => I) R_refl R_trans R_create
              order i c Hops Hlogin Hpage w)
    as (r & w' & evs & Hrun & Hf & HQ & [Ho HR] & Htr & HP).
  exists r, w', evs. split; [exact Hrun|]. split; [exact Hf|]. split; [exact HQ|].
  split; [exact Htr|]. split; [exact HP|]. split; [exact Ho|exact HR].
Qed.

Lemma sync_cabinet_stays_within_its_pages_witness :
  exists r w' evs,
    sync_cabinet feed_5_6 epoch no_bigint no_date iso
                 (order_row 1 None PENDING [3; 2]) 1 (cabinet 2 "second") world_with_orders =
    (r, w') /\
    r <> OutOfFuel /\
    (forall entry, r = Ok entry -> exists n m, entry = CabinetSynced 2 n m) /\
    trace w' = (trace world_with_orders ++ evs)%list /\
    Forall (sync_event (cabinet_request (cabinet 2 "second") 2)) evs /\
    orders (store w') = orders store_with_orders /\
    store_grows store_with_orders (store w').
Proof.
  apply (sync_cabinet_stays_within_its_pages feed_5_6 epoch no_bigint no_date iso
           (order_row 1 None PENDING [3; 2]) 1 (cabinet 2 "second") 2 world_with_orders).
  reflexivity.
Defined.

(** ** Orders that fail, and what a run returns *)

(** X19: over a store that serves the operations on the orders and on
    the cabinets, an order whose cabinets do not resolve (its cabinet id
    is that of no cabinet, or the store has no cabinet at all) is written
    IN_PROGRESS, then FAILED with the message of the error as its result;
    no HTTP call is made for it, the transactions and the cabinets are as
    they were, and the processing of the order itself does not throw. *)
Theorem unresolved_order_ends_failed
        remote now BigInt_of_string Date_parse toISOString order w o e :
  find_order (ord_id order) (orders (store w)) = Some o ->
  cabinets_to_sync order (store w) = Thrown e ->
  serves on_orders (store w) ->
  serves on_cabinets (store w) ->
  exists w' o' t0 t1,
    process_order remote now BigInt_of_string Date_parse toISOString order w = (Ok tt, w') /\
    trace w' = (trace w ++ [EvStore (OrderUpdateOp (ord_id order) (started t0));
                            EvStore (cabinet_query order);
                            EvStore (OrderUpdateOp (ord_id order) (failed_with e t1))])%list /\
    find_order (ord_id order) (orders (store w')) = Some o' /\
    ord_status o' = FAILED /\
    ord_processed o' = Some (ProcessedError (message e)) /\
    transactions (store w') = transactions (store w) /\
    cabinets (store w') = cabinets (store w).
Proof.
  intros Hfind Hres Hserves Hcabs. unfold process_order, try_catch.
  pose proof (update_order_existing now (ord_id order) started w o Hfind
                (Hserves (trace w) (OrderUpdateOp (ord_id order) (started (now (trace w))))
                         eq_refl)) as H1.
  rewrite (write_order_found _ _ _ _ _ Hfind) in H1.
  set (t1 := now (trace w)) in *.
  set (f1 := apply_update (started t1) t1) in *.
  match type of H1 with _ = (_, ?x) => set (w1 := x) in * end.
  unfold bind at 1. rewrite H1.
  unfold bind at 1. rewrite (determineCabinetsToSync_spec order w1).
  2:{ subst w1. cbn [store failure]. apply Hcabs. unfold cabinet_query.
      destruct (ord_cabinetId order) as [c|]; [destruct (c =? 0)|]; reflexivity. }
  rewrite (cabinets_to_sync_ext order (store w) (store w1)), Hres by reflexivity.
  assert (Hf1 : forall o', ord_id (f1 o') = ord_id o') by reflexivity.
  set (w2 := extend w1 [EvStore (cabinet_query order)]).
  assert (Hfind2 : find_order (ord_id order) (orders (store w2)) = Some (f1 o)).
  { subst w2 w1. cbn [extend store orders]. now apply find_order_map. }
  pose proof (update_order_existing now (ord_id order) (failed_with e) w2 (f1 o) Hfind2) as H4.
  rewrite (write_order_found _ _ _ _ _ Hfind2) in H4.
  set (t4 := now (trace w2)) in *.
  unfold bind at 1. rewrite H4
    by (subst w2 w1; cbn [extend store failure]; now apply Hserves).
  cbn [bind ret].
  eexists. exists (apply_update (failed_with e t4) t4 (f1 o)), t1, t4.
  split; [reflexivity|]. cbn [store trace orders cabinets transactions].
  split.
  { subst w2 w1. cbn [extend trace]. now rewrite <- !app_assoc. }
  split.
  { apply find_order_map; [reflexivity|exact Hfind2]. }
  repeat split.
Qed.

Lemma unresolved_order_ends_failed_witness :
  exists w' o' t0 t1,
    process_order feed_5_6 epoch no_bigint no_date iso
                  (order_row 1 None PENDING [2]) world_without_cabinets = (Ok tt, w') /\
    trace w' = (trace world_without_cabinets ++
                [EvStore (OrderUpdateOp 1 (started t0));
                 EvStore CabinetFindMany;
                 EvStore (OrderUpdateOp 1
                            (failed_with (Error "В базе данных не найдено кабинетов") t1))])%list /\
    find_order 1 (orders (store w')) = Some o' /\
    ord_status o' = FAILED /\
    ord_processed o' = Some (ProcessedError "В базе данных не найдено кабинетов") /\
    transactions (store w') = [] /\
    cabinets (store w') = [].
Proof.
  apply (unresolved_order_ends_failed feed_5_6 epoch no_bigint no_date iso
           (order_row 1 None PENDING [2]) world_without_cabinets
           (order_row 1 None PENDING [2])
           (Error "В базе данных не найдено кабинетов")).
  - reflexivity.
  - reflexivity.
  - intros tr op _. reflexivity.
  - intros tr op _. reflexivity.
Defined.

Lemma not_pending_filter l :
  Forall (fun o => ord_status o <> PENDING) l <->
  filter (fun o => status_eqb (ord_status o) PENDING) l = [].
Proof.
  induction l as [|o l IH]; [split; [reflexivity|constructor]|].
  cbn [filter]. split.
  - intros H. inversion H as [|? ? Ho Hl]; subst.
    destruct (ord_status o); try contradiction; cbn; now apply IH.
  - destruct (ord_status o) eqn:Hs; cbn; try discriminate;
      intros H; (constructor; [rewrite Hs; discriminate|now apply IH]).
Qed.

(** A run over a store whose orders have distinct ids, and which serves
    the operations on the orders, leaves no order pending, and ends by
    throwing. *)
Lemma processPending_drains remote now BigInt_of_string Date_parse toISOString w :
  NoDup (map ord_id (orders (store w))) ->
  serves on_orders (store w) ->
  exists w',
    processPendingIdexSyncOrders remote now BigInt_of_string Date_parse toISOString w =
    (Thrown (Error "pendingOrders is not defined"), w') /\
    map ord_id (orders (store w')) = map ord_id (orders (store w)) /\
    failure (store w') = failure (store w) /\
    Forall (fun o => ord_status o <> PENDING) (orders (store w')).
Proof.
  intros Hnodup Hserves.
  destruct (processPending_runs remote now BigInt_of_string Date_parse toISOString w
              Hnodup Hserves)
    as (w' & evs & Hrun & _ & Hids & Hfail & Horders).
  exists w'. split; [exact Hrun|]. split; [exact Hids|]. split; [exact Hfail|].
  apply Forall_forall. intros o' Ho'.
  assert (Hnodup' : NoDup (map ord_id (orders (store w')))) by now rewrite Hids.
  assert (Hin : In (ord_id o') (map ord_id (orders (store w)))).
  { rewrite <- Hids. now apply in_map. }
  apply in_map_iff in Hin as (o & Hid & Ho).
  specialize (Horders o Ho).
  destruct (ord_status o) eqn:Hs.
  - destruct Horders as (s & Hs' & _ & o'' & Ho'' & Hid'' & Hst).
    assert (o'' = o') by (eapply NoDup_map_eq; [exact Hnodup'| | |]; congruence).
    subst o''. rewrite Hst. destruct Hs' as [->| ->]; discriminate.
  - destruct Horders as [Hin' _].
    assert (o = o') by (eapply NoDup_map_eq; [exact Hnodup'| | |]; congruence).
    subst o'. rewrite Hs. discriminate.
  - destruct Horders as [Hin' _].
    assert (o = o') by (eapply NoDup_map_eq; [exact Hnodup'| | |]; congruence).
    subst o'. rewrite Hs. discriminate.
  - destruct Horders as [Hin' _].
    assert (o = o') by (eapply NoDup_map_eq; [exact Hnodup'| | |]; congruence).
    subst o'. rewrite Hs. discriminate.
Qed.

(** X20: [processPendingIdexSyncOrders] never returns the number of
    orders it processed: over a store whose orders have distinct ids it
    returns 0 or throws; and when the store serves the operations on the
    orders, it processes every pending order (none is left pending) and
    then throws, its final [return pendingOrders.length] being outside
    the block that declares [pendingOrders]. *)
Theorem processPending_never_returns_its_count
        remote now BigInt_of_string Date_parse toISOString w :
  NoDup (map ord_id (orders (store w))) ->
  exists r w',
    processPendingIdexSyncOrders remote now BigInt_of_string Date_parse toISOString w =
    (r, w') /\
    (r = Ok 0 \/ exists e, r = Thrown e) /\
    (serves on_orders (store w) ->
     r = Thrown (Error "pendingOrders is not defined") /\
     Forall (fun o => ord_status o <> PENDING) (orders (store w'))).
Proof.
  intros Hnodup.
  destruct (processPending_others remote now BigInt_of_string Date_parse toISOString w Hnodup)
    as (r & w' & evs & Hrun & Hcase & _).
  exists r, w'. split; [exact Hrun|]. split; [exact Hcase|].
  intros Hserves.
  destruct (processPending_drains remote now BigInt_of_string Date_parse toISOString w
              Hnodup Hserves)
    as (w1 & Hrun1 & _ & _ & Hnone).
  rewrite Hrun in Hrun1. injection Hrun1 as -> ->.
  split; [reflexivity|exact Hnone].
Qed.

Lemma processPending_never_returns_its_count_witness :
  exists r w',
    processPendingIdexSyncOrders first_refused epoch no_bigint no_date iso world_with_orders =
    (r, w') /\
    (r = Ok 0 \/ exists e, r = Thrown e) /\
    (serves on_orders (store world_with_orders) ->
     r = Thrown (Error "pendingOrders is not defined") /\
     Forall (fun o => ord_status o <> PENDING) (orders (store w'))).
Proof.
  apply (processPending_never_returns_its_count first_refused epoch no_bigint no_date iso
           world_with_orders).
  repeat constructor; simpl; intuition discriminate.
Defined.

(** ** A turn of the poll loop *)

Section Cycle.

Variable remote : list Event -> Request -> HttpOutcome.
Variable now : list Event -> Z.
Variable BigInt_of_string : string -> option Z.
Variable Date_parse : string -> option Z.
Variable toISOString : Z -> string.
Variable checkInterval : Z.

Let cycle := watch_cycle remote now BigInt_of_string Date_parse toISOString checkInterval.

(** X21: a turn of the poll loop never throws, whatever the remote
    answers: anything thrown while the orders are processed, the error
    with which [processPendingIdexSyncOrders] ends included, is caught,
    and the turn ends with the pause of [checkInterval] milliseconds; the
    store only moves forward. *)
Theorem watch_cycle_always_reaches_its_pause w :
  exists w' evs,
    watch_cycle remote now BigInt_of_string Date_parse toISOString checkInterval w =
    (Ok tt, w') /\
    trace w' = (trace w ++ evs ++ [EvTimer (millis checkInterval)])%list /\
    store_grows (store w) (store w').
Proof.
  destruct (inv_watch_body remote now BigInt_of_string Date_parse toISOString
              (fun _ => True) store_grows (fun _ => I)
              store_grows_refl store_grows_trans store_grows_create
              (fun _ => True) (fun _ _ => I) (fun _ _ _ => I)
              (fun id data t s _ => store_grows_update id data t s) (fun _ => I) w)
    as (r & w1 & evs & Hrun & Hf & _ & HR & Htr & _).
  unfold watch_cycle, bind at 1, try_catch. rewrite Hrun.
  destruct r as [[]|e|]; [| |contradiction].
  - exists (log (EvTimer (millis checkInterval)) w1), evs.
    split; [reflexivity|]. cbn [log trace store]. split; [|exact HR].
    rewrite Htr. now rewrite app_assoc.
  - exists (log (EvTimer (millis checkInterval)) w1), evs.
    split; [reflexivity|]. cbn [log trace store]. split; [|exact HR].
    rewrite Htr. now rewrite app_assoc.
Qed.

Lemma watch_cycle_idle w :
  Forall (fun o => ord_status o <> PENDING) (orders (store w)) ->
  failure (store w) (trace w) (OrderFindMany PENDING) = None ->
  cycle w =
  (Ok tt, extend w [EvStore (OrderFindMany PENDING); EvTimer (millis checkInterval)]).
Proof.
  intros Hnone Hserved. apply not_pending_filter in Hnone.
  unfold cycle, watch_cycle, bind at 1, try_catch. unfold bind at 1.
  rewrite (withRetry_store_call_ok (OrderFindMany PENDING) (order_findMany PENDING) w
             [] (store w)); [|exact Hserved|unfold order_findMany; now rewrite Hnone].
  cbn. unfold extend, setTimeout, log, with_store. cbn [store trace].
  now rewrite <- app_assoc.
Qed.

Lemma watch_cycle_drains w :
  NoDup (map ord_id (orders (store w))) ->
  serves on_orders (store w) ->
  exists w1,
    cycle w = (Ok tt, w1) /\
    map ord_id (orders (store w1)) = map ord_id (orders (store w)) /\
    failure (store w1) = failure (store w) /\
    Forall (fun o => ord_status o <> PENDING) (orders (store w1)).
Proof.
  intros Hnodup Hserves.
  pose proof (Hserves (trace w) (OrderFindMany PENDING) eq_refl) as Hserved.
  destruct (filter (fun o => status_eqb (ord_status o) PENDING) (orders (store w)))
    as [|p ps] eqn:Hpending.
  - apply not_pending_filter in Hpending.
    rewrite (watch_cycle_idle w Hpending Hserved). eexists. split; [reflexivity|].
    split; [reflexivity|]. split; [reflexivity|exact Hpending].
  - set (w0 := with_store (store w) (log (EvStore (OrderFindMany PENDING)) w)).
    destruct (processPending_drains remote now BigInt_of_string Date_parse toISOString w0)
      as (w' & Hrun & Hids & Hfail & Hnone); [exact Hnodup|exact Hserves|].
    exists (log (EvTimer (millis checkInterval)) w').
    unfold cycle, watch_cycle, bind at 1, try_catch. unfold bind at 1.
    rewrite (withRetry_store_call_ok (OrderFindMany PENDING) (order_findMany PENDING) w
               (p :: ps) (store w));
      [|exact Hserved|unfold order_findMany; now rewrite Hpending].
    fold w0. cbn [List.length Nat.ltb Nat.leb]. unfold bind at 1. rewrite Hrun.
    split; [reflexivity|]. split; [exact Hids|]. split; [exact Hfail|exact Hnone].
Qed.

End Cycle.


(** X22: a turn of the poll loop that finds no pending order, its query
    being served by the store, does that one store query and pauses: no
    HTTP call, no write. *)
Theorem watch_cycle_idles_without_pending_orders
        remote now BigInt_of_string Date_parse toISOString checkInterval w :
  Forall (fun o => ord_status o <> PENDING) (orders (store w)) ->
  failure (store w) (trace w) (OrderFindMany PENDING) = None ->
  watch_cycle remote now BigInt_of_string Date_parse toISOString checkInterval w =
  (Ok tt, extend w [EvStore (OrderFindMany PENDING); EvTimer (millis checkInterval)]).
Proof. apply watch_cycle_idle. Qed.

Lemma watch_cycle_idles_without_pending_orders_witness :
  watch_cycle feed_5_6 epoch no_bigint no_date iso 10000 settled_world =
  (Ok tt, extend settled_world [EvStore (OrderFindMany PENDING); EvTimer (millis 10000)]).
Proof.
  apply (watch_cycle_idles_without_pending_orders feed_5_6 epoch no_bigint no_date iso
           10000 settled_world).
  - repeat constructor; discriminate.
  - reflexivity.
Defined.

(** X23: a turn of the poll loop over a store whose orders have distinct
    ids, and which serves the operations on the orders, leaves no order
    pending, so the turn after it is idle: one query and the pause. *)
Theorem watch_cycle_leaves_nothing_pending
        remote now BigInt_of_string Date_parse toISOString checkInterval w :
  NoDup (map ord_id (orders (store w))) ->
  serves on_orders (store w) ->
  exists w1,
    watch_cycle remote now BigInt_of_string Date_parse toISOString checkInterval w =
    (Ok tt, w1) /\
    Forall (fun o => ord_status o <> PENDING) (orders (store w1)) /\
    watch_cycle remote now BigInt_of_string Date_parse toISOString checkInterval w1 =
    (Ok tt, extend w1 [EvStore (OrderFindMany PENDING); EvTimer (millis checkInterval)]).
Proof.
  intros Hnodup Hserves.
  destruct (watch_cycle_drains remote now BigInt_of_string Date_parse toISOString
              checkInterval w Hnodup Hserves) as (w1 & Hrun & _ & Hfail & Hnone).
  exists w1. split; [exact Hrun|]. split; [exact Hnone|].
  apply watch_cycle_idle; [exact Hnone|].
  rewrite Hfail. now apply Hserves.
Qed.

Lemma watch_cycle_leaves_nothing_pending_witness :
  exists w1,
    watch_cycle first_refused epoch no_bigint no_date iso 10000 world_with_orders =
    (Ok tt, w1) /\
    Forall (fun o => ord_status o <> PENDING) (orders (store w1)) /\
    watch_cycle first_refused epoch no_bigint no_date iso 10000 w1 =
    (Ok tt, extend w1 [EvStore (OrderFindMany PENDING); EvTimer (millis 10000)]).
Proof.
  apply (watch_cycle_leaves_nothing_pending first_refused epoch no_bigint no_date iso
           10000 world_with_orders).
  - repeat constructor; simpl; intuition discriminate.
  - intros tr op _. reflexivity.
Defined.

(** ** The session [login] returns *)

Lemma collect_cookies_shape cookies t :
  Forall session_cookie_shape (collect_cookies cookies t []).
Proof.
  rewrite collect_cookies_filter. cbn [app].
  apply Forall_forall. intros c Hc. apply in_map_iff in Hc as (nv & <- & Hnv).
  apply filter_In in Hnv as [_ Hnm].
  unfold session_cookie_shape, session_cookie. cbn.
  split; [|repeat split].
  apply orb_true_iff in Hnm as [Hnm|Hnm]; apply String.eqb_eq in Hnm; auto.
Qed.

Lemma login_loop_session remote now credentials fuel : forall retryCount delay,
  Z.max 0 (MAX_RETRIES - retryCount) < Z.of_nat fuel ->
  within (fun _ => True) eq
         (fun cookies => (2 <= List.length cookies)%nat /\
                         Forall session_cookie_shape cookies)
         (login_loop remote now fuel credentials retryCount delay).
Proof.
  assert (Htrans : forall a b c : Store, a = b -> b = c -> a = c) by (intros; congruence).
  induction fuel as [|fuel IH]; intros retryCount delay Hfuel; [lia|].
  cbn [login_loop].
  apply within_bind
    with (Q := fun step =>
                 match step with
                 | Return cookies => (2 <= List.length cookies)%nat /\
                                     Forall session_cookie_shape cookies
                 | Continue rc _ => rc = retryCount + 1 /\ retryCount < MAX_RETRIES
                 end); [exact Htrans| |].
  - assert (H429 : forall header,
               within (fun _ => True) eq
                 (fun step : Step (list Cookie) =>
                    match step with
                    | Return cookies => (2 <= List.length cookies)%nat /\
                                        Forall session_cookie_shape cookies
                    | Continue rc _ => rc = retryCount + 1 /\ retryCount < MAX_RETRIES
                    end)
                 (on_429 header retryCount delay)).
    { intros header. unfold on_429.
      destruct (Z.leb_spec MAX_RETRIES retryCount); [now apply within_throw|].
      apply within_bind with (Q := any); [exact Htrans|now apply within_setTimeout|].
      intros _ _. apply within_ret; [reflexivity|]. now split. }
    apply within_try_catch; [exact Htrans| |].
    + unfold login_try.
      apply within_bind with (Q := any); [exact Htrans|now apply within_axios|].
      intros response _.
      destruct (status response =? 200).
      * destruct (Nat.eqb _ 0); [now apply within_throw|].
        apply within_bind with (Q := any); [exact Htrans|now apply within_Date_now|].
        intros t _. destruct (Nat.ltb_spec (List.length (collect_cookies
                       match set_cookie (headers response) with
                       | Some l => l
                       | None => []
                       end t [])) 2); [now apply within_throw|].
        apply within_ret; [reflexivity|]. split; [assumption|apply collect_cookies_shape].
      * destruct (status response =? 429); [apply H429|now apply within_throw].
    + intros e. unfold rate_limit_catch.
      destruct (response_is_429 e); [apply H429|now apply within_throw].
  - intros [result|rc d] Hstep.
    + now apply within_ret.
    + destruct Hstep as [-> Hlt]. apply IH. lia.
Qed.

(** X24: whatever the remote answers, what [login] returns, when it
    returns, is a session: at least two cookies, every one named [sid] or
    [rsid] and carrying the fixed attributes (domain [.panel.gate.cx],
    path [/], HTTP-only, secure, neither host-only nor a session
    cookie). *)
Theorem login_returns_session_cookies remote now credentials w cookies w' :
  login remote now credentials w = (Ok cookies, w') ->
  (2 <= List.length cookies)%nat /\ Forall session_cookie_shape cookies.
Proof.
  intros Hrun.
  destruct (login_loop_session remote now credentials loop_fuel 0 BASE_DELAY) with (w := w)
    as (r & w1 & evs & Hrun1 & _ & HQ & _).
  - unfold loop_fuel, MAX_RETRIES. simpl. lia.
  - unfold login in Hrun. rewrite Hrun in Hrun1. injection Hrun1 as <- <-.
    now apply HQ.
Qed.

Lemma login_returns_session_cookies_witness :
  exists w',
    login limited_five_times epoch user empty_world = (Ok the_session, w') /\
    (2 <= List.length the_session)%nat /\ Forall session_cookie_shape the_session.
Proof.
  eexists. split; [vm_compute; reflexivity|].
  apply (login_returns_session_cookies limited_five_times epoch user empty_world
           the_session (snd (login limited_five_times epoch user empty_world))).
  vm_compute. reflexivity.
Defined.

(** ** The operations of [saveTransactions] *)

Section Attempts.

Variable now : list Event -> Z.
Variable BigInt_of_string : string -> option Z.
Variable Date_parse : string -> option Z.
Variable toISOString : Z -> string.
Variable cabinetId : Z.

Let creation t :=
  withRetry_default
    (create_call now BigInt_of_string Date_parse toISOString prisma t cabinetId).





End Attempts.

